(** * The LDAP connector of dex (connector/ldap/ldap.go)

    A shallow embedding of the connector: the configuration, the directory
    entries, the attribute reader, the identity mapper, the filter builder,
    the scoped directory session [do], and the two host-facing operations
    [Login] and [Refresh].

    Go strings are byte strings; they are [string] here (a list of 8-bit
    characters).  Go's [int] scope values are [Z].  A Go slice is a [list]:
    the nil slice and the empty slice are both [[]], as [len] and [range]
    see them.  A Go function with several results returns a tuple, and an
    [error] result is an [option error] ([None] is Go's nil).  Calls of
    [log.Printf] are left out: they return nothing and change nothing the
    connector reads. *)

From Stdlib Require Import String Ascii List ZArith NArith Bool Arith Lia.
Import ListNotations.
Open Scope list_scope.
Open Scope string_scope.

(** ** Go errors

    An error value keeps what the connector can observe of it: whether it
    is a [*ldap.Error] (and then its result code), or an error made by
    [fmt.Errorf] (kept as the format string and its operands, in order), or
    an error of some other package. *)

Inductive error : Type :=
| LdapError (ResultCode : Z) (msg : string)
| ForeignError (msg : string)
| Errorf (format : string) (args : list fmtArg)
with fmtArg : Type :=
| ArgString (s : string)
| ArgStrings (l : list string)
| ArgInt (n : Z)
| ArgError (e : error).

(** ** The directory client library's data (gopkg.in/ldap.v2) *)

Definition byte_of (c : ascii) : N := N_of_ascii c.

Module ldap.

Record EntryAttribute : Type := mkEntryAttribute {
  Name : string;
  Values : list string
}.

Record Entry : Type := mkEntry {
  DN : string;
  Attributes : list EntryAttribute
}.

(** [ldap.Entry{}] *)
Definition zeroEntry : Entry := mkEntry "" [].

Definition ScopeBaseObject : Z := 0.
Definition ScopeSingleLevel : Z := 1.
Definition ScopeWholeSubtree : Z := 2.

Definition LDAPResultInvalidCredentials : Z := 49.

Module SearchRequest.
Record t : Type := mk {
  BaseDN : string;
  Filter : string;
  Scope : Z;
  Attributes : list string
}.
End SearchRequest.

(** Modelled from the spec: [ldap.EscapeFilter] and its helper
    [mustEscape], which belong to the client library (gopkg.in/ldap.v2,
    filter.go) and are not among the connector's sources.  The spec asks
    for values escaped per the directory filter syntax (RFC 4515); the
    library does it this way: a byte is escaped when it is above 0x7f,
    one of the four filter characters, or NUL, and an escaped byte
    becomes a backslash and its two lower-case hexadecimal digits.  The
    library counts the bytes to escape first and fills a buffer in a
    second pass; the result is the byte-by-byte expansion below. *)

Definition mustEscape (c : ascii) : bool :=
  (0x7f <? byte_of c)%N
  || (c =? "(")%char || (c =? ")")%char || (c =? "\")%char
  || (c =? "*")%char || (byte_of c =? 0)%N.

Definition hexChars : string := "0123456789abcdef".

Definition hexChar (n : N) : ascii :=
  match String.get (N.to_nat n) hexChars with
  | Some h => h
  | None => "0"%char
  end.

Fixpoint EscapeFilter (filter : string) : string :=
  match filter with
  | EmptyString => EmptyString
  | String c rest =>
      if mustEscape c then
        String "\"%char
          (String (hexChar (N.shiftr (byte_of c) 4))
             (String (hexChar (N.land (byte_of c) 0xf))
                (EscapeFilter rest)))
      else String c (EscapeFilter rest)
  end.

End ldap.

(** ** The host's data (package connector)

    Modelled from the spec: the declarations of [connector.Identity] and
    [connector.Scopes], which live in the host package.  The spec's data
    model lists the identity's fields (user identifier, email, display name,
    group names, opaque connector state) and the two booleans of a scope
    request. *)

Module connector.

Record Identity : Type := mkIdentity {
  UserID : string;
  Username : string;
  Email : string;
  Groups : list string;
  ConnectorData : string
}.

(** [connector.Identity{}] *)
Definition zeroIdentity : Identity := mkIdentity "" "" "" [] "".

Module Scopes.
Record t : Type := mk {
  OfflineAccess : bool;
  Groups : bool
}.
End Scopes.

End connector.

(** ** Configuration *)

Module UserSearch.
Record t : Type := mk {
  BaseDN : string;
  Filter : string;
  Username : string;
  Scope : string;
  IDAttr : string;
  EmailAttr : string;
  NameAttr : string
}.
End UserSearch.

Module GroupSearch.
Record t : Type := mk {
  BaseDN : string;
  Filter : string;
  Scope : string;
  UserAttr : string;
  GroupAttr : string;
  NameAttr : string
}.
End GroupSearch.

Record Config : Type := mkConfig {
  Host : string;
  InsecureNoSSL : bool;
  InsecureSkipVerify : bool;
  RootCA : string;
  RootCAData : string;
  BindDN : string;
  BindPW : string;
  userSearch : UserSearch.t;      (* UserSearch *)
  groupSearch : GroupSearch.t     (* GroupSearch *)
}.

Module tls.
(** The fields of [tls.Config] the connector sets.  The certificate pool
    is kept as the PEM data it was filled from ([None]: no pool set). *)
Record Config : Type := mk {
  ServerName : string;
  InsecureSkipVerify : bool;
  RootCAs : option string
}.
End tls.

Record ldapConnector : Type := mkLdapConnector {
  config : Config;
  userSearchScope : Z;
  groupSearchScope : Z;
  tlsConfig : tls.Config
}.

Record refreshData : Type := mkRefreshData {
  rdUsername : string;       (* Username, json:"username" *)
  rdEntry : ldap.Entry       (* Entry, json:"entry" *)
}.

(** ** ScopeResolver *)

Definition parseScope (s : string) : Z * bool :=
  if (s =? "") || (s =? "sub") then (ldap.ScopeWholeSubtree, true)
  else if s =? "one" then (ldap.ScopeSingleLevel, true)
  else (0%Z, false).

(** ** EntryAttributeReader *)

(** The loop of [getAttr]: the first attribute named [name] decides;
    [None] when the loop runs to its end. *)
Fixpoint getAttr_loop (attrs : list ldap.EntryAttribute) (name : string)
  : option string :=
  match attrs with
  | [] => None
  | a :: rest =>
      if negb (ldap.Name a =? name) then getAttr_loop rest name
      else match ldap.Values a with
           | [] => Some ""
           | v :: _ => Some v
           end
  end.

Definition getAttr (e : ldap.Entry) (name : string) : string :=
  match getAttr_loop (ldap.Attributes e) name with
  | Some v => v
  | None => if name =? "DN" then ldap.DN e else ""
  end.

(** ** IdentityMapper *)

Definition identityFromEntry (c : ldapConnector) (user : ldap.Entry)
  : connector.Identity * option error :=
  let us := userSearch (config c) in
  let missing : list string := [] in
  let userID := getAttr user (UserSearch.IDAttr us) in
  let missing :=
    if userID =? "" then (missing ++ [UserSearch.IDAttr us])%list else missing in
  let email := getAttr user (UserSearch.EmailAttr us) in
  let missing :=
    if email =? "" then (missing ++ [UserSearch.EmailAttr us])%list else missing in
  let '(username, missing) :=
    if negb (UserSearch.NameAttr us =? "") then
      let username := getAttr user (UserSearch.NameAttr us) in
      (username,
       if username =? "" then (missing ++ [UserSearch.NameAttr us])%list
       else missing)
    else ("", missing) in
  let ident := connector.mkIdentity userID username email [] "" in
  if negb (length missing =? 0)%nat then
    (connector.zeroIdentity,
     Some (Errorf
             "ldap: entry %q missing following required attribute(s): %q"
             [ArgString (ldap.DN user); ArgStrings missing]))
  else (ident, None).

(** ** FilterBuilder

    The two filters are built inside [userEntry] and [groups]
    ([fmt.Sprintf] with the formats "(%s=%s)" and "(&%s%s)"). *)

Definition userFilter (c : ldapConnector) (username : string) : string :=
  let us := userSearch (config c) in
  let filter :=
    "(" ++ UserSearch.Username us ++ "=" ++ ldap.EscapeFilter username ++ ")" in
  if negb (UserSearch.Filter us =? "") then
    "(&" ++ UserSearch.Filter us ++ filter ++ ")"
  else filter.

Definition groupFilter (c : ldapConnector) (user : ldap.Entry) : string :=
  let gs := groupSearch (config c) in
  let filter :=
    "(" ++ GroupSearch.GroupAttr gs ++ "="
        ++ ldap.EscapeFilter (getAttr user (GroupSearch.UserAttr gs)) ++ ")" in
  if negb (GroupSearch.Filter gs =? "") then
    "(&" ++ GroupSearch.Filter gs ++ filter ++ ")"
  else filter.

Definition userSearchRequest (c : ldapConnector) (username : string)
  : ldap.SearchRequest.t :=
  let us := userSearch (config c) in
  let attributes :=
    [UserSearch.IDAttr us; UserSearch.EmailAttr us;
     GroupSearch.UserAttr (groupSearch (config c))] in
  let attributes :=
    if negb (UserSearch.NameAttr us =? "") then
      (attributes ++ [UserSearch.NameAttr us])%list
    else attributes in
  ldap.SearchRequest.mk (UserSearch.BaseDN us) (userFilter c username)
    (userSearchScope c) attributes.

Definition groupSearchRequest (c : ldapConnector) (user : ldap.Entry)
  : ldap.SearchRequest.t :=
  let gs := groupSearch (config c) in
  ldap.SearchRequest.mk (GroupSearch.BaseDN gs) (groupFilter c user)
    (groupSearchScope c) [GroupSearch.NameAttr gs].

(** The loop of [groups] over the returned group entries. *)
Fixpoint groupNames_loop (c : ldapConnector) (groups : list ldap.Entry)
  (groupNames : list string) : list string * option error :=
  match groups with
  | [] => (groupNames, None)
  | group :: rest =>
      let name := getAttr group (GroupSearch.NameAttr (groupSearch (config c))) in
      if name =? "" then
        ([], Some (Errorf
                     "ldap: group entity %q missing required attribute %q"
                     [ArgString (ldap.DN group);
                      ArgString (GroupSearch.NameAttr (groupSearch (config c)))]))
      else groupNames_loop c rest (groupNames ++ [name])%list
  end.

(** ** RefreshStateCodec: the library side

    Modelled from the spec: the codec of the refresh state.  The connector
    encodes with [json.Marshal] and decodes with [json.Unmarshal] (Go's
    encoding/json).  Neither is among the connector's sources, which only
    fix the struct [refreshData] and its tags; the spec leaves the format
    open.  What follows writes down how the library treats a value of type
    [refreshData], after the library's own code (encode.go, decode.go and
    unicode/utf8): an object with the members username and entry, strings
    as JSON string literals in which every byte that is not valid UTF-8 is
    replaced by U+FFFD, nil slices as null.

    [ldap.EntryAttribute] also carries [ByteValues], a copy of [Values] as
    byte slices that the connector never reads; the entries here follow the
    spec's data model and leave it out, and so does the JSON text. *)

Module utf8.

Definition between (lo hi : N) (c : ascii) : bool :=
  (lo <=? byte_of c)%N && (byte_of c <=? hi)%N.

(** The size that [utf8.DecodeRuneInString] reports for the rune at the
    head of [s], with 0 for the answer (RuneError, 1): a byte that starts
    no well-formed sequence, or a sequence cut short.  The ranges of the
    second byte are those of the library's [acceptRanges]. *)
Definition runeLen (s : string) : nat :=
  match s with
  | EmptyString => 0
  | String c0 r0 =>
      if (byte_of c0 <? 0x80)%N then 1
      else if between 0xC2 0xDF c0 then
        match r0 with
        | String c1 _ => if between 0x80 0xBF c1 then 2 else 0
        | _ => 0
        end
      else if between 0xE0 0xEF c0 then
        match r0 with
        | String c1 (String c2 _) =>
            if between (if (byte_of c0 =? 0xE0)%N then 0xA0 else 0x80)
                       (if (byte_of c0 =? 0xED)%N then 0x9F else 0xBF) c1
               && between 0x80 0xBF c2
            then 3 else 0
        | _ => 0
        end
      else if between 0xF0 0xF4 c0 then
        match r0 with
        | String c1 (String c2 (String c3 _)) =>
            if between (if (byte_of c0 =? 0xF0)%N then 0x90 else 0x80)
                       (if (byte_of c0 =? 0xF4)%N then 0x8F else 0xBF) c1
               && between 0x80 0xBF c2 && between 0x80 0xBF c3
            then 4 else 0
        | _ => 0
        end
      else 0
  end.

(** [utf8.ValidString] *)
Fixpoint ValidString (s : string) : bool :=
  match s with
  | EmptyString => true
  | String _ r0 =>
      match runeLen s with
      | 1 => ValidString r0
      | 2 => match r0 with
             | String _ r1 => ValidString r1
             | _ => false
             end
      | 3 => match r0 with
             | String _ (String _ r2) => ValidString r2
             | _ => false
             end
      | 4 => match r0 with
             | String _ (String _ (String _ r3)) => ValidString r3
             | _ => false
             end
      | _ => false
      end
  end.

Definition byte (n : N) : ascii := ascii_of_N n.

(** [utf8.EncodeRune]: surrogates and values past U+10FFFF are written as
    U+FFFD. *)
Definition EncodeRune (r : N) : string :=
  if (r <? 0x80)%N then String (byte r) EmptyString
  else if (r <? 0x800)%N then
    String (byte (N.lor 0xC0 (N.shiftr r 6)))
      (String (byte (N.lor 0x80 (N.land r 0x3F))) EmptyString)
  else if ((0xD800 <=? r) && (r <=? 0xDFFF))%N || (0x10FFFF <? r)%N then
    String (byte 0xEF) (String (byte 0xBF) (String (byte 0xBD) EmptyString))
  else if (r <? 0x10000)%N then
    String (byte (N.lor 0xE0 (N.shiftr r 12)))
      (String (byte (N.lor 0x80 (N.land (N.shiftr r 6) 0x3F)))
         (String (byte (N.lor 0x80 (N.land r 0x3F))) EmptyString))
  else
    String (byte (N.lor 0xF0 (N.shiftr r 18)))
      (String (byte (N.lor 0x80 (N.land (N.shiftr r 12) 0x3F)))
         (String (byte (N.lor 0x80 (N.land (N.shiftr r 6) 0x3F)))
            (String (byte (N.lor 0x80 (N.land r 0x3F))) EmptyString))).

Definition RuneError : N := 0xFFFD.

End utf8.

Module json.

(** The double quote, byte 34. *)
Definition quote : ascii := ascii_of_nat 34.

Definition hex : string := "0123456789abcdef".

Definition hexDigit (n : N) : ascii :=
  match String.get (N.to_nat n) hex with
  | Some h => h
  | None => "0"%char
  end.

(** *** Encoding (encodeState.string with escapeHTML set, and the struct,
    slice and string encoders) *)

(** An ASCII byte that is written as it is. *)
Definition plain (c : ascii) : bool :=
  (0x20 <=? byte_of c)%N
  && negb (c =? "\")%char && negb (c =? quote)%char
  && negb (c =? "<")%char && negb (c =? ">")%char && negb (c =? "&")%char.

Definition escapeByte (c : ascii) : string :=
  if (c =? "\")%char || (c =? quote)%char then String "\" (String c "")
  else if (byte_of c =? 10)%N then "\n"
  else if (byte_of c =? 13)%N then "\r"
  else if (byte_of c =? 9)%N then "\t"
  else "\u00" ++ String (hexDigit (N.shiftr (byte_of c) 4))
                   (String (hexDigit (N.land (byte_of c) 0xF)) "").

(** U+2028 and U+2029 are E2 80 A8 and E2 80 A9. *)
Definition isLineSep (c0 c1 c2 : ascii) : bool :=
  (byte_of c0 =? 0xE2)%N && (byte_of c1 =? 0x80)%N
  && ((byte_of c2 =? 0xA8)%N || (byte_of c2 =? 0xA9)%N).

(** The six bytes written for a byte that is not valid UTF-8: the escape
    of U+FFFD. *)
Definition replacementEscape : string := "\u" ++ "fffd".

Fixpoint stringBody (s : string) : string :=
  match s with
  | EmptyString => EmptyString
  | String c r =>
      if (byte_of c <? 0x80)%N then
        if plain c then String c (stringBody r)
        else escapeByte c ++ stringBody r
      else
        match utf8.runeLen s, r with
        | 2, String c1 r1 => String c (String c1 (stringBody r1))
        | 3, String c1 (String c2 r2) =>
            if isLineSep c c1 c2 then
              "\u202" ++ String (hexDigit (N.land (byte_of c2) 0xF))
                           (stringBody r2)
            else String c (String c1 (String c2 (stringBody r2)))
        | 4, String c1 (String c2 (String c3 r3)) =>
            String c (String c1 (String c2 (String c3 (stringBody r3))))
        | _, _ => replacementEscape ++ stringBody r
        end
  end.

Definition encodeString (s : string) : string :=
  String quote (stringBody s ++ String quote "").

Fixpoint commaSep (l : list string) : string :=
  match l with
  | [] => ""
  | [x] => x
  | x :: rest => x ++ "," ++ commaSep rest
  end.

(** A nil slice is written [null]. *)
Definition encodeArray (l : list string) : string :=
  match l with
  | [] => "null"
  | _ => "[" ++ commaSep l ++ "]"
  end.

Definition key (name : string) : string :=
  String quote (name ++ String quote ":").

Definition encodeAttribute (a : ldap.EntryAttribute) : string :=
  "{" ++ key "Name" ++ encodeString (ldap.Name a)
      ++ "," ++ key "Values"
      ++ encodeArray (map encodeString (ldap.Values a)) ++ "}".

Definition encodeEntry (e : ldap.Entry) : string :=
  "{" ++ key "DN" ++ encodeString (ldap.DN e)
      ++ "," ++ key "Attributes"
      ++ encodeArray (map encodeAttribute (ldap.Attributes e)) ++ "}".

Definition Marshal (d : refreshData) : string + error :=
  inl ("{" ++ key "username" ++ encodeString (rdUsername d)
           ++ "," ++ key "entry" ++ encodeEntry (rdEntry d) ++ "}").

(** *** Decoding (unquote, and the object, array and literal decoders)

    [Unmarshal] reads the texts [Marshal] writes, with any JSON string
    literal where a string stands, and [null] or an array where a slice
    stands.  It refuses every other text, among them texts the library
    accepts (white space between tokens, members in another order,
    unknown members): on those it says nothing about the library. *)

Definition hexVal (c : ascii) : option N :=
  let b := byte_of c in
  if utf8.between 48 57 c then Some (b - 48)%N
  else if utf8.between 97 102 c then Some (b - 87)%N
  else if utf8.between 65 70 c then Some (b - 55)%N
  else None.

(** [getu4] on the four characters after a backslash and a u. *)
Definition getu4 (h1 h2 h3 h4 : ascii) : option N :=
  match hexVal h1, hexVal h2, hexVal h3, hexVal h4 with
  | Some a, Some b, Some c, Some d =>
      Some (a * 4096 + b * 256 + c * 16 + d)%N
  | _, _, _, _ => None
  end.

Definition isSurrogate (r : N) : bool := ((0xD800 <=? r) && (r <? 0xE000))%N.

(** [utf16.DecodeRune] *)
Definition decodeSurrogates (r1 r2 : N) : N :=
  if ((0xD800 <=? r1) && (r1 <? 0xDC00) && (0xDC00 <=? r2) && (r2 <? 0xE000))%N
  then ((r1 - 0xD800) * 1024 + (r2 - 0xDC00) + 0x10000)%N
  else utf8.RuneError.

Definition prepend (p : string) (r : option (string * string))
  : option (string * string) :=
  match r with
  | Some (v, rest) => Some (p ++ v, rest)
  | None => None
  end.

(** The inside of a string literal, up to its closing quote: the decoded
    bytes and the text after the quote.  A byte sequence that is valid
    UTF-8 is decoded and encoded again by the library, which copies it;
    a byte that is not becomes U+FFFD. *)
Fixpoint unquoteBody (s : string) : option (string * string) :=
  match s with
  | EmptyString => None
  | String c r =>
      if (c =? quote)%char then Some (EmptyString, r)
      else if (c =? "\")%char then
        match r with
        | EmptyString => None
        | String e r1 =>
            if (e =? quote)%char || (e =? "\")%char || (e =? "/")%char
               || (e =? "'")%char
            then prepend (String e "") (unquoteBody r1)
            else if (e =? "b")%char then
              prepend (String (utf8.byte 8) "") (unquoteBody r1)
            else if (e =? "f")%char then
              prepend (String (utf8.byte 12) "") (unquoteBody r1)
            else if (e =? "n")%char then
              prepend (String (utf8.byte 10) "") (unquoteBody r1)
            else if (e =? "r")%char then
              prepend (String (utf8.byte 13) "") (unquoteBody r1)
            else if (e =? "t")%char then
              prepend (String (utf8.byte 9) "") (unquoteBody r1)
            else if (e =? "u")%char then
              match r1 with
              | String h1 (String h2 (String h3 (String h4 r2))) =>
                  match getu4 h1 h2 h3 h4 with
                  | None => None
                  | Some rr =>
                      if isSurrogate rr then
                        match r2 with
                        | String b (String u (String k1 (String k2
                            (String k3 (String k4 r3))))) =>
                            match (if (b =? "\")%char && (u =? "u")%char
                                   then getu4 k1 k2 k3 k4 else None) with
                            | Some rr1 =>
                                if (decodeSurrogates rr rr1 =? utf8.RuneError)%N
                                then prepend (utf8.EncodeRune utf8.RuneError)
                                       (unquoteBody r2)
                                else prepend
                                       (utf8.EncodeRune (decodeSurrogates rr rr1))
                                       (unquoteBody r3)
                            | None =>
                                prepend (utf8.EncodeRune utf8.RuneError)
                                  (unquoteBody r2)
                            end
                        | _ =>
                            prepend (utf8.EncodeRune utf8.RuneError)
                              (unquoteBody r2)
                        end
                      else prepend (utf8.EncodeRune rr) (unquoteBody r2)
                  end
              | _ => None
              end
            else None
        end
      else if (byte_of c <? 0x20)%N then None
      else if (byte_of c <? 0x80)%N then prepend (String c "") (unquoteBody r)
      else
        match utf8.runeLen s, r with
        | 2, String c1 r1 =>
            prepend (String c (String c1 "")) (unquoteBody r1)
        | 3, String c1 (String c2 r2) =>
            prepend (String c (String c1 (String c2 ""))) (unquoteBody r2)
        | 4, String c1 (String c2 (String c3 r3)) =>
            prepend (String c (String c1 (String c2 (String c3 ""))))
              (unquoteBody r3)
        | _, _ => prepend (utf8.EncodeRune utf8.RuneError) (unquoteBody r)
        end
  end.

(** A string literal at the head of [s]. *)
Definition decodeString (s : string) : option (string * string) :=
  match s with
  | String q r => if (q =? quote)%char then unquoteBody r else None
  | EmptyString => None
  end.

(** [s] without its prefix [p], when it has it. *)
Fixpoint expect (p s : string) : option string :=
  match p, s with
  | EmptyString, _ => Some s
  | String a p', String b s' => if (a =? b)%char then expect p' s' else None
  | _, _ => None
  end.

(** The elements of an array after its opening bracket; [fuel] bounds
    their number. *)
Fixpoint elements {A : Type} (elem : string -> option (A * string))
  (fuel : nat) (s : string) : option (list A * string) :=
  match fuel with
  | O => None
  | S fuel =>
      match elem s with
      | None => None
      | Some (v, rest) =>
          match rest with
          | String d rest' =>
              if (d =? ",")%char then
                match elements elem fuel rest' with
                | Some (vs, out) => Some (v :: vs, out)
                | None => None
                end
              else if (d =? "]")%char then Some ([v], rest')
              else None
          | EmptyString => None
          end
      end
  end.

Definition decodeArray {A : Type} (elem : string -> option (A * string))
  (s : string) : option (list A * string) :=
  match expect "null" s with
  | Some rest => Some ([], rest)
  | None =>
      match expect "[]" s with
      | Some rest => Some ([], rest)
      | None =>
          match expect "[" s with
          | Some rest => elements elem (String.length rest) rest
          | None => None
          end
      end
  end.

Definition decodeAttribute (s : string)
  : option (ldap.EntryAttribute * string) :=
  match expect ("{" ++ key "Name") s with
  | None => None
  | Some s1 =>
      match decodeString s1 with
      | None => None
      | Some (name, s2) =>
          match expect ("," ++ key "Values") s2 with
          | None => None
          | Some s3 =>
              match decodeArray decodeString s3 with
              | None => None
              | Some (values, s4) =>
                  match expect "}" s4 with
                  | None => None
                  | Some s5 => Some (ldap.mkEntryAttribute name values, s5)
                  end
              end
          end
      end
  end.

Definition decodeEntry (s : string) : option (ldap.Entry * string) :=
  match expect ("{" ++ key "DN") s with
  | None => None
  | Some s1 =>
      match decodeString s1 with
      | None => None
      | Some (dn, s2) =>
          match expect ("," ++ key "Attributes") s2 with
          | None => None
          | Some s3 =>
              match decodeArray decodeAttribute s3 with
              | None => None
              | Some (attrs, s4) =>
                  match expect "}" s4 with
                  | None => None
                  | Some s5 => Some (ldap.mkEntry dn attrs, s5)
                  end
              end
          end
      end
  end.

Definition syntaxError : error := ForeignError "json: cannot decode".

Definition Unmarshal (data : string) : refreshData + error :=
  match expect ("{" ++ key "username") data with
  | None => inr syntaxError
  | Some s1 =>
      match decodeString s1 with
      | None => inr syntaxError
      | Some (username, s2) =>
          match expect ("," ++ key "entry") s2 with
          | None => inr syntaxError
          | Some s3 =>
              match decodeEntry s3 with
              | None => inr syntaxError
              | Some (entry, s4) =>
                  match expect "}" s4 with
                  | Some EmptyString => inl (mkRefreshData username entry)
                  | _ => inr syntaxError
                  end
              end
          end
      end
  end.

End json.

(** ** The outside world

    The connector talks to the directory through the client library and
    reads the trust material from the file system.  [Directory] is that
    narrow interface: what the outside answers is a function of a [world]
    that every call may change.  Each call is also recorded as an [Event],
    so that the order of the calls and the connection each one uses can be
    stated.  The codec of the refresh state is a member of the interface
    too: what is proved about [Login] and [Refresh] holds whatever the
    codec does, and [json.Marshal] and [json.Unmarshal] above are one
    instance of it. *)

Inductive Event (conn : Type) : Type :=
| EvReadFile (path : string)
| EvDial (useTLS : bool) (addr : string) (r : option conn)
| EvBind (cn : conn) (dn pw : string)
| EvSearch (cn : conn) (req : ldap.SearchRequest.t)
| EvClose (cn : conn).

Arguments EvReadFile {conn} path.
Arguments EvDial {conn} useTLS addr r.
Arguments EvBind {conn} cn dn pw.
Arguments EvSearch {conn} cn req.
Arguments EvClose {conn} cn.

Class Directory : Type := {
  world : Type;
  conn : Type;
  (* net.SplitHostPort: host and port, or an error *)
  net_SplitHostPort : string -> (string * string) + error;
  (* ioutil.ReadFile *)
  ioutil_ReadFile : string -> world -> (string + error) * world;
  (* CertPool.AppendCertsFromPEM of package x509, on a fresh pool *)
  x509_AppendCertsFromPEM : string -> bool;
  (* ldap.Dial "tcp" addr and ldap.DialTLS "tcp" addr cfg *)
  ldap_Dial : string -> world -> (conn + error) * world;
  ldap_DialTLS : string -> tls.Config -> world -> (conn + error) * world;
  (* the methods Bind, Search and Close of ldap.Conn *)
  conn_Bind : conn -> string -> string -> world -> option error * world;
  conn_Search :
    conn -> ldap.SearchRequest.t -> world -> (list ldap.Entry + error) * world;
  conn_Close : conn -> world -> world;
  (* json.Marshal and json.Unmarshal at type refreshData *)
  json_Marshal : refreshData -> string + error;
  json_Unmarshal : string -> refreshData + error
}.

Section Connector.

Context {D : Directory}.

(** A computation reads and changes the world and emits events. *)
Definition M (A : Type) : Type := world -> A * world * list (Event conn).

Definition ret {A} (a : A) : M A := fun w => (a, w, []).

Definition bind {A B} (m : M A) (f : A -> M B) : M B :=
  fun w =>
    let '(a, w1, t1) := m w in
    let '(b, w2, t2) := f a w1 in
    (b, w2, (t1 ++ t2)%list).

Definition value {A} (r : A * world * list (Event conn)) : A := fst (fst r).
Definition after {A} (r : A * world * list (Event conn)) : world :=
  snd (fst r).
Definition events {A} (r : A * world * list (Event conn))
  : list (Event conn) := snd r.

Notation "x <- m ;; k" := (bind m (fun x => k))
  (at level 61, m at next level, right associativity).
Notation "' p <- m ;; k" := (bind m (fun x => let 'p := x in k))
  (at level 61, p pattern, m at next level, right associativity).

Definition readFile (path : string) : M (string + error) :=
  fun w => let '(r, w') := ioutil_ReadFile path w in
           (r, w', [EvReadFile path]).

Definition dial (addr : string) : M (conn + error) :=
  fun w => let '(r, w') := ldap_Dial addr w in
           (r, w', [EvDial false addr
                      (match r with inl cn => Some cn | inr _ => None end)]).

Definition dialTLS (addr : string) (cfg : tls.Config) : M (conn + error) :=
  fun w => let '(r, w') := ldap_DialTLS addr cfg w in
           (r, w', [EvDial true addr
                      (match r with inl cn => Some cn | inr _ => None end)]).

Definition connBind (cn : conn) (dn pw : string) : M (option error) :=
  fun w => let '(r, w') := conn_Bind cn dn pw w in (r, w', [EvBind cn dn pw]).

Definition connSearch (cn : conn) (req : ldap.SearchRequest.t)
  : M (list ldap.Entry + error) :=
  fun w => let '(r, w') := conn_Search cn req w in (r, w', [EvSearch cn req]).

Definition connClose (cn : conn) : M unit :=
  fun w => (tt, conn_Close cn w, [EvClose cn]).

(** ** DirectorySession

    [do c f s0] dials, binds as the service account and runs [f] on the
    connection.  The Go closure [f] writes to variables of its caller;
    here it receives their values [s0] and returns the new ones next to
    its error.  [defer conn.Close()] runs when [do] returns, also when the
    bind failed. *)

Definition do {S : Type} (c : ldapConnector)
  (f : conn -> S -> M (S * option error)) (s0 : S) : M (S * option error) :=
  r <- (if InsecureNoSSL (config c) then dial (Host (config c))
        else dialTLS (Host (config c)) (tlsConfig c)) ;;
  match r with
  | inr err => ret (s0, Some (Errorf "failed to connect: %v" [ArgError err]))
  | inl cn =>
      res <- (berr <- connBind cn (BindDN (config c)) (BindPW (config c)) ;;
              match berr with
              | Some err =>
                  ret (s0,
                       Some (Errorf "ldap: initial bind for user %q failed: %v"
                               [ArgString (BindDN (config c)); ArgError err]))
              | None => f cn s0
              end) ;;
      _ <- connClose cn ;;
      ret res
  end.

Definition userEntry (c : ldapConnector) (cn : conn) (username : string)
  : M (ldap.Entry * bool * option error) :=
  let req := userSearchRequest c username in
  r <- connSearch cn req ;;
  match r with
  | inr err =>
      ret (ldap.zeroEntry, false,
           Some (Errorf "ldap: search with filter %q failed: %v"
                   [ArgString (ldap.SearchRequest.Filter req); ArgError err]))
  | inl entries =>
      match entries with
      | [] => ret (ldap.zeroEntry, false, None)
      | [e] => ret (e, true, None)
      | _ =>
          ret (ldap.zeroEntry, false,
               Some (Errorf "ldap: filter returned multiple (%d) results: %q"
                       [ArgInt (Z.of_nat (length entries));
                        ArgString (userFilter c username)]))
      end
  end.

Definition groups (c : ldapConnector) (user : ldap.Entry)
  : M (list string * option error) :=
  let req := groupSearchRequest c user in
  '(grps, err) <-
    do c (fun cn (grps : list ldap.Entry) =>
            r <- connSearch cn req ;;
            match r with
            | inr err =>
                ret (grps,
                     Some (Errorf "ldap: search failed: %v" [ArgError err]))
            | inl entries => ret (entries, None)
            end) [] ;;
  match err with
  | Some e => ret ([], Some e)
  | None => ret (groupNames_loop c grps [])
  end.

Definition withGroups (i : connector.Identity) (g : list string)
  : connector.Identity :=
  connector.mkIdentity (connector.UserID i) (connector.Username i)
    (connector.Email i) g (connector.ConnectorData i).

Definition withConnectorData (i : connector.Identity) (d : string)
  : connector.Identity :=
  connector.mkIdentity (connector.UserID i) (connector.Username i)
    (connector.Email i) (connector.Groups i) d.

Definition isInvalidCredentials (err : error) : bool :=
  match err with
  | LdapError code _ => (code =? ldap.LDAPResultInvalidCredentials)%Z
  | _ => false
  end.

(** ** AuthConnector: Login

    The closure passed to [do] writes [incorrectPass] and [user]; they
    are the pair it threads. *)

Definition Login_closure (c : ldapConnector) (username password : string)
  (cn : conn) (st : bool * ldap.Entry) : M (bool * ldap.Entry * option error) :=
  let '(incorrectPass, user) := st in
  '(entry, found, err) <- userEntry c cn username ;;
  match err with
  | Some e => ret (incorrectPass, user, Some e)
  | None =>
      if negb found then ret (true, user, None)
      else
        let user := entry in
        berr <- connBind cn (ldap.DN user) password ;;
        match berr with
        | Some err =>
            if isInvalidCredentials err then ret (true, user, None)
            else ret (incorrectPass, user,
                      Some (Errorf "ldap: failed to bind as dn %q: %v"
                              [ArgString (ldap.DN user); ArgError err]))
        | None => ret (incorrectPass, user, None)
        end
  end.

Definition Login (c : ldapConnector) (s : connector.Scopes.t)
  (username password : string)
  : M (connector.Identity * bool * option error) :=
  '(incorrectPass, user, err) <-
    do c (Login_closure c username password) (false, ldap.zeroEntry) ;;
  match err with
  | Some e => ret (connector.zeroIdentity, false, Some e)
  | None =>
      if (incorrectPass : bool) then ret (connector.zeroIdentity, false, None)
      else
        match identityFromEntry c user with
        | (_, Some e) => ret (connector.zeroIdentity, false, Some e)
        | (ident, None) =>
            r <- (if connector.Scopes.Groups s then
                    '(grps, gerr) <- groups c user ;;
                    match gerr with
                    | Some e =>
                        ret (inr (Errorf "ldap: failed to query groups: %v"
                                    [ArgError e]))
                    | None => ret (inl (withGroups ident grps))
                    end
                  else ret (inl ident)) ;;
            match r with
            | inr e => ret (connector.zeroIdentity, false, Some e)
            | inl ident =>
                if connector.Scopes.OfflineAccess s then
                  let refresh := mkRefreshData username user in
                  match json_Marshal refresh with
                  | inr e =>
                      ret (connector.zeroIdentity, false,
                           Some (Errorf "ldap: marshal entry: %v" [ArgError e]))
                  | inl data => ret (withConnectorData ident data, true, None)
                  end
                else ret (ident, true, None)
            end
        end
  end.

(** ** AuthConnector: Refresh *)

Definition Refresh_closure (c : ldapConnector) (data : refreshData)
  (cn : conn) (user : ldap.Entry) : M (ldap.Entry * option error) :=
  '(entry, found, err) <- userEntry c cn (rdUsername data) ;;
  match err with
  | Some e => ret (user, Some e)
  | None =>
      if negb found then
        ret (user, Some (Errorf "ldap: user not found %q"
                           [ArgString (rdUsername data)]))
      else ret (entry, None)
  end.

Definition Refresh (c : ldapConnector) (s : connector.Scopes.t)
  (ident : connector.Identity) : M (connector.Identity * option error) :=
  match json_Unmarshal (connector.ConnectorData ident) with
  | inr e =>
      ret (ident,
           Some (Errorf "ldap: failed to unamrshal internal data: %v"
                   [ArgError e]))
  | inl data =>
      '(user, err) <- do c (Refresh_closure c data) ldap.zeroEntry ;;
      match err with
      | Some e => ret (ident, Some e)
      | None =>
          if negb (ldap.DN user =? ldap.DN (rdEntry data)) then
            ret (ident,
                 Some (Errorf
                         "ldap: refresh for username %q expected DN %q got %q"
                         [ArgString (rdUsername data);
                          ArgString (ldap.DN (rdEntry data));
                          ArgString (ldap.DN user)]))
          else
            match identityFromEntry c user with
            | (_, Some e) => ret (ident, Some e)
            | (newIdent, None) =>
                let newIdent :=
                  withConnectorData newIdent (connector.ConnectorData ident) in
                if connector.Scopes.Groups s then
                  '(grps, gerr) <- groups c user ;;
                  match gerr with
                  | Some e =>
                      ret (connector.zeroIdentity,
                           Some (Errorf "ldap: failed to query groups: %v"
                                   [ArgError e]))
                  | None => ret (withGroups newIdent grps, None)
                  end
                else ret (newIdent, None)
            end
      end
  end.

(** ** Connector construction *)

Definition withHost (c : Config) (h : string) : Config :=
  mkConfig h (InsecureNoSSL c) (InsecureSkipVerify c) (RootCA c)
    (RootCAData c) (BindDN c) (BindPW c) (userSearch c) (groupSearch c).

(** The loop over [requiredFields]: the name of the first empty one. *)
Fixpoint firstMissingField (fields : list (string * string)) : option string :=
  match fields with
  | [] => None
  | (name, val) :: rest =>
      if val =? "" then Some name else firstMissingField rest
  end.

(** [OpenConnector] writes the port into the [Config] it is called on;
    the first component of the result is that [Config] afterwards. *)
Definition OpenConnector (c : Config)
  : M (Config * option ldapConnector * option error) :=
  let requiredFields :=
    [("host", Host c);
     ("userSearch.baseDN", UserSearch.BaseDN (userSearch c));
     ("userSearch.username", UserSearch.Username (userSearch c))] in
  match firstMissingField requiredFields with
  | Some name =>
      ret (c, None,
           Some (Errorf "ldap: missing required field %q" [ArgString name]))
  | None =>
      let '(host, c) :=
        match net_SplitHostPort (Host c) with
        | inl (host, _) => (host, c)
        | inr _ =>
            (Host c,
             if InsecureNoSSL c then withHost c (Host c ++ ":389")
             else withHost c (Host c ++ ":636"))
        end in
      let tlsConfig := tls.mk host (InsecureSkipVerify c) None in
      r <- (if negb (RootCA c =? "")
               || negb (String.length (RootCAData c) =? 0)%nat then
              let data := RootCAData c in
              d <- (if (String.length data =? 0)%nat then
                      rd <- readFile (RootCA c) ;;
                      match rd with
                      | inr err =>
                          ret (inr (Errorf "ldap: read ca file: %v"
                                      [ArgError err]))
                      | inl data => ret (inl data)
                      end
                    else ret (inl data)) ;;
              match d with
              | inr e => ret (inr e)
              | inl data =>
                  if negb (x509_AppendCertsFromPEM data) then
                    ret (inr (Errorf "ldap: no certs found in ca file" []))
                  else
                    ret (inl (tls.mk (tls.ServerName tlsConfig)
                                (tls.InsecureSkipVerify tlsConfig)
                                (Some data)))
              end
            else ret (inl tlsConfig)) ;;
      match r with
      | inr e => ret (c, None, Some e)
      | inl tlsConfig =>
          let '(userSearchScope, ok) :=
            parseScope (UserSearch.Scope (userSearch c)) in
          if negb ok then
            ret (c, None,
                 Some (Errorf "userSearch.Scope unknown value %q"
                         [ArgString (UserSearch.Scope (userSearch c))]))
          else
            let '(groupSearchScope, ok) :=
              parseScope (GroupSearch.Scope (groupSearch c)) in
            if negb ok then
              ret (c, None,
                   Some (Errorf "userSearch.Scope unknown value %q"
                           [ArgString (GroupSearch.Scope (groupSearch c))]))
            else
              ret (c,
                   Some (mkLdapConnector c userSearchScope groupSearchScope
                           tlsConfig),
                   None)
      end
  end.

(** [Open] is [OpenConnector] seen through the host's interface. *)
Definition Open (c : Config)
  : M (Config * option ldapConnector * option error) :=
  '(c', conn, err) <- OpenConnector c ;;
  match err with
  | Some e => ret (c', None, Some e)
  | None => ret (c', conn, None)
  end.

End Connector.

(** ** A scripted directory

    An instance of [Directory] whose answers are read off tables: which
    pairs of DN and password bind (and with which error the others fail),
    which entries a search returns, which files exist.  Connections are
    numbered in the order they are dialled. *)

Module Scripted.

Record World : Type := mkWorld {
  dialled : nat;
  closed : list nat;
  reachable : bool;
  binds : list (string * string * option error);
  searchFault : option error;
  entries : list (string * string * list ldap.Entry);
  files : list (string * string)
}.

Definition invalidCredentials : error :=
  LdapError ldap.LDAPResultInvalidCredentials "Invalid Credentials".

Fixpoint lookupBind (tbl : list (string * string * option error))
  (dn pw : string) : option error :=
  match tbl with
  | [] => Some invalidCredentials
  | (dn', pw', r) :: rest =>
      if (dn' =? dn) && (pw' =? pw) then r else lookupBind rest dn pw
  end.

Fixpoint lookupEntries (tbl : list (string * string * list ldap.Entry))
  (base filter : string) : list ldap.Entry :=
  match tbl with
  | [] => []
  | (base', filter', es) :: rest =>
      if (base' =? base) && (filter' =? filter) then es
      else lookupEntries rest base filter
  end.

Fixpoint lookupFile (tbl : list (string * string)) (path : string)
  : string + error :=
  match tbl with
  | [] => inr (ForeignError "no such file or directory")
  | (p, data) :: rest => if p =? path then inl data else lookupFile rest path
  end.

(** The world after one more connection was opened. *)
Definition connected (w : World) : World :=
  mkWorld (S (dialled w)) (closed w) (reachable w) (binds w)
    (searchFault w) (entries w) (files w).

Definition answerDial (w : World) : (nat + error) * World :=
  if reachable w then (inl (dialled w), connected w)
  else (inr (ForeignError "connection refused"), w).

Definition answerSearch (req : ldap.SearchRequest.t) (w : World)
  : (list ldap.Entry + error) * World :=
  match searchFault w with
  | Some e => (inr e, w)
  | None =>
      (inl (lookupEntries (entries w) (ldap.SearchRequest.BaseDN req)
              (ldap.SearchRequest.Filter req)), w)
  end.

Definition answerClose (cn : nat) (w : World) : World :=
  mkWorld (dialled w) (cn :: closed w) (reachable w) (binds w)
    (searchFault w) (entries w) (files w).

(** The host part and the port of an address with a colon in it. *)
Fixpoint splitAtColon (s : string) : option (string * string) :=
  match s with
  | EmptyString => None
  | String c rest =>
      match splitAtColon rest with
      | Some (h, p) => Some (String c h, p)
      | None => if (c =? ":")%char then Some (EmptyString, rest) else None
      end
  end.

Definition splitHostPort (s : string) : (string * string) + error :=
  match splitAtColon s with
  | Some hp => inl hp
  | None => inr (ForeignError "missing port in address")
  end.

Definition directory : Directory := {|
  world := World;
  conn := nat;
  net_SplitHostPort := splitHostPort;
  ioutil_ReadFile := fun path w => (lookupFile (files w) path, w);
  x509_AppendCertsFromPEM :=
    fun data => String.prefix "-----BEGIN CERTIFICATE-----" data;
  ldap_Dial := fun _ w => answerDial w;
  ldap_DialTLS := fun _ _ w => answerDial w;
  conn_Bind := fun _ dn pw w => (lookupBind (binds w) dn pw, w);
  conn_Search := fun _ req w => answerSearch req w;
  conn_Close := answerClose;
  json_Marshal := json.Marshal;
  json_Unmarshal := json.Unmarshal
|}.

(** The configuration of the example in the documentation of [Config],
    and a directory for it: a service account, the user jane who is in
    two groups, a user whose bind the server refuses for another reason,
    and a user name that two entries match. *)

Definition usersDN : string := "cn=users,dc=example,dc=com".
Definition groupsDN : string := "cn=groups,dc=example,dc=com".
Definition serviceDN : string := "uid=seviceaccount,cn=users,dc=example,dc=com".

Definition configWithScopes (userScope groupScope : string) : Config :=
  mkConfig "ldap.example.com:636" false false "/etc/dex/ldap.ca" ""
    serviceDN "password"
    (UserSearch.mk usersDN "(objectClass=person)" "uid" userScope
       "uid" "mail" "name")
    (GroupSearch.mk groupsDN "(objectClass=group)" groupScope
       "uid" "member" "name").

Definition exampleConfig : Config := configWithScopes "sub" "".

Definition exampleConnector : ldapConnector :=
  mkLdapConnector exampleConfig ldap.ScopeWholeSubtree ldap.ScopeWholeSubtree
    (tls.mk "ldap.example.com" false
       (Some "-----BEGIN CERTIFICATE-----")).

Definition person (uid mail name : string) : ldap.Entry :=
  ldap.mkEntry ("uid=" ++ uid ++ "," ++ usersDN)
    [ldap.mkEntryAttribute "uid" [uid];
     ldap.mkEntryAttribute "mail" [mail];
     ldap.mkEntryAttribute "name" [name]].

Definition group (cn : string) (members : list string) : ldap.Entry :=
  ldap.mkEntry ("cn=" ++ cn ++ "," ++ groupsDN)
    [ldap.mkEntryAttribute "name" [cn];
     ldap.mkEntryAttribute "member" members].

Definition jane : ldap.Entry := person "jane" "janedoe@example.com" "Jane Doe".

(** An entry with neither email nor name. *)
Definition joe : ldap.Entry :=
  ldap.mkEntry ("uid=joe," ++ usersDN) [ldap.mkEntryAttribute "uid" ["joe"]].

Definition john : ldap.Entry := person "john" "johndoe@example.com" "John Doe".

(** The directory, with the group entries that a search for the groups of
    jane returns. *)
Definition worldWithGroups (janeGroups : list ldap.Entry) : World :=
  mkWorld 0 [] true
    [(serviceDN, "password", None);
     (ldap.DN jane, "foo", None);
     (ldap.DN john, "bar",
      Some (LdapError 53 "Unwilling To Perform"))]
    None
    [(usersDN, "(&(objectClass=person)(uid=jane))", [jane]);
     (usersDN, "(&(objectClass=person)(uid=john))", [john]);
     (usersDN, "(&(objectClass=person)(uid=j\2a))", [jane; john]);
     (groupsDN, "(&(objectClass=group)(member=jane))", janeGroups)]
    [("/etc/dex/ldap.ca", "-----BEGIN CERTIFICATE-----")].

Definition exampleWorld : World :=
  worldWithGroups [group "admins" ["jane"]; group "developers" ["jane"; "john"]].

(** A group entry without the name attribute. *)
Definition unnamedGroup : ldap.Entry :=
  ldap.mkEntry ("cn=broken," ++ groupsDN) [ldap.mkEntryAttribute "member" ["jane"]].

(** Identities as a host hands them to [Refresh]: the opaque state is the
    encoding of a user name and a cached entry. *)
Definition stateOf (d : refreshData) : string :=
  match json.Marshal d with
  | inl b => b
  | inr _ => ""
  end.

Definition janeIdentity (cached : ldap.Entry) : connector.Identity :=
  connector.mkIdentity "jane" "Jane Doe" "janedoe@example.com" ["admins"]
    (stateOf (mkRefreshData "jane" cached)).

Definition nobodyIdentity : connector.Identity :=
  connector.mkIdentity "nobody" "" "nobody@example.com" []
    (stateOf (mkRefreshData "nobody" ldap.zeroEntry)).

Definition corruptIdentity : connector.Identity :=
  connector.mkIdentity "jane" "Jane Doe" "janedoe@example.com" ["admins"]
    "not a state".

End Scripted.

(** ** Vocabulary of the statements *)

Section Statements.

Context {D : Directory}.

(** The dial of [do]: plain or TLS, as the configuration says. *)
Definition dialAnswer (c : ldapConnector) (w : world)
  : (conn + error) * world :=
  if InsecureNoSSL (config c) then ldap_Dial (Host (config c)) w
  else ldap_DialTLS (Host (config c)) (tlsConfig c) w.

(** From world [w], a session of [do] opens: the dial gives connection
    [cn] and the service-account bind on it succeeds, leaving world
    [w2]. *)
Definition sessionOpens (c : ldapConnector) (w : world) (cn : conn)
  (w2 : world) : Prop :=
  exists w1,
    dialAnswer c w = (inl cn, w1)
    /\ conn_Bind cn (BindDN (config c)) (BindPW (config c)) w1 = (None, w2).

(** From world [w], the user lookup of [Login] and [Refresh] gets as far
    as the directory's answer to the search: the entries [es]. *)
Definition lookupAnswers (c : ldapConnector) (username : string) (w : world)
  (cn : conn) (es : list ldap.Entry) (w3 : world) : Prop :=
  exists w2,
    sessionOpens c w cn w2
    /\ conn_Search cn (userSearchRequest c username) w2 = (inl es, w3).

(** The events of a session: the dial, the service-account bind, and the
    bind with an end user's credentials. *)
Definition dialEvent (c : ldapConnector) (r : option conn) : Event conn :=
  EvDial (negb (InsecureNoSSL (config c))) (Host (config c)) r.

Definition serviceBind (c : ldapConnector) (cn : conn) : Event conn :=
  EvBind cn (BindDN (config c)) (BindPW (config c)).

Definition userBind (cn : conn) (e : ldap.Entry) (password : string)
  : Event conn := EvBind cn (ldap.DN e) password.

Definition isNetworkEvent (ev : Event conn) : bool :=
  match ev with
  | EvReadFile _ => false
  | _ => true
  end.

(** In a run with events [t], no connection carries both the
    service-account bind and the bind with the end user's credentials. *)
Definition bindsOnSeparateConnections (c : ldapConnector) (e : ldap.Entry)
  (password : string) (t : list (Event conn)) : Prop :=
  forall cn1 cn2,
    In (serviceBind c cn1) t -> In (userBind cn2 e password) t -> cn1 <> cn2.

End Statements.

(** The attributes an identity needs: id and email, and the name when one
    is configured. *)
Definition requiredAttrs (c : ldapConnector) : list string :=
  let us := userSearch (config c) in
  [UserSearch.IDAttr us; UserSearch.EmailAttr us]
  ++ (if UserSearch.NameAttr us =? "" then [] else [UserSearch.NameAttr us])%list.

Definition validScope (s : string) : Prop := s = "" \/ s = "sub" \/ s = "one".

(** The required attributes that resolve to empty on an entry, in the
    order [identityFromEntry] looks at them. *)
Definition missingAttrs (c : ldapConnector) (user : ldap.Entry) : list string :=
  filter (fun a => getAttr user a =? "") (requiredAttrs c).

(** The identity read off an entry: id, name (when configured) and email. *)
Definition mappedIdentity (c : ldapConnector) (user : ldap.Entry)
  : connector.Identity :=
  let us := userSearch (config c) in
  connector.mkIdentity (getAttr user (UserSearch.IDAttr us))
    (if UserSearch.NameAttr us =? "" then ""
     else getAttr user (UserSearch.NameAttr us))
    (getAttr user (UserSearch.EmailAttr us)) [] "".

Definition incompleteEntry (user : ldap.Entry) (missing : list string) : error :=
  Errorf "ldap: entry %q missing following required attribute(s): %q"
    [ArgString (ldap.DN user); ArgStrings missing].

Definition userNotFound (username : string) : error :=
  Errorf "ldap: user not found %q" [ArgString username].

Definition identityChanged (data : refreshData) (user : ldap.Entry) : error :=
  Errorf "ldap: refresh for username %q expected DN %q got %q"
    [ArgString (rdUsername data); ArgString (ldap.DN (rdEntry data));
     ArgString (ldap.DN user)].

Definition groupsFailed (e : error) : error :=
  Errorf "ldap: failed to query groups: %v" [ArgError e].

Definition stateCorrupt (e : error) : error :=
  Errorf "ldap: failed to unamrshal internal data: %v" [ArgError e].

Definition groupName (c : ldapConnector) (g : ldap.Entry) : string :=
  getAttr g (GroupSearch.NameAttr (groupSearch (config c))).

Definition missingGroupName (c : ldapConnector) (g : ldap.Entry) : error :=
  Errorf "ldap: group entity %q missing required attribute %q"
    [ArgString (ldap.DN g);
     ArgString (GroupSearch.NameAttr (groupSearch (config c)))].

(** The errors a session of [Refresh] can end with. *)
Inductive lookupError : error -> Prop :=
| LeConnect e : lookupError (Errorf "failed to connect: %v" [ArgError e])
| LeBind dn e :
    lookupError (Errorf "ldap: initial bind for user %q failed: %v"
                   [ArgString dn; ArgError e])
| LeSearch f e :
    lookupError (Errorf "ldap: search with filter %q failed: %v"
                   [ArgString f; ArgError e])
| LeMultiple n f :
    lookupError (Errorf "ldap: filter returned multiple (%d) results: %q"
                   [ArgInt n; ArgString f])
| LeNotFound u : lookupError (userNotFound u).

Section RefreshOutcome.

Context {D : Directory}.

(** What [Refresh] does once its lookup found the entry [e]. *)
Definition Refresh_found (c : ldapConnector) (s : connector.Scopes.t)
  (ident : connector.Identity) (data : refreshData) (e : ldap.Entry)
  (w' : world) : connector.Identity * option error :=
  if negb (ldap.DN e =? ldap.DN (rdEntry data)) then
    (ident, Some (identityChanged data e))
  else
    match identityFromEntry c e with
    | (_, Some err) => (ident, Some err)
    | (newIdent, None) =>
        let newIdent :=
          withConnectorData newIdent (connector.ConnectorData ident) in
        if connector.Scopes.Groups s then
          match value (groups c e w') with
          | (_, Some ge) => (connector.zeroIdentity, Some (groupsFailed ge))
          | (grps, None) => (withGroups newIdent grps, None)
          end
        else (newIdent, None)
    end.

End RefreshOutcome.

(** ** The directory's reading of a filter value

    The spec asks that a value be escaped per the directory filter syntax
    (RFC 4515), so that it matches only literally.  [assertionValue.decode]
    is that syntax read from the server's side. *)

Module assertionValue.

(** The characters that are syntax inside a filter and may not stand for
    themselves in a value. *)
Definition special (c : ascii) : bool :=
  (c =? "(")%char || (c =? ")")%char || (c =? "*")%char || (byte_of c =? 0)%N.

Definition hexValue (c : ascii) : option N :=
  if utf8.between 48 57 c then Some (byte_of c - 48)%N
  else if utf8.between 97 102 c then Some (byte_of c - 87)%N
  else if utf8.between 65 70 c then Some (byte_of c - 55)%N
  else None.

(** The bytes a directory server reads out of the value of an equality
    filter: a backslash and two hexadecimal digits stand for one byte, every
    other character for itself; [None] when a special character stands
    unescaped or an escape is malformed. *)
Fixpoint decode (s : string) : option string :=
  match s with
  | EmptyString => Some EmptyString
  | String c r =>
      if (c =? "\")%char then
        match r with
        | String h1 (String h2 r') =>
            match hexValue h1, hexValue h2, decode r' with
            | Some a, Some b, Some v => Some (String (ascii_of_N (16 * a + b)) v)
            | _, _, _ => None
            end
        | _ => None
        end
      else if special c then None
      else match decode r with
           | Some v => Some (String c v)
           | None => None
           end
  end.

(** No character of [s] is syntax: no parenthesis, asterisk or NUL. *)
Fixpoint inert (s : string) : bool :=
  match s with
  | EmptyString => true
  | String c r => negb (special c) && inert r
  end.

End assertionValue.

(** ** Vocabulary of the codec statements *)

(** The strings of a refresh state are valid UTF-8. *)
Definition validAttribute (a : ldap.EntryAttribute) : bool :=
  utf8.ValidString (ldap.Name a) && forallb utf8.ValidString (ldap.Values a).

Definition validEntry (e : ldap.Entry) : bool :=
  utf8.ValidString (ldap.DN e) && forallb validAttribute (ldap.Attributes e).

Definition validState (d : refreshData) : bool :=
  utf8.ValidString (rdUsername d) && validEntry (rdEntry d).

(** Encoding the state and decoding the bytes gives the state back. *)
Definition roundTrips (d : refreshData) : Prop :=
  exists b, json.Marshal d = inl b /\ json.Unmarshal b = inl d.

(** A user name of one byte that is not valid UTF-8. *)
Definition byteFF : string := String (ascii_of_nat 255) "".

(** What a string is after the codec: every byte that starts no
    well-formed UTF-8 sequence is replaced by the three bytes of U+FFFD. *)
Fixpoint coerceUTF8 (s : string) : string :=
  match s with
  | EmptyString => EmptyString
  | String c r =>
      match utf8.runeLen s, r with
      | 1, _ => String c (coerceUTF8 r)
      | 2, String c1 r1 => String c (String c1 (coerceUTF8 r1))
      | 3, String c1 (String c2 r2) =>
          String c (String c1 (String c2 (coerceUTF8 r2)))
      | 4, String c1 (String c2 (String c3 r3)) =>
          String c (String c1 (String c2 (String c3 (coerceUTF8 r3))))
      | _, _ => utf8.EncodeRune utf8.RuneError ++ coerceUTF8 r
      end
  end.

Definition coerceAttribute (a : ldap.EntryAttribute) : ldap.EntryAttribute :=
  ldap.mkEntryAttribute (coerceUTF8 (ldap.Name a))
    (map coerceUTF8 (ldap.Values a)).

Definition coerceEntry (e : ldap.Entry) : ldap.Entry :=
  ldap.mkEntry (coerceUTF8 (ldap.DN e)) (map coerceAttribute (ldap.Attributes e)).

Definition coerceState (d : refreshData) : refreshData :=
  mkRefreshData (coerceUTF8 (rdUsername d)) (coerceEntry (rdEntry d)).

(** ** Vocabulary of the construction statements *)

Definition missingRequiredField (name : string) : error :=
  Errorf "ldap: missing required field %q" [ArgString name].

Definition caUnreadable (err : error) : error :=
  Errorf "ldap: read ca file: %v" [ArgError err].

Definition caWithoutCerts : error := Errorf "ldap: no certs found in ca file" [].

(** The error for a scope string that [parseScope] does not know.  Both
    checks of [OpenConnector] use the same format. *)
Definition unknownScope (s : string) : error :=
  Errorf "userSearch.Scope unknown value %q" [ArgString s].

(** The three required fields of a configuration are set. *)
Definition requiredFieldsSet (c : Config) : Prop :=
  Host c <> ""
  /\ UserSearch.BaseDN (userSearch c) <> ""
  /\ UserSearch.Username (userSearch c) <> "".

(** The port that [OpenConnector] adds to a host without one. *)
Definition defaultPort (c : Config) : string :=
  if InsecureNoSSL c then ":389" else ":636".

(** The search scope that a valid scope string stands for. *)
Definition scopeOf (s : string) : Z :=
  if s =? "one" then ldap.ScopeSingleLevel else ldap.ScopeWholeSubtree.

(** The errors of [OpenConnector]. *)
Inductive constructionError (c : Config) : error -> Prop :=
| CeMissingField name :
    In name ["host"; "userSearch.baseDN"; "userSearch.username"] ->
    constructionError c (missingRequiredField name)
| CeUnreadable err : constructionError c (caUnreadable err)
| CeWithoutCerts : constructionError c caWithoutCerts
| CeUserScope :
    ~ validScope (UserSearch.Scope (userSearch c)) ->
    constructionError c (unknownScope (UserSearch.Scope (userSearch c)))
| CeGroupScope :
    validScope (UserSearch.Scope (userSearch c)) ->
    ~ validScope (GroupSearch.Scope (groupSearch c)) ->
    constructionError c (unknownScope (GroupSearch.Scope (groupSearch c))).

Section Construction.

Context {D : Directory}.

(** The host name and the configuration that [OpenConnector] goes on with
    after looking for a port. *)
Definition serverName (c : Config) : string :=
  match net_SplitHostPort (Host c) with
  | inl (h, _) => h
  | inr _ => Host c
  end.

Definition withPort (c : Config) : Config :=
  match net_SplitHostPort (Host c) with
  | inl _ => c
  | inr _ => withHost c (Host c ++ defaultPort c)
  end.

(** Where the certificate pool of a connector comes from: nothing is
    configured; the inline data; or the file, read in world [w]. *)
Definition poolFrom (c : Config) (w : world) (pool : option string) : Prop :=
  (RootCA c = "" /\ RootCAData c = "" /\ pool = None)
  \/ (RootCAData c <> "" /\ pool = Some (RootCAData c)
      /\ x509_AppendCertsFromPEM (RootCAData c) = true)
  \/ (RootCAData c = "" /\ RootCA c <> ""
      /\ exists data w1,
          ioutil_ReadFile (RootCA c) w = (inl data, w1)
          /\ pool = Some data /\ x509_AppendCertsFromPEM data = true).

End Construction.

(** ** Vocabulary of the session statements *)

Definition connectFailed (err : error) : error :=
  Errorf "failed to connect: %v" [ArgError err].

Definition serviceBindFailed (c : ldapConnector) (err : error) : error :=
  Errorf "ldap: initial bind for user %q failed: %v"
    [ArgString (BindDN (config c)); ArgError err].

Definition groupSearchFailed (err : error) : error :=
  Errorf "ldap: search failed: %v" [ArgError err].

Definition marshalFailed (e : error) : error :=
  Errorf "ldap: marshal entry: %v" [ArgError e].

Section SessionShapes.

Context {D : Directory}.

(** An operation on connection [cn]: a bind or a search. *)
Definition usesConnection (cn : conn) (ev : Event conn) : Prop :=
  match ev with
  | EvBind cn' _ _ => cn' = cn
  | EvSearch cn' _ => cn' = cn
  | _ => False
  end.

(** A search on connection [cn]. *)
Definition searchesOn (cn : conn) (ev : Event conn) : Prop :=
  match ev with
  | EvSearch cn' _ => cn' = cn
  | _ => False
  end.

(** The events of one session of the connector: a dial that is refused; or
    a dial, the service-account bind on the new connection, operations that
    are all [allowed] on that connection, and its close. *)
Inductive session (c : ldapConnector)
  (allowed : conn -> Event conn -> Prop) : list (Event conn) -> Prop :=
| session_refused : session c allowed [dialEvent c None]
| session_closed (cn : conn) (ops : list (Event conn)) :
    Forall (allowed cn) ops ->
    session c allowed
      (dialEvent c (Some cn) :: serviceBind c cn :: ops ++ [EvClose cn])%list.

(** What [Login] does once the bind as the found entry [user] succeeded;
    [w'] is the world after the session. *)
Definition Login_found (c : ldapConnector) (s : connector.Scopes.t)
  (username : string) (user : ldap.Entry) (w' : world)
  : connector.Identity * bool * option error :=
  match identityFromEntry c user with
  | (_, Some e) => (connector.zeroIdentity, false, Some e)
  | (ident, None) =>
      match (if connector.Scopes.Groups s then
               match value (groups c user w') with
               | (_, Some e) => inr (groupsFailed e)
               | (grps, None) => inl (withGroups ident grps)
               end
             else inl ident) with
      | inr e => (connector.zeroIdentity, false, Some e)
      | inl ident =>
          if connector.Scopes.OfflineAccess s then
            match json_Marshal (mkRefreshData username user) with
            | inr e => (connector.zeroIdentity, false, Some (marshalFailed e))
            | inl data => (withConnectorData ident data, true, None)
            end
          else (ident, true, None)
      end
  end.

End SessionShapes.

(** * Properties *)

(** ** The embedding on the example configuration *)

Example EscapeFilter_metacharacters :
  ldap.EscapeFilter "a(b)*\c" = "a\28b\29\2a\5cc".
Proof. reflexivity. Qed.

Example userFilter_with_base_filter :
  userFilter Scripted.exampleConnector "jane"
  = "(&(objectClass=person)(uid=jane))".
Proof. reflexivity. Qed.


Example Login_jane :
  value (@Login Scripted.directory Scripted.exampleConnector
           (connector.Scopes.mk true true) "jane" "foo" Scripted.exampleWorld)
  = (connector.mkIdentity "jane" "Jane Doe" "janedoe@example.com"
       ["admins"; "developers"]
       (Scripted.stateOf (mkRefreshData "jane" Scripted.jane)),
     true, None).
Proof. reflexivity. Qed.

Example Login_jane_events :
  events (@Login Scripted.directory Scripted.exampleConnector
            (connector.Scopes.mk true true) "jane" "foo" Scripted.exampleWorld)
  = [EvDial true "ldap.example.com:636" (Some 0);
     EvBind 0 Scripted.serviceDN "password";
     EvSearch 0 (ldap.SearchRequest.mk Scripted.usersDN
                   "(&(objectClass=person)(uid=jane))" ldap.ScopeWholeSubtree
                   ["uid"; "mail"; "uid"; "name"]);
     EvBind 0 "uid=jane,cn=users,dc=example,dc=com" "foo";
     EvClose 0;
     EvDial true "ldap.example.com:636" (Some 1);
     EvBind 1 Scripted.serviceDN "password";
     EvSearch 1 (ldap.SearchRequest.mk Scripted.groupsDN
                   "(&(objectClass=group)(member=jane))" ldap.ScopeWholeSubtree
                   ["name"]);
     EvClose 1].
Proof. reflexivity. Qed.

Example Refresh_jane :
  value (@Refresh Scripted.directory Scripted.exampleConnector
           (connector.Scopes.mk true true) (Scripted.janeIdentity Scripted.jane)
           Scripted.exampleWorld)
  = (connector.mkIdentity "jane" "Jane Doe" "janedoe@example.com"
       ["admins"; "developers"]
       (Scripted.stateOf (mkRefreshData "jane" Scripted.jane)),
     None).
Proof. reflexivity. Qed.

Example OpenConnector_example :
  value (@OpenConnector Scripted.directory Scripted.exampleConfig
           Scripted.exampleWorld)
  = (Scripted.exampleConfig, Some Scripted.exampleConnector, None).
Proof. reflexivity. Qed.

Example Marshal_example :
  json.Marshal (mkRefreshData "a<b" (ldap.mkEntry "uid=a" []))
  = inl ("{" ++ json.key "username" ++ String json.quote ("a\u" ++ "003cb")
             ++ String json.quote ("," ++ json.key "entry" ++ "{"
             ++ json.key "DN" ++ String json.quote "uid=a"
             ++ String json.quote ("," ++ json.key "Attributes" ++ "null}}"))).
Proof. reflexivity. Qed.

(** ** EntryAttributeReader *)

Lemma getAttr_loop_first (pre post : list ldap.EntryAttribute)
  (a : ldap.EntryAttribute) (name : string) :
  (forall b, In b pre -> ldap.Name b <> name) ->
  ldap.Name a = name ->
  getAttr_loop (pre ++ a :: post)%list name = Some (hd "" (ldap.Values a)).
Proof.
  intros Hpre Ha. induction pre as [|b pre IH]; simpl.
  - apply String.eqb_eq in Ha. rewrite Ha. simpl. now destruct (ldap.Values a).
  - assert (Hb : ldap.Name b <> name) by (apply Hpre; now left).
    apply String.eqb_neq in Hb. rewrite Hb. simpl.
    apply IH. intros b' Hin. apply Hpre. now right.
Qed.

Lemma getAttr_loop_absent (attrs : list ldap.EntryAttribute) (name : string) :
  (forall a, In a attrs -> ldap.Name a <> name) ->
  getAttr_loop attrs name = None.
Proof.
  induction attrs as [|b attrs IH]; intros H; simpl; [reflexivity|].
  assert (Hb : ldap.Name b <> name) by (apply H; now left).
  apply String.eqb_neq in Hb. rewrite Hb. simpl.
  apply IH. intros a Hin. apply H. now right.
Qed.

Lemma getAttr_loop_present (attrs : list ldap.EntryAttribute) (name : string) :
  (exists a, In a attrs /\ ldap.Name a = name) ->
  exists pre a post,
    attrs = (pre ++ a :: post)%list
    /\ (forall b, In b pre -> ldap.Name b <> name)
    /\ ldap.Name a = name.
Proof.
  induction attrs as [|b attrs IH]; intros [a [Hin Ha]]; [contradiction|].
  destruct (string_dec (ldap.Name b) name) as [Hb|Hb].
  - exists [], b, attrs. repeat split; auto; try now intros ? [].
  - destruct Hin as [->|Hin]; [contradiction|].
    destruct IH as (pre & a' & post & -> & Hpre & Ha'); [now exists a|].
    exists (b :: pre), a', post. repeat split; auto.
    intros b' [<-|Hb']; auto.
Qed.

(** C9: [getAttr] returns the first value of the first attribute of the
    entry that has the name asked for (the empty string when that
    attribute has no value); when no attribute has the name it returns
    the empty string, except for the name DN, for which it returns the
    entry's distinguished name; and when the entry has a literal attribute
    DN, the answer for DN is that attribute's and does not depend on the
    entry's distinguished name. *)
Theorem getAttr_first_value_or_DN (e : ldap.Entry) (name : string) :
  (forall pre a post,
      ldap.Attributes e = (pre ++ a :: post)%list ->
      (forall b, In b pre -> ldap.Name b <> name) ->
      ldap.Name a = name ->
      getAttr e name = hd "" (ldap.Values a))
  /\ ((forall a, In a (ldap.Attributes e) -> ldap.Name a <> name) ->
      name <> "DN" -> getAttr e name = "")
  /\ ((forall a, In a (ldap.Attributes e) -> ldap.Name a <> "DN") ->
      getAttr e "DN" = ldap.DN e)
  /\ ((exists a, In a (ldap.Attributes e) /\ ldap.Name a = "DN") ->
      forall dn,
        getAttr (ldap.mkEntry dn (ldap.Attributes e)) "DN" = getAttr e "DN").
Proof.
  repeat split.
  - intros pre a post Heq Hpre Ha. unfold getAttr.
    rewrite Heq, (getAttr_loop_first pre post a name Hpre Ha). reflexivity.
  - intros Habs Hdn. unfold getAttr.
    rewrite (getAttr_loop_absent _ _ Habs).
    apply String.eqb_neq in Hdn. now rewrite Hdn.
  - intros Habs. unfold getAttr.
    rewrite (getAttr_loop_absent _ _ Habs). reflexivity.
  - intros Hex dn.
    destruct (getAttr_loop_present _ _ Hex) as (pre & a & post & Heq & Hpre & Ha).
    unfold getAttr; simpl.
    rewrite Heq, (getAttr_loop_first pre post a "DN" Hpre Ha). reflexivity.
Qed.

Lemma getAttr_first_value_or_DN_witness :
  getAttr Scripted.jane "mail" = "janedoe@example.com"
  /\ getAttr Scripted.jane "cn" = ""
  /\ getAttr Scripted.jane "DN" = "uid=jane,cn=users,dc=example,dc=com"
  /\ getAttr (ldap.mkEntry "uid=x" [ldap.mkEntryAttribute "DN" ["literal"]]) "DN"
     = "literal".
Proof.
  split; [|split; [|split]].
  - apply (proj1 (getAttr_first_value_or_DN Scripted.jane "mail")
             [ldap.mkEntryAttribute "uid" ["jane"]]
             (ldap.mkEntryAttribute "mail" ["janedoe@example.com"])
             [ldap.mkEntryAttribute "name" ["Jane Doe"]]).
    + reflexivity.
    + intros b [<-|[]]; simpl; discriminate.
    + reflexivity.
  - apply (proj1 (proj2 (getAttr_first_value_or_DN Scripted.jane "cn"))).
    + intros a [<-|[<-|[<-|[]]]]; simpl; discriminate.
    + discriminate.
  - apply (proj1 (proj2 (proj2 (getAttr_first_value_or_DN Scripted.jane "DN")))).
    intros a [<-|[<-|[<-|[]]]]; simpl; discriminate.
  - apply (proj1 (getAttr_first_value_or_DN
                    (ldap.mkEntry "uid=x" [ldap.mkEntryAttribute "DN" ["literal"]])
                    "DN") [] (ldap.mkEntryAttribute "DN" ["literal"]) []).
    + reflexivity.
    + intros b [].
    + reflexivity.
Defined.

(** ** ScopeResolver and connector construction *)

Lemma parseScope_invalid (s : string) :
  ~ validScope s -> parseScope s = (0%Z, false).
Proof.
  intros H. unfold parseScope, validScope in *.
  destruct (s =? "") eqn:E1; [apply String.eqb_eq in E1; tauto|].
  destruct (s =? "sub") eqn:E2; [apply String.eqb_eq in E2; tauto|].
  destruct (s =? "one") eqn:E3; [apply String.eqb_eq in E3; tauto|].
  reflexivity.
Qed.

(** Case analysis on the innermost scrutinee of the goal. *)
Ltac break_match :=
  match goal with
  | |- context [match ?x with _ => _ end] =>
      lazymatch x with
      | context [match _ with _ => _ end] => fail
      | _ => destruct x eqn:?
      end
  end.

(** [OpenConnector] reads at most the certificate file. *)
Lemma OpenConnector_events {D : Directory} (c : Config) (w : world) :
  events (OpenConnector c w) = []
  \/ events (OpenConnector c w) = [EvReadFile (RootCA c)].
Proof.
  unfold OpenConnector, bind, ret, readFile, events.
  repeat (break_match; simpl; auto).
Qed.

Lemma OpenConnector_invalid_scope {D : Directory} (c : Config) (w : world) :
  ~ validScope (UserSearch.Scope (userSearch c))
  \/ ~ validScope (GroupSearch.Scope (groupSearch c)) ->
  exists c' e, value (OpenConnector c w) = (c', None, Some e).
Proof.
  intros H.
  assert (Hs : snd (parseScope (UserSearch.Scope (userSearch c))) = false
               \/ snd (parseScope (GroupSearch.Scope (groupSearch c))) = false).
  { destruct H as [H|H]; [left|right]; now rewrite (parseScope_invalid _ H). }
  clear H. revert Hs.
  unfold OpenConnector, bind, ret, readFile, value.
  destruct (firstMissingField _); [intros; simpl; eauto|].
  destruct (net_SplitHostPort (Host c)) as [[host port]|err];
    [|destruct (InsecureNoSSL c)]; cbn [withHost userSearch groupSearch];
    destruct (parseScope (UserSearch.Scope (userSearch c))) as [us [|]];
    destruct (parseScope (GroupSearch.Scope (groupSearch c))) as [gs [|]];
    cbn [snd negb]; intros [Hs|Hs]; try discriminate;
    repeat (break_match; simpl; eauto).
Qed.

(** C6: the scope strings [""] and ["sub"] resolve to the whole-subtree
    scope and ["one"] to the single-level scope; every other string is
    refused by [parseScope], and a configuration whose user-search or
    group-search scope is such a string makes [OpenConnector] return an
    error and no connector, having made no call to the directory (no dial,
    bind or search: at most the certificate file was read). *)
Theorem unknown_scope_rejected_at_construction :
  parseScope "" = (ldap.ScopeWholeSubtree, true)
  /\ parseScope "sub" = (ldap.ScopeWholeSubtree, true)
  /\ parseScope "one" = (ldap.ScopeSingleLevel, true)
  /\ (forall s, ~ validScope s -> snd (parseScope s) = false)
  /\ (forall (D : Directory) (c : Config) (w : world),
        ~ validScope (UserSearch.Scope (userSearch c))
        \/ ~ validScope (GroupSearch.Scope (groupSearch c)) ->
        (exists c' e, value (OpenConnector c w) = (c', None, Some e))
        /\ existsb isNetworkEvent (events (OpenConnector c w)) = false).
Proof.
  repeat split; try reflexivity.
  - intros s H. now rewrite (parseScope_invalid s H).
  - now apply OpenConnector_invalid_scope.
  - destruct (OpenConnector_events c w) as [-> | ->]; reflexivity.
Qed.

Lemma unknown_scope_rejected_at_construction_witness :
  snd (parseScope "base") = false
  /\ (exists c' e,
        value (@OpenConnector Scripted.directory
                 (Scripted.configWithScopes "sub" "base") Scripted.exampleWorld)
        = (c', None, Some e))
  /\ existsb isNetworkEvent
       (events (@OpenConnector Scripted.directory
                  (Scripted.configWithScopes "sub" "base")
                  Scripted.exampleWorld)) = false.
Proof.
  assert (Hbad : ~ validScope "base")
    by (intros [H|[H|H]]; discriminate H).
  split.
  - exact (proj1 (proj2 (proj2 (proj2 unknown_scope_rejected_at_construction)))
             "base" Hbad).
  - exact (proj2 (proj2 (proj2 (proj2 unknown_scope_rejected_at_construction)))
             Scripted.directory (Scripted.configWithScopes "sub" "base")
             Scripted.exampleWorld (or_intror Hbad)).
Defined.

(** ** IdentityMapper *)

Lemma identityFromEntry_eq (c : ldapConnector) (user : ldap.Entry) :
  identityFromEntry c user =
  match missingAttrs c user with
  | [] => (mappedIdentity c user, None)
  | _ :: _ =>
      (connector.zeroIdentity, Some (incompleteEntry user (missingAttrs c user)))
  end.
Proof.
  unfold identityFromEntry, missingAttrs, mappedIdentity, requiredAttrs,
    incompleteEntry.
  destruct (UserSearch.NameAttr (userSearch (config c)) =? "") eqn:En; simpl;
  destruct (getAttr user (UserSearch.IDAttr (userSearch (config c))) =? "") eqn:Ei;
  destruct (getAttr user (UserSearch.EmailAttr (userSearch (config c))) =? "") eqn:Ee;
  simpl; try reflexivity;
  destruct (getAttr user (UserSearch.NameAttr (userSearch (config c))) =? "") eqn:Eu;
  simpl; reflexivity.
Qed.

Lemma missingAttrs_In (c : ldapConnector) (user : ldap.Entry) (a : string) :
  In a (missingAttrs c user) <-> In a (requiredAttrs c) /\ getAttr user a = "".
Proof.
  unfold missingAttrs. rewrite filter_In, String.eqb_eq. reflexivity.
Qed.

Lemma missingAttrs_nil (c : ldapConnector) (user : ldap.Entry) :
  missingAttrs c user = [] <->
  (forall a, In a (requiredAttrs c) -> getAttr user a <> "").
Proof.
  split.
  - intros Hnil a Hin Hempty.
    assert (H : In a (missingAttrs c user)) by now apply missingAttrs_In.
    rewrite Hnil in H. exact H.
  - intros H. destruct (missingAttrs c user) as [|a l] eqn:E; [reflexivity|].
    assert (Ha : In a (missingAttrs c user)) by (rewrite E; now left).
    apply missingAttrs_In in Ha. destruct Ha as [Hin Hempty].
    now destruct (H a Hin).
Qed.

(** C3: [identityFromEntry] succeeds exactly when the id attribute, the
    email attribute and, when one is configured, the name attribute all
    resolve to a non-empty value on the entry; when it fails it returns
    the zero identity and an error whose operands are the entry's
    distinguished name and the list of all the required attributes that
    resolved to empty, not only the first. *)
Theorem identityFromEntry_names_every_missing_attribute
  (c : ldapConnector) (user : ldap.Entry) :
  ((exists ident, identityFromEntry c user = (ident, None)) <->
   (forall a, In a (requiredAttrs c) -> getAttr user a <> ""))
  /\ (forall ident e,
        identityFromEntry c user = (ident, Some e) ->
        ident = connector.zeroIdentity
        /\ exists missing,
            e = incompleteEntry user missing
            /\ (forall a, In a missing <->
                          In a (requiredAttrs c) /\ getAttr user a = "")).
Proof.
  rewrite identityFromEntry_eq. split; [split|].
  - intros [ident H]. apply missingAttrs_nil.
    destruct (missingAttrs c user); [reflexivity|discriminate H].
  - intros H. apply missingAttrs_nil in H. rewrite H. eauto.
  - intros ident e H.
    destruct (missingAttrs c user) as [|a l] eqn:E; [discriminate H|].
    injection H as <- <-. split; [reflexivity|].
    exists (a :: l). split; [reflexivity|].
    intros b. rewrite <- E. apply missingAttrs_In.
Qed.

Lemma identityFromEntry_names_every_missing_attribute_witness :
  (exists ident,
      identityFromEntry Scripted.exampleConnector Scripted.jane = (ident, None))
  /\ (exists missing,
        incompleteEntry Scripted.joe ["mail"; "name"]
        = incompleteEntry Scripted.joe missing
        /\ (forall a,
              In a missing <->
              In a (requiredAttrs Scripted.exampleConnector)
              /\ getAttr Scripted.joe a = "")).
Proof.
  split.
  - apply (proj2 (proj1 (identityFromEntry_names_every_missing_attribute
                           Scripted.exampleConnector Scripted.jane))).
    intros a [<-|[<-|[<-|[]]]]; discriminate.
  - exact (proj2 (proj2 (identityFromEntry_names_every_missing_attribute
                           Scripted.exampleConnector Scripted.joe)
                    connector.zeroIdentity
                    (incompleteEntry Scripted.joe ["mail"; "name"])
                    eq_refl)).
Defined.

(** ** DirectorySession and Login *)

Section SessionFacts.

Context {D : Directory}.

Lemma do_dial_fails {S : Type} (c : ldapConnector)
  (f : conn -> S -> M (S * option error)) (s0 : S) (w w1 : world) (err : error) :
  dialAnswer c w = (inr err, w1) ->
  do c f s0 w
  = ((s0, Some (Errorf "failed to connect: %v" [ArgError err])), w1,
     [dialEvent c None]).
Proof.
  unfold dialAnswer, do, bind, ret, dial, dialTLS, dialEvent. intros H.
  destruct (InsecureNoSSL (config c)); rewrite H; reflexivity.
Qed.

Lemma do_bind_fails {S : Type} (c : ldapConnector)
  (f : conn -> S -> M (S * option error)) (s0 : S) (w w1 w2 : world)
  (cn : conn) (err : error) :
  dialAnswer c w = (inl cn, w1) ->
  conn_Bind cn (BindDN (config c)) (BindPW (config c)) w1 = (Some err, w2) ->
  do c f s0 w
  = ((s0, Some (Errorf "ldap: initial bind for user %q failed: %v"
                  [ArgString (BindDN (config c)); ArgError err])),
     conn_Close cn w2,
     [dialEvent c (Some cn); serviceBind c cn; EvClose cn]).
Proof.
  unfold dialAnswer, do, bind, ret, dial, dialTLS, connBind, connClose,
    dialEvent, serviceBind.
  intros H1 H2.
  destruct (InsecureNoSSL (config c)); rewrite H1, H2; reflexivity.
Qed.

Lemma do_session {S : Type} (c : ldapConnector)
  (f : conn -> S -> M (S * option error)) (s0 : S) (w w2 : world) (cn : conn) :
  sessionOpens c w cn w2 ->
  do c f s0 w
  = (value (f cn s0 w2), conn_Close cn (after (f cn s0 w2)),
     dialEvent c (Some cn) :: serviceBind c cn
       :: events (f cn s0 w2) ++ [EvClose cn]).
Proof.
  unfold sessionOpens, dialAnswer, do, bind, ret, dial, dialTLS, connBind,
    connClose, dialEvent, serviceBind, value, after, events.
  intros [w1 [H1 H2]].
  destruct (InsecureNoSSL (config c)); rewrite H1, H2;
    destruct (f cn s0 w2) as [[r w3] t]; simpl; reflexivity.
Qed.

Lemma do_cases (c : ldapConnector) (w : world) :
  (exists err w1, dialAnswer c w = (inr err, w1))
  \/ (exists cn w1 err w2,
        dialAnswer c w = (inl cn, w1)
        /\ conn_Bind cn (BindDN (config c)) (BindPW (config c)) w1
           = (Some err, w2))
  \/ (exists cn w2, sessionOpens c w cn w2).
Proof.
  unfold sessionOpens.
  destruct (dialAnswer c w) as [[cn|err] w1] eqn:Hd; [|left; eauto].
  destruct (conn_Bind cn (BindDN (config c)) (BindPW (config c)) w1)
    as [[err|] w2] eqn:Hb; right; [left|right]; eauto 10.
Qed.

Lemma userEntry_eq (c : ldapConnector) (cn : conn) (username : string)
  (w : world) :
  userEntry c cn username w
  = (match fst (conn_Search cn (userSearchRequest c username) w) with
     | inr err =>
         (ldap.zeroEntry, false,
          Some (Errorf "ldap: search with filter %q failed: %v"
                  [ArgString (userFilter c username); ArgError err]))
     | inl [] => (ldap.zeroEntry, false, None)
     | inl [e] => (e, true, None)
     | inl es =>
         (ldap.zeroEntry, false,
          Some (Errorf "ldap: filter returned multiple (%d) results: %q"
                  [ArgInt (Z.of_nat (length es));
                   ArgString (userFilter c username)]))
     end,
     snd (conn_Search cn (userSearchRequest c username) w),
     [EvSearch cn (userSearchRequest c username)]).
Proof.
  unfold userEntry, bind, ret, connSearch.
  destruct (conn_Search cn (userSearchRequest c username) w) as [[es|err] w'];
    simpl; [|reflexivity].
  destruct es as [|e [|e' es]]; reflexivity.
Qed.

Lemma Login_closure_search_fails (c : ldapConnector) (username password : string)
  (cn : conn) (st : bool * ldap.Entry) (w w3 : world) (err : error) :
  conn_Search cn (userSearchRequest c username) w = (inr err, w3) ->
  exists e,
    Login_closure c username password cn st w
    = ((fst st, snd st, Some e), w3, [EvSearch cn (userSearchRequest c username)]).
Proof.
  intros H. destruct st as [ip user].
  unfold Login_closure, bind, ret. rewrite userEntry_eq, H. simpl. eauto.
Qed.

Lemma Login_closure_not_found (c : ldapConnector) (username password : string)
  (cn : conn) (st : bool * ldap.Entry) (w w3 : world) :
  conn_Search cn (userSearchRequest c username) w = (inl [], w3) ->
  Login_closure c username password cn st w
  = ((true, snd st, None), w3, [EvSearch cn (userSearchRequest c username)]).
Proof.
  intros H. destruct st as [ip user].
  unfold Login_closure, bind, ret. rewrite userEntry_eq, H. reflexivity.
Qed.

Lemma Login_closure_ambiguous (c : ldapConnector) (username password : string)
  (cn : conn) (st : bool * ldap.Entry) (w w3 : world) (es : list ldap.Entry) :
  conn_Search cn (userSearchRequest c username) w = (inl es, w3) ->
  (1 < length es)%nat ->
  exists e,
    Login_closure c username password cn st w
    = ((fst st, snd st, Some e), w3, [EvSearch cn (userSearchRequest c username)]).
Proof.
  intros H Hlen. destruct st as [ip user].
  unfold Login_closure, bind, ret. rewrite userEntry_eq, H.
  destruct es as [|e [|e' es]]; simpl in Hlen; try lia. simpl. eauto.
Qed.

Lemma Login_closure_found (c : ldapConnector) (username password : string)
  (cn : conn) (st : bool * ldap.Entry) (w w3 : world) (e : ldap.Entry) :
  conn_Search cn (userSearchRequest c username) w = (inl [e], w3) ->
  Login_closure c username password cn st w
  = (match fst (conn_Bind cn (ldap.DN e) password w3) with
     | None => (fst st, e, None)
     | Some err =>
         if isInvalidCredentials err then (true, e, None)
         else (fst st, e,
               Some (Errorf "ldap: failed to bind as dn %q: %v"
                       [ArgString (ldap.DN e); ArgError err]))
     end,
     snd (conn_Bind cn (ldap.DN e) password w3),
     [EvSearch cn (userSearchRequest c username); userBind cn e password]).
Proof.
  intros H. destruct st as [ip user].
  unfold Login_closure, bind, ret, connBind, userBind.
  rewrite userEntry_eq, H. simpl.
  destruct (conn_Bind cn (ldap.DN e) password w3) as [[err|] w4]; simpl;
    [destruct (isInvalidCredentials err)|]; reflexivity.
Qed.

(** What [Login] makes of the outcome of its session. *)
Lemma Login_session_error (c : ldapConnector) (s : connector.Scopes.t)
  (username password : string) (w : world) (ip : bool) (user : ldap.Entry)
  (e : error) :
  value (do c (Login_closure c username password) (false, ldap.zeroEntry) w)
  = (ip, user, Some e) ->
  value (Login c s username password w) = (connector.zeroIdentity, false, Some e).
Proof.
  unfold Login, bind, value.
  destruct (do c _ _ w) as [[[[ip' user'] err] w'] t]. simpl.
  intros H. injection H as -> -> ->. reflexivity.
Qed.

Lemma Login_session_incorrect (c : ldapConnector) (s : connector.Scopes.t)
  (username password : string) (w : world) (user : ldap.Entry) :
  value (do c (Login_closure c username password) (false, ldap.zeroEntry) w)
  = (true, user, None) ->
  value (Login c s username password w) = (connector.zeroIdentity, false, None).
Proof.
  unfold Login, bind, value.
  destruct (do c _ _ w) as [[[[ip' user'] err] w'] t]. simpl.
  intros H. injection H as -> -> ->. reflexivity.
Qed.

Lemma Login_session_bound (c : ldapConnector) (s : connector.Scopes.t)
  (username password : string) (w : world) (user : ldap.Entry) :
  value (do c (Login_closure c username password) (false, ldap.zeroEntry) w)
  = (false, user, None) ->
  (exists ident, value (Login c s username password w) = (ident, true, None))
  \/ (exists e, value (Login c s username password w)
                = (connector.zeroIdentity, false, Some e)).
Proof.
  unfold Login, bind, ret, value.
  destruct (do c _ _ w) as [[[[ip' user'] err] w'] t]. simpl.
  intros H. injection H as -> -> ->.
  destruct (identityFromEntry c user) as [ident [e|]]; simpl; [eauto|].
  destruct (connector.Scopes.Groups s); simpl.
  - destruct (groups c user w') as [[[grps [ge|]] w''] t'']; simpl; [eauto|].
    destruct (connector.Scopes.OfflineAccess s); simpl; [|eauto].
    destruct (json_Marshal _); simpl; eauto.
  - destruct (connector.Scopes.OfflineAccess s); simpl; [|eauto].
    destruct (json_Marshal _); simpl; eauto.
Qed.

Lemma isInvalidCredentials_true (err : error) :
  isInvalidCredentials err = true <->
  exists msg, err = LdapError ldap.LDAPResultInvalidCredentials msg.
Proof.
  split.
  - destruct err as [code msg| |]; simpl; try discriminate.
    intros H. apply Z.eqb_eq in H. subst code. eauto.
  - intros [msg ->]. reflexivity.
Qed.

Lemma isInvalidCredentials_false (err : error) :
  isInvalidCredentials err = false <->
  forall msg, err <> LdapError ldap.LDAPResultInvalidCredentials msg.
Proof.
  split.
  - intros H msg ->. discriminate H.
  - intros H. destruct (isInvalidCredentials err) eqn:E; [|reflexivity].
    apply isInvalidCredentials_true in E. destruct E as [msg ->].
    now destruct (H msg).
Qed.

Lemma Login_session_value (c : ldapConnector) (username password : string)
  (w w2 : world) (cn : conn) :
  sessionOpens c w cn w2 ->
  value (do c (Login_closure c username password) (false, ldap.zeroEntry) w)
  = value (Login_closure c username password cn (false, ldap.zeroEntry) w2).
Proof. intros H. now rewrite (do_session _ _ _ _ _ _ H). Qed.

Lemma Login_user_not_found (c : ldapConnector) (s : connector.Scopes.t)
  (username password : string) (w w3 : world) (cn : conn) :
  lookupAnswers c username w cn [] w3 ->
  value (Login c s username password w) = (connector.zeroIdentity, false, None).
Proof.
  intros (w2 & Hopen & Hsearch).
  apply Login_session_incorrect with (user := ldap.zeroEntry).
  rewrite (Login_session_value c username password w w2 cn Hopen).
  now rewrite (Login_closure_not_found _ _ _ _ _ _ _ Hsearch).
Qed.

(** C1: when the user search of [Login] returns no entry, or the bind as
    the found entry's distinguished name fails with the result code for
    invalid credentials, [Login] returns the zero identity, false and no
    error; when the search returns more than one entry, or that bind fails
    in any other way, [Login] returns an error; and [Login] returns false
    with no error in no other case. *)
Theorem Login_authentication_failure_conditions
  (c : ldapConnector) (s : connector.Scopes.t) (username password : string)
  (w : world) :
  (forall cn es w3,
      lookupAnswers c username w cn es w3 ->
      (es = [] ->
       value (Login c s username password w)
       = (connector.zeroIdentity, false, None))
      /\ (forall e msg w4,
            es = [e] ->
            conn_Bind cn (ldap.DN e) password w3
            = (Some (LdapError ldap.LDAPResultInvalidCredentials msg), w4) ->
            value (Login c s username password w)
            = (connector.zeroIdentity, false, None))
      /\ ((1 < length es)%nat ->
          exists err,
            value (Login c s username password w)
            = (connector.zeroIdentity, false, Some err))
      /\ (forall e err w4,
            es = [e] ->
            conn_Bind cn (ldap.DN e) password w3 = (Some err, w4) ->
            (forall msg, err <> LdapError ldap.LDAPResultInvalidCredentials msg) ->
            exists err',
              value (Login c s username password w)
              = (connector.zeroIdentity, false, Some err')))
  /\ (forall ident,
        value (Login c s username password w) = (ident, false, None) ->
        ident = connector.zeroIdentity
        /\ exists cn es w3,
            lookupAnswers c username w cn es w3
            /\ (es = []
                \/ exists e msg w4,
                    es = [e]
                    /\ conn_Bind cn (ldap.DN e) password w3
                       = (Some (LdapError ldap.LDAPResultInvalidCredentials msg),
                          w4))).
Proof.
  split.
  - intros cn es w3 (w2 & Hopen & Hsearch).
    pose proof (Login_session_value c username password w w2 cn Hopen) as Hdo.
    repeat split.
    + intros ->. apply Login_session_incorrect with (user := ldap.zeroEntry).
      rewrite Hdo, (Login_closure_not_found _ _ _ _ _ _ _ Hsearch). reflexivity.
    + intros e msg w4 -> Hbind. apply Login_session_incorrect with (user := e).
      rewrite Hdo, (Login_closure_found _ _ _ _ _ _ _ _ Hsearch), Hbind.
      reflexivity.
    + intros Hlen.
      destruct (Login_closure_ambiguous c username password cn
                  (false, ldap.zeroEntry) _ _ _ Hsearch Hlen) as [e He].
      exists e. apply Login_session_error with (ip := false) (user := ldap.zeroEntry).
      rewrite Hdo, He. reflexivity.
    + intros e err w4 -> Hbind Hother.
      apply isInvalidCredentials_false in Hother.
      eexists. apply Login_session_error with (ip := false) (user := e).
      rewrite Hdo, (Login_closure_found _ _ _ _ _ _ _ _ Hsearch), Hbind.
      unfold value; simpl. rewrite Hother. reflexivity.
  - intros ident HL.
    destruct (do_cases c w)
      as [(err & w1 & Hd) | [(cn & w1 & err & w2 & Hd & Hb) | (cn & w2 & Hopen)]].
    + erewrite (Login_session_error c s username password w false ldap.zeroEntry)
        in HL; [discriminate HL|].
      now rewrite (do_dial_fails _ _ _ _ _ _ Hd).
    + erewrite (Login_session_error c s username password w false ldap.zeroEntry)
        in HL; [discriminate HL|].
      now rewrite (do_bind_fails _ _ _ _ _ _ _ _ Hd Hb).
    + pose proof (Login_session_value c username password w w2 cn Hopen) as Hdo.
      destruct (conn_Search cn (userSearchRequest c username) w2)
        as [[es|err] w3] eqn:Hsearch.
      * destruct es as [|e [|e' es]].
        -- rewrite (Login_session_incorrect c s username password w ldap.zeroEntry)
             in HL.
           2:{ rewrite Hdo, (Login_closure_not_found _ _ _ _ _ _ _ Hsearch).
               reflexivity. }
           injection HL as <-. split; [reflexivity|].
           exists cn, [], w3. split; [exists w2; auto | now left].
        -- rewrite (Login_closure_found _ _ _ _ _ _ _ _ Hsearch) in Hdo.
           destruct (conn_Bind cn (ldap.DN e) password w3) as [[err|] w4] eqn:Hbind.
           ++ destruct (isInvalidCredentials err) eqn:Hinv.
              ** rewrite (Login_session_incorrect c s username password w e) in HL.
                 2:{ rewrite Hdo. unfold value; simpl. now rewrite Hinv. }
                 injection HL as <-. split; [reflexivity|].
                 apply isInvalidCredentials_true in Hinv. destruct Hinv as [msg ->].
                 exists cn, [e], w3. split; [exists w2; auto|].
                 right. exists e, msg, w4. auto.
              ** erewrite (Login_session_error c s username password w false e)
                   in HL; [discriminate HL|].
                 rewrite Hdo. unfold value; simpl. now rewrite Hinv.
           ++ destruct (Login_session_bound c s username password w e)
                as [[i Hi]|[e0 He0]].
              { rewrite Hdo. reflexivity. }
              { rewrite Hi in HL. discriminate HL. }
              { rewrite He0 in HL. discriminate HL. }
        -- destruct (Login_closure_ambiguous c username password cn
                       (false, ldap.zeroEntry) _ _ _ Hsearch) as [e0 He0].
           { simpl. lia. }
           rewrite (Login_session_error c s username password w false
                      ldap.zeroEntry e0) in HL; [discriminate HL|].
           rewrite Hdo, He0. reflexivity.
      * destruct (Login_closure_search_fails c username password cn
                    (false, ldap.zeroEntry) _ _ _ Hsearch) as [e0 He0].
        rewrite (Login_session_error c s username password w false
                   ldap.zeroEntry e0) in HL; [discriminate HL|].
        rewrite Hdo, He0. reflexivity.
Qed.

End SessionFacts.

Lemma Login_authentication_failure_conditions_witness :
  value (@Login Scripted.directory Scripted.exampleConnector
           (connector.Scopes.mk true true) "nobody" "foo" Scripted.exampleWorld)
  = (connector.zeroIdentity, false, None)
  /\ value (@Login Scripted.directory Scripted.exampleConnector
              (connector.Scopes.mk true true) "jane" "wrong"
              Scripted.exampleWorld)
     = (connector.zeroIdentity, false, None)
  /\ (exists err,
        value (@Login Scripted.directory Scripted.exampleConnector
                 (connector.Scopes.mk true true) "j*" "foo"
                 Scripted.exampleWorld)
        = (connector.zeroIdentity, false, Some err))
  /\ (exists err,
        value (@Login Scripted.directory Scripted.exampleConnector
                 (connector.Scopes.mk true true) "john" "bar"
                 Scripted.exampleWorld)
        = (connector.zeroIdentity, false, Some err)).
Proof.
  assert (Hlook : forall u,
             @lookupAnswers Scripted.directory Scripted.exampleConnector u
               Scripted.exampleWorld 0
               (Scripted.lookupEntries (Scripted.entries Scripted.exampleWorld)
                  Scripted.usersDN (userFilter Scripted.exampleConnector u))
               (Scripted.connected Scripted.exampleWorld)).
  { intros u. exists (Scripted.connected Scripted.exampleWorld).
    split; [|reflexivity].
    exists (Scripted.connected Scripted.exampleWorld). split; reflexivity. }
  split; [|split; [|split]].
  - apply (proj1 (proj1 (@Login_authentication_failure_conditions
                           Scripted.directory Scripted.exampleConnector
                           (connector.Scopes.mk true true) "nobody" "foo"
                           Scripted.exampleWorld) _ _ _ (Hlook "nobody"))).
    reflexivity.
  - apply (proj1 (proj2 (proj1 (@Login_authentication_failure_conditions
                           Scripted.directory Scripted.exampleConnector
                           (connector.Scopes.mk true true) "jane" "wrong"
                           Scripted.exampleWorld) _ _ _ (Hlook "jane")))
             Scripted.jane "Invalid Credentials"
             (Scripted.connected Scripted.exampleWorld));
      reflexivity.
  - apply (proj1 (proj2 (proj2 (proj1 (@Login_authentication_failure_conditions
                           Scripted.directory Scripted.exampleConnector
                           (connector.Scopes.mk true true) "j*" "foo"
                           Scripted.exampleWorld) _ _ _ (Hlook "j*"))))).
    simpl. lia.
  - apply (proj2 (proj2 (proj2 (proj1 (@Login_authentication_failure_conditions
                           Scripted.directory Scripted.exampleConnector
                           (connector.Scopes.mk true true) "john" "bar"
                           Scripted.exampleWorld) _ _ _ (Hlook "john"))))
             Scripted.john (LdapError 53 "Unwilling To Perform")
             (Scripted.connected Scripted.exampleWorld));
      [reflexivity | reflexivity | intros msg H; discriminate H].
Defined.

(** ** GroupResolver *)

Section GroupFacts.

Context {D : Directory}.

Lemma groupNames_loop_all_named (c : ldapConnector) (es : list ldap.Entry)
  (acc : list string) :
  (forall g, In g es -> groupName c g <> "") ->
  groupNames_loop c es acc = ((acc ++ map (groupName c) es)%list, None).
Proof.
  revert acc. induction es as [|g es IH]; intros acc H; simpl.
  - now rewrite app_nil_r.
  - assert (Hg : groupName c g <> "") by (apply H; now left).
    apply String.eqb_neq in Hg. unfold groupName in Hg. rewrite Hg.
    rewrite IH by (intros g' Hin; apply H; now right).
    now rewrite <- app_assoc.
Qed.

Lemma groupNames_loop_unnamed (c : ldapConnector) (es : list ldap.Entry)
  (acc : list string) :
  (exists g, In g es /\ groupName c g = "") ->
  exists g,
    In g es /\ groupName c g = ""
    /\ groupNames_loop c es acc = ([], Some (missingGroupName c g)).
Proof.
  revert acc. induction es as [|g es IH]; intros acc [g0 [Hin Hg0]]; [contradiction|].
  simpl. destruct (groupName c g =? "") eqn:Hg.
  - exists g. unfold groupName in Hg. rewrite Hg. apply String.eqb_eq in Hg.
    repeat split; auto.
  - unfold groupName in Hg. rewrite Hg.
    destruct Hin as [->|Hin].
    + apply String.eqb_neq in Hg. contradiction.
    + destruct (IH (acc ++ [getAttr g (GroupSearch.NameAttr (groupSearch (config c)))])%list
                  (ex_intro _ g0 (conj Hin Hg0))) as (g1 & Hin1 & Hg1 & Heq).
      exists g1. repeat split; auto.
Qed.

Lemma groups_session (c : ldapConnector) (user : ldap.Entry) (w w2 w3 : world)
  (cn : conn) (es : list ldap.Entry) :
  sessionOpens c w cn w2 ->
  conn_Search cn (groupSearchRequest c user) w2 = (inl es, w3) ->
  groups c user w
  = (groupNames_loop c es [], conn_Close cn w3,
     [dialEvent c (Some cn); serviceBind c cn;
      EvSearch cn (groupSearchRequest c user); EvClose cn]).
Proof.
  intros Hopen Hsearch. unfold groups, bind.
  rewrite (do_session _ _ _ _ _ _ Hopen).
  unfold connSearch, bind, ret, value, after, events. rewrite Hsearch. simpl.
  reflexivity.
Qed.

(** C4: for the entries that the group search returns: when one of them
    resolves the group name attribute to empty, [groups] returns an error
    (naming such an entry and the attribute) and the nil list, not the
    names found so far; when the search returns
    no entry, [groups] succeeds with the empty list; and when every entry
    has a name, [groups] returns exactly their names, in the order of the
    directory's answer. *)
Theorem groups_all_or_nothing
  (c : ldapConnector) (user : ldap.Entry) (w w2 w3 : world) (cn : conn)
  (es : list ldap.Entry) :
  sessionOpens c w cn w2 ->
  conn_Search cn (groupSearchRequest c user) w2 = (inl es, w3) ->
  ((exists g, In g es /\ groupName c g = "") ->
   exists g,
     In g es /\ groupName c g = ""
     /\ value (groups c user w) = ([], Some (missingGroupName c g)))
  /\ (es = [] -> value (groups c user w) = ([], None))
  /\ ((forall g, In g es -> groupName c g <> "") ->
      value (groups c user w) = (map (groupName c) es, None)).
Proof.
  intros Hopen Hsearch. rewrite (groups_session _ _ _ _ _ _ _ Hopen Hsearch).
  unfold value; simpl. repeat split.
  - intros Hex.
    destruct (groupNames_loop_unnamed c es [] Hex) as (g & Hin & Hg & ->).
    eauto.
  - intros ->. reflexivity.
  - intros Hall. now rewrite (groupNames_loop_all_named c es [] Hall).
Qed.

End GroupFacts.

(** ** Refresh *)

Section RefreshFacts.

Context {D : Directory}.

Lemma Refresh_closure_eq (c : ldapConnector) (data : refreshData) (cn : conn)
  (user : ldap.Entry) (w : world) :
  Refresh_closure c data cn user w
  = (match fst (conn_Search cn (userSearchRequest c (rdUsername data)) w) with
     | inr err =>
         (user,
          Some (Errorf "ldap: search with filter %q failed: %v"
                  [ArgString (userFilter c (rdUsername data)); ArgError err]))
     | inl [] => (user, Some (userNotFound (rdUsername data)))
     | inl [e] => (e, None)
     | inl es =>
         (user,
          Some (Errorf "ldap: filter returned multiple (%d) results: %q"
                  [ArgInt (Z.of_nat (length es));
                   ArgString (userFilter c (rdUsername data))]))
     end,
     snd (conn_Search cn (userSearchRequest c (rdUsername data)) w),
     [EvSearch cn (userSearchRequest c (rdUsername data))]).
Proof.
  unfold Refresh_closure, bind, ret. rewrite userEntry_eq.
  destruct (conn_Search cn (userSearchRequest c (rdUsername data)) w)
    as [[es|err] w']; simpl; [|reflexivity].
  destruct es as [|e [|e' es]]; reflexivity.
Qed.


Lemma Refresh_session_outcome (c : ldapConnector) (data : refreshData)
  (w : world) :
  (exists user e,
      value (do c (Refresh_closure c data) ldap.zeroEntry w) = (user, Some e)
      /\ lookupError e)
  \/ (exists cn e w3,
        lookupAnswers c (rdUsername data) w cn [e] w3
        /\ do c (Refresh_closure c data) ldap.zeroEntry w
           = ((e, None), conn_Close cn w3,
              [dialEvent c (Some cn); serviceBind c cn;
               EvSearch cn (userSearchRequest c (rdUsername data));
               EvClose cn])).
Proof.
  destruct (do_cases c w)
    as [(err & w1 & Hd) | [(cn & w1 & err & w2 & Hd & Hb) | (cn & w2 & Hopen)]].
  - left. rewrite (do_dial_fails _ _ _ _ _ _ Hd). do 2 eexists.
    split; [reflexivity|constructor].
  - left. rewrite (do_bind_fails _ _ _ _ _ _ _ _ Hd Hb). do 2 eexists.
    split; [reflexivity|constructor].
  - rewrite (do_session _ _ _ _ _ _ Hopen), Refresh_closure_eq.
    destruct (conn_Search cn (userSearchRequest c (rdUsername data)) w2)
      as [[es|err] w3] eqn:Hs; simpl.
    + destruct es as [|e [|e' es]].
      * left. do 2 eexists. split; [reflexivity|constructor].
      * right. exists cn, e, w3. split; [exists w2; auto|reflexivity].
      * left. do 2 eexists. split; [reflexivity|constructor].
    + left. do 2 eexists. split; [reflexivity|constructor].
Qed.

Lemma Refresh_decode_fails (c : ldapConnector) (s : connector.Scopes.t)
  (ident : connector.Identity) (w : world) (e : error) :
  json_Unmarshal (connector.ConnectorData ident) = inr e ->
  Refresh c s ident w = ((ident, Some (stateCorrupt e)), w, []).
Proof. unfold Refresh. intros ->. reflexivity. Qed.

Lemma Refresh_session_fails (c : ldapConnector) (s : connector.Scopes.t)
  (ident : connector.Identity) (w : world) (data : refreshData)
  (user : ldap.Entry) (e : error) :
  json_Unmarshal (connector.ConnectorData ident) = inl data ->
  value (do c (Refresh_closure c data) ldap.zeroEntry w) = (user, Some e) ->
  value (Refresh c s ident w) = (ident, Some e).
Proof.
  unfold Refresh. intros ->. unfold bind, value.
  destruct (do c _ _ w) as [[[user' err] w'] t]. simpl.
  intros H. injection H as -> ->. reflexivity.
Qed.


Lemma Refresh_session_finds (c : ldapConnector) (s : connector.Scopes.t)
  (ident : connector.Identity) (w w' : world) (data : refreshData)
  (e : ldap.Entry) (t : list (Event conn)) :
  json_Unmarshal (connector.ConnectorData ident) = inl data ->
  do c (Refresh_closure c data) ldap.zeroEntry w = ((e, None), w', t) ->
  value (Refresh c s ident w) = Refresh_found c s ident data e w'.
Proof.
  unfold Refresh, Refresh_found. intros -> Hdo. unfold bind, ret, value.
  rewrite Hdo. simpl.
  destruct (negb (ldap.DN e =? ldap.DN (rdEntry data))); [reflexivity|].
  destruct (identityFromEntry c e) as [newIdent [err|]]; [reflexivity|].
  destruct (connector.Scopes.Groups s); [|reflexivity].
  destruct (groups c e w') as [[[grps [ge|]] w''] t'']; reflexivity.
Qed.

Lemma Refresh_user_not_found (c : ldapConnector) (s : connector.Scopes.t)
  (ident : connector.Identity) (data : refreshData) (w w3 : world) (cn : conn) :
  json_Unmarshal (connector.ConnectorData ident) = inl data ->
  lookupAnswers c (rdUsername data) w cn [] w3 ->
  value (Refresh c s ident w) = (ident, Some (userNotFound (rdUsername data))).
Proof.
  intros Hdec (w2 & Hopen & Hsearch).
  apply Refresh_session_fails with (data := data) (user := ldap.zeroEntry);
    [assumption|].
  rewrite (do_session _ _ _ _ _ _ Hopen), Refresh_closure_eq, Hsearch.
  reflexivity.
Qed.

Lemma Refresh_user_found (c : ldapConnector) (s : connector.Scopes.t)
  (ident : connector.Identity) (data : refreshData) (w w3 : world) (cn : conn)
  (e : ldap.Entry) :
  json_Unmarshal (connector.ConnectorData ident) = inl data ->
  lookupAnswers c (rdUsername data) w cn [e] w3 ->
  value (Refresh c s ident w)
  = Refresh_found c s ident data e (conn_Close cn w3).
Proof.
  intros Hdec (w2 & Hopen & Hsearch).
  apply (Refresh_session_finds c s ident w (conn_Close cn w3) data e
           [dialEvent c (Some cn); serviceBind c cn;
            EvSearch cn (userSearchRequest c (rdUsername data)); EvClose cn]
           Hdec).
  rewrite (do_session _ _ _ _ _ _ Hopen), Refresh_closure_eq, Hsearch.
  reflexivity.
Qed.

(** C2: for a [Refresh] whose opaque state decodes to a user name and a
    cached entry: when the fresh lookup of that user name finds no entry,
    [Refresh] returns an error (the user-not-found error), where [Login]
    for the same user name reports a failed authentication and no error;
    and when the entry found has another distinguished name than the
    cached one, [Refresh] returns an error and no new identity (the
    identity returned next to the error is the caller's own). *)
Theorem Refresh_user_vanished_or_changed
  (c : ldapConnector) (s : connector.Scopes.t) (ident : connector.Identity)
  (data : refreshData) (w : world) (cn : conn) (es : list ldap.Entry)
  (w3 : world) :
  json_Unmarshal (connector.ConnectorData ident) = inl data ->
  lookupAnswers c (rdUsername data) w cn es w3 ->
  (es = [] ->
   value (Refresh c s ident w) = (ident, Some (userNotFound (rdUsername data)))
   /\ forall password,
       value (Login c s (rdUsername data) password w)
       = (connector.zeroIdentity, false, None))
  /\ (forall e,
        es = [e] ->
        ldap.DN e <> ldap.DN (rdEntry data) ->
        value (Refresh c s ident w) = (ident, Some (identityChanged data e))).
Proof.
  intros Hdec Hla. split.
  - intros ->. split.
    + now apply Refresh_user_not_found with (data := data) (cn := cn) (w3 := w3).
    + intros password.
      now apply Login_user_not_found with (cn := cn) (w3 := w3).
  - intros e -> Hdn.
    rewrite (Refresh_user_found c s ident data w w3 cn e Hdec Hla).
    unfold Refresh_found. apply String.eqb_neq in Hdn. now rewrite Hdn.
Qed.

Lemma identityFromEntry_error (c : ldapConnector) (user : ldap.Entry)
  (i : connector.Identity) (err : error) :
  identityFromEntry c user = (i, Some err) ->
  err = incompleteEntry user (missingAttrs c user).
Proof.
  rewrite identityFromEntry_eq.
  destruct (missingAttrs c user); intros H; [discriminate H|].
  now injection H as _ <-.
Qed.

(** C10: the identity [Refresh] returns next to an error depends on the
    path: when the state does not decode, when the lookup session ends with
    an error (among them user not found), when the distinguished name
    differs and when the entry does not map to an identity, it is the
    caller's identity, unchanged; when the group resolution fails it is the
    zero identity.  Every error return is one of the two kinds, and the
    zero identity goes with the group-resolution error only. *)
Theorem Refresh_error_identity_not_uniform
  (c : ldapConnector) (s : connector.Scopes.t) (ident : connector.Identity)
  (w : world) :
  (forall e,
      json_Unmarshal (connector.ConnectorData ident) = inr e ->
      value (Refresh c s ident w) = (ident, Some (stateCorrupt e)))
  /\ (forall data,
        json_Unmarshal (connector.ConnectorData ident) = inl data ->
        (forall user e,
            value (do c (Refresh_closure c data) ldap.zeroEntry w)
            = (user, Some e) ->
            value (Refresh c s ident w) = (ident, Some e))
        /\ (forall cn w3,
              lookupAnswers c (rdUsername data) w cn [] w3 ->
              value (Refresh c s ident w)
              = (ident, Some (userNotFound (rdUsername data))))
        /\ (forall cn e w3,
              lookupAnswers c (rdUsername data) w cn [e] w3 ->
              (ldap.DN e <> ldap.DN (rdEntry data) ->
               value (Refresh c s ident w)
               = (ident, Some (identityChanged data e)))
              /\ (ldap.DN e = ldap.DN (rdEntry data) ->
                  forall i err,
                    identityFromEntry c e = (i, Some err) ->
                    value (Refresh c s ident w) = (ident, Some err))
              /\ (ldap.DN e = ldap.DN (rdEntry data) ->
                  forall i grps err,
                    identityFromEntry c e = (i, None) ->
                    connector.Scopes.Groups s = true ->
                    value (groups c e (conn_Close cn w3)) = (grps, Some err) ->
                    value (Refresh c s ident w)
                    = (connector.zeroIdentity, Some (groupsFailed err)))))
  /\ (forall r err,
        value (Refresh c s ident w) = (r, Some err) ->
        (r = ident /\ forall e, err <> groupsFailed e)
        \/ (r = connector.zeroIdentity /\ exists e, err = groupsFailed e)).
Proof.
  split; [|split].
  - intros e He. now rewrite (Refresh_decode_fails _ _ _ _ _ He).
  - intros data Hdec. split; [|split].
    + intros user e Hv. now apply Refresh_session_fails with (data := data) (user := user).
    + intros cn w3 Hla.
      now apply Refresh_user_not_found with (data := data) (cn := cn) (w3 := w3).
    + intros cn e w3 Hla.
      rewrite (Refresh_user_found c s ident data w w3 cn e Hdec Hla).
      unfold Refresh_found. split; [|split].
      * intros Hdn. apply String.eqb_neq in Hdn. now rewrite Hdn.
      * intros Hdn i err Hid. apply String.eqb_eq in Hdn. now rewrite Hdn, Hid.
      * intros Hdn i grps err Hid Hg Hgroups. apply String.eqb_eq in Hdn.
        now rewrite Hdn, Hid, Hg, Hgroups.
  - intros r err H.
    destruct (json_Unmarshal (connector.ConnectorData ident)) as [data|e] eqn:Hdec.
    + destruct (Refresh_session_outcome c data w)
        as [(user & e & Hv & Hle) | (cn & e & w3 & Hla & Hdo)].
      * rewrite (Refresh_session_fails _ _ _ _ _ _ _ Hdec Hv) in H.
        injection H as <- <-. left. split; [reflexivity|].
        intros e0 ->. inversion Hle.
      * rewrite (Refresh_session_finds _ _ _ _ _ _ _ _ Hdec Hdo) in H.
        unfold Refresh_found in H.
        destruct (negb (ldap.DN e =? ldap.DN (rdEntry data))).
        { injection H as <- <-. left. split; [reflexivity|]. discriminate. }
        destruct (identityFromEntry c e) as [newIdent [ie|]] eqn:Hid.
        { injection H as <- <-. left. split; [reflexivity|].
          rewrite (identityFromEntry_error _ _ _ _ Hid). discriminate. }
        destruct (connector.Scopes.Groups s); [|discriminate H].
        destruct (value (groups c e (conn_Close cn w3))) as [grps [ge|]];
          [|discriminate H].
        injection H as <- <-. right. eauto.
    + rewrite (Refresh_decode_fails _ _ _ _ _ Hdec) in H.
      injection H as <- <-. left. split; [reflexivity|]. discriminate.
Qed.

End RefreshFacts.

Lemma Refresh_user_vanished_or_changed_witness :
  (value (@Refresh Scripted.directory Scripted.exampleConnector
            (connector.Scopes.mk true true) Scripted.nobodyIdentity
            Scripted.exampleWorld)
   = (Scripted.nobodyIdentity, Some (userNotFound "nobody"))
   /\ forall password,
       value (@Login Scripted.directory Scripted.exampleConnector
                (connector.Scopes.mk true true) "nobody" password
                Scripted.exampleWorld)
       = (connector.zeroIdentity, false, None))
  /\ value (@Refresh Scripted.directory Scripted.exampleConnector
              (connector.Scopes.mk true true) (Scripted.janeIdentity Scripted.john)
              Scripted.exampleWorld)
     = (Scripted.janeIdentity Scripted.john,
        Some (identityChanged (mkRefreshData "jane" Scripted.john) Scripted.jane)).
Proof.
  split.
  - apply (proj1 (@Refresh_user_vanished_or_changed Scripted.directory
                    Scripted.exampleConnector (connector.Scopes.mk true true)
                    Scripted.nobodyIdentity (mkRefreshData "nobody" ldap.zeroEntry)
                    Scripted.exampleWorld 0 []
                    (Scripted.connected Scripted.exampleWorld) eq_refl
                    (ex_intro _ (Scripted.connected Scripted.exampleWorld)
                       (conj (ex_intro _ (Scripted.connected Scripted.exampleWorld)
                                (conj eq_refl eq_refl)) eq_refl)))).
    reflexivity.
  - apply (proj2 (@Refresh_user_vanished_or_changed Scripted.directory
                    Scripted.exampleConnector (connector.Scopes.mk true true)
                    (Scripted.janeIdentity Scripted.john)
                    (mkRefreshData "jane" Scripted.john)
                    Scripted.exampleWorld 0 [Scripted.jane]
                    (Scripted.connected Scripted.exampleWorld) eq_refl
                    (ex_intro _ (Scripted.connected Scripted.exampleWorld)
                       (conj (ex_intro _ (Scripted.connected Scripted.exampleWorld)
                                (conj eq_refl eq_refl)) eq_refl)))).
    + reflexivity.
    + intros H. discriminate H.
Defined.

Lemma groups_all_or_nothing_witness :
  value (@groups Scripted.directory Scripted.exampleConnector Scripted.jane
           Scripted.exampleWorld)
  = (["admins"; "developers"], None)
  /\ value (@groups Scripted.directory Scripted.exampleConnector Scripted.jane
              (Scripted.worldWithGroups []))
     = ([], None)
  /\ (exists g,
        In g [Scripted.group "admins" ["jane"]; Scripted.unnamedGroup]
        /\ groupName Scripted.exampleConnector g = ""
        /\ value (@groups Scripted.directory Scripted.exampleConnector
                    Scripted.jane
                    (Scripted.worldWithGroups
                       [Scripted.group "admins" ["jane"]; Scripted.unnamedGroup]))
           = ([], Some (missingGroupName Scripted.exampleConnector g))).
Proof.
  split; [|split].
  - apply (proj2 (proj2 (@groups_all_or_nothing Scripted.directory
                           Scripted.exampleConnector Scripted.jane
                           Scripted.exampleWorld
                           (Scripted.connected Scripted.exampleWorld)
                           (Scripted.connected Scripted.exampleWorld) 0
                           [Scripted.group "admins" ["jane"];
                            Scripted.group "developers" ["jane"; "john"]]
                           (ex_intro _ (Scripted.connected Scripted.exampleWorld)
                              (conj eq_refl eq_refl))
                           eq_refl))).
    intros g [<-|[<-|[]]]; discriminate.
  - apply (proj1 (proj2 (@groups_all_or_nothing Scripted.directory
                           Scripted.exampleConnector Scripted.jane
                           (Scripted.worldWithGroups [])
                           (Scripted.connected (Scripted.worldWithGroups []))
                           (Scripted.connected (Scripted.worldWithGroups [])) 0
                           []
                           (ex_intro _
                              (Scripted.connected (Scripted.worldWithGroups []))
                              (conj eq_refl eq_refl))
                           eq_refl))).
    reflexivity.
  - apply (proj1 (@groups_all_or_nothing Scripted.directory
                    Scripted.exampleConnector Scripted.jane
                    (Scripted.worldWithGroups
                       [Scripted.group "admins" ["jane"]; Scripted.unnamedGroup])
                    (Scripted.connected
                       (Scripted.worldWithGroups
                          [Scripted.group "admins" ["jane"];
                           Scripted.unnamedGroup]))
                    (Scripted.connected
                       (Scripted.worldWithGroups
                          [Scripted.group "admins" ["jane"];
                           Scripted.unnamedGroup])) 0
                    [Scripted.group "admins" ["jane"]; Scripted.unnamedGroup]
                    (ex_intro _
                       (Scripted.connected
                          (Scripted.worldWithGroups
                             [Scripted.group "admins" ["jane"];
                              Scripted.unnamedGroup]))
                       (conj eq_refl eq_refl))
                    eq_refl)).
    exists Scripted.unnamedGroup. split; [right; now left | reflexivity].
Defined.

Lemma Refresh_error_identity_not_uniform_witness :
  value (@Refresh Scripted.directory Scripted.exampleConnector
           (connector.Scopes.mk true true) Scripted.corruptIdentity
           Scripted.exampleWorld)
  = (Scripted.corruptIdentity, Some (stateCorrupt json.syntaxError))
  /\ value (@Refresh Scripted.directory Scripted.exampleConnector
              (connector.Scopes.mk true true)
              (Scripted.janeIdentity Scripted.jane)
              (Scripted.worldWithGroups [Scripted.unnamedGroup]))
     = (connector.zeroIdentity,
        Some (groupsFailed
                (missingGroupName Scripted.exampleConnector
                   Scripted.unnamedGroup))).
Proof.
  split.
  - apply (proj1 (@Refresh_error_identity_not_uniform Scripted.directory
                    Scripted.exampleConnector (connector.Scopes.mk true true)
                    Scripted.corruptIdentity Scripted.exampleWorld)).
    reflexivity.
  - pose proof (@Refresh_error_identity_not_uniform Scripted.directory
                  Scripted.exampleConnector (connector.Scopes.mk true true)
                  (Scripted.janeIdentity Scripted.jane)
                  (Scripted.worldWithGroups [Scripted.unnamedGroup]))
      as [_ [H _]].
    destruct (H (mkRefreshData "jane" Scripted.jane) eq_refl) as [_ [_ Hfound]].
    destruct (Hfound 0 Scripted.jane
                (Scripted.connected
                   (Scripted.worldWithGroups [Scripted.unnamedGroup])))
      as [_ [_ Hgroups]].
    { exists (Scripted.connected
                (Scripted.worldWithGroups [Scripted.unnamedGroup])).
      split; [|reflexivity].
      exists (Scripted.connected
                (Scripted.worldWithGroups [Scripted.unnamedGroup])).
      split; reflexivity. }
    apply (Hgroups eq_refl
             (connector.mkIdentity "jane" "Jane Doe" "janedoe@example.com" [] "")
             []
             (missingGroupName Scripted.exampleConnector Scripted.unnamedGroup));
      reflexivity.
Defined.

(** ** The connection of the credential bind *)

Section BindFacts.

Context {D : Directory}.

Lemma Login_events (c : ldapConnector) (s : connector.Scopes.t)
  (username password : string) (w : world) :
  let r := do c (Login_closure c username password) (false, ldap.zeroEntry) w in
  events (Login c s username password w) = events r
  \/ events (Login c s username password w)
     = (events r ++ events (groups c (snd (fst (value r))) (after r)))%list.
Proof.
  unfold Login, bind, ret, events, value, after.
  destruct (do c _ _ w) as [[[[ip user] err] w'] t]. simpl.
  destruct err as [e|]; simpl; [left; apply app_nil_r|].
  destruct ip; simpl; [left; apply app_nil_r|].
  destruct (identityFromEntry c user) as [ident [e|]]; simpl;
    [left; apply app_nil_r|].
  destruct (connector.Scopes.Groups s); simpl.
  - right. destruct (groups c user w') as [[[grps [ge|]] w''] t'']; simpl.
    + now rewrite !app_nil_r.
    + destruct (connector.Scopes.OfflineAccess s); simpl;
        [destruct (json_Marshal _)|]; simpl; now rewrite !app_nil_r.
  - left. destruct (connector.Scopes.OfflineAccess s); simpl;
      [destruct (json_Marshal _)|]; simpl; now rewrite !app_nil_r.
Qed.

(** C8, as the code has it: the bind with the end user's credentials is a
    bind step of its own, made on the connection of the session: when the
    user lookup of [Login] finds exactly one entry, the events of [Login]
    begin with the dial of a connection, the service-account bind on it,
    the user search on it, the bind as the found entry's distinguished name
    with the supplied password on that same connection, and its close; what
    follows is nothing, or the session of the group search. *)
Theorem Login_credential_bind_on_session_connection
  (c : ldapConnector) (s : connector.Scopes.t) (username password : string)
  (w w3 : world) (cn : conn) (e : ldap.Entry) :
  lookupAnswers c username w cn [e] w3 ->
  exists rest,
    events (Login c s username password w)
    = ([dialEvent c (Some cn); serviceBind c cn;
        EvSearch cn (userSearchRequest c username);
        userBind cn e password; EvClose cn] ++ rest)%list
    /\ (rest = []
        \/ rest = events (groups c e
                            (conn_Close cn
                               (snd (conn_Bind cn (ldap.DN e) password w3))))).
Proof.
  intros (w2 & Hopen & Hsearch).
  pose proof (Login_events c s username password w) as H. cbv zeta in H.
  rewrite (do_session _ _ _ _ _ _ Hopen) in H.
  rewrite (Login_closure_found _ _ _ _ _ _ _ _ Hsearch) in H.
  unfold events, value, after in H. simpl in H.
  destruct H as [H|H].
  - exists []. split; [now rewrite app_nil_r | now left].
  - eexists. split; [exact H|]. right.
    destruct (conn_Bind cn (ldap.DN e) password w3) as [[err|] w4]; simpl;
      [destruct (isInvalidCredentials err)|]; reflexivity.
Qed.

End BindFacts.

(** C8, as the claim states it, fails: in this login the service account
    and the end user bind on the same connection, number 0. *)
Lemma Login_rebinds_the_session_connection :
  ~ @bindsOnSeparateConnections Scripted.directory Scripted.exampleConnector
      Scripted.jane "foo"
      (events (@Login Scripted.directory Scripted.exampleConnector
                 (connector.Scopes.mk false false) "jane" "foo"
                 Scripted.exampleWorld)).
Proof.
  intros H. apply (H 0 0); [right; left | do 3 right; left | idtac]; reflexivity.
Qed.

Lemma Login_credential_bind_on_session_connection_witness :
  exists rest,
    events (@Login Scripted.directory Scripted.exampleConnector
              (connector.Scopes.mk true false) "jane" "foo" Scripted.exampleWorld)
    = ([@dialEvent Scripted.directory Scripted.exampleConnector (Some 0);
        @serviceBind Scripted.directory Scripted.exampleConnector 0;
        EvSearch 0 (userSearchRequest Scripted.exampleConnector "jane");
        @userBind Scripted.directory 0 Scripted.jane "foo"; EvClose 0] ++ rest)%list
    /\ (rest = []
        \/ rest = events (@groups Scripted.directory Scripted.exampleConnector
                            Scripted.jane
                            (Scripted.answerClose 0
                               (Scripted.connected Scripted.exampleWorld)))).
Proof.
  apply (@Login_credential_bind_on_session_connection Scripted.directory
           Scripted.exampleConnector (connector.Scopes.mk true false)
           "jane" "foo" Scripted.exampleWorld
           (Scripted.connected Scripted.exampleWorld) 0 Scripted.jane).
  exists (Scripted.connected Scripted.exampleWorld). split; [|reflexivity].
  exists (Scripted.connected Scripted.exampleWorld). split; reflexivity.
Defined.

(** ** FilterBuilder *)

Lemma append_assoc (a b c : string) : (a ++ b) ++ c = a ++ (b ++ c).
Proof. induction a as [|x a IH]; simpl; [reflexivity|now rewrite IH]. Qed.

Lemma EscapeFilter_char (c : ascii) (v : string) :
  assertionValue.decode (ldap.EscapeFilter (String c EmptyString) ++ v)
  = match assertionValue.decode v with
    | Some d => Some (String c d)
    | None => None
    end
  /\ assertionValue.inert (ldap.EscapeFilter (String c EmptyString) ++ v)
     = assertionValue.inert v.
Proof.
  destruct c as [[] [] [] [] [] [] [] []]; split; reflexivity.
Qed.

Lemma EscapeFilter_cons (c : ascii) (s : string) :
  ldap.EscapeFilter (String c s)
  = ldap.EscapeFilter (String c EmptyString) ++ ldap.EscapeFilter s.
Proof. simpl. destruct (ldap.mustEscape c); reflexivity. Qed.

Lemma EscapeFilter_literal (s : string) :
  assertionValue.decode (ldap.EscapeFilter s) = Some s
  /\ assertionValue.inert (ldap.EscapeFilter s) = true.
Proof.
  induction s as [|c s [IHd IHi]]; [split; reflexivity|].
  rewrite EscapeFilter_cons.
  destruct (EscapeFilter_char c (ldap.EscapeFilter s)) as [-> ->].
  now rewrite IHd.
Qed.

(** C5: the filter of the search that [userEntry] sends is the username
    attribute, an equals sign and the escaped username in parentheses when
    no base filter is configured, and the conjunction of the base filter
    and that clause when one is; the filter of the search that [groups]
    sends is built the same way from the group attribute and the user's
    link value; and the escaped text of any value has no parenthesis,
    asterisk or NUL in it and is read back by the directory as exactly the
    bytes of the value. *)
Theorem search_filters_escape_their_operand :
  (forall (D : Directory) (c : ldapConnector) (cn : conn) (username : string)
          (w : world),
      exists req,
        events (userEntry c cn username w) = [EvSearch cn req]
        /\ (UserSearch.Filter (userSearch (config c)) = "" ->
            ldap.SearchRequest.Filter req
            = "(" ++ UserSearch.Username (userSearch (config c)) ++ "="
                  ++ ldap.EscapeFilter username ++ ")")
        /\ (UserSearch.Filter (userSearch (config c)) <> "" ->
            ldap.SearchRequest.Filter req
            = "(&" ++ UserSearch.Filter (userSearch (config c))
                   ++ "(" ++ UserSearch.Username (userSearch (config c)) ++ "="
                   ++ ldap.EscapeFilter username ++ "))"))
  /\ (forall (D : Directory) (c : ldapConnector) (user : ldap.Entry)
             (w w2 : world) (cn : conn),
        sessionOpens c w cn w2 ->
        exists req,
          In (EvSearch cn req) (events (groups c user w))
          /\ (GroupSearch.Filter (groupSearch (config c)) = "" ->
              ldap.SearchRequest.Filter req
              = "(" ++ GroupSearch.GroupAttr (groupSearch (config c)) ++ "="
                    ++ ldap.EscapeFilter
                         (getAttr user (GroupSearch.UserAttr (groupSearch (config c))))
                    ++ ")")
          /\ (GroupSearch.Filter (groupSearch (config c)) <> "" ->
              ldap.SearchRequest.Filter req
              = "(&" ++ GroupSearch.Filter (groupSearch (config c))
                     ++ "(" ++ GroupSearch.GroupAttr (groupSearch (config c))
                     ++ "="
                     ++ ldap.EscapeFilter
                          (getAttr user
                             (GroupSearch.UserAttr (groupSearch (config c))))
                     ++ "))"))
  /\ (forall value,
        assertionValue.inert (ldap.EscapeFilter value) = true
        /\ assertionValue.decode (ldap.EscapeFilter value) = Some value).
Proof.
  split; [|split].
  - intros D c cn username w. exists (userSearchRequest c username).
    rewrite userEntry_eq. split; [reflexivity|].
    unfold userSearchRequest, userFilter; simpl. split.
    + intros ->. reflexivity.
    + intros H. apply String.eqb_neq in H. rewrite H. simpl.
      repeat (rewrite append_assoc; simpl). reflexivity.
  - intros D c user w w2 cn Hopen. exists (groupSearchRequest c user). split.
    + unfold groups, bind. rewrite (do_session _ _ _ _ _ _ Hopen).
      unfold connSearch, bind, ret, events.
      destruct (conn_Search cn (groupSearchRequest c user) w2) as [[es|err] w3];
        simpl; auto.
    + unfold groupSearchRequest, groupFilter; simpl. split.
      * intros ->. reflexivity.
      * intros H. apply String.eqb_neq in H. rewrite H. simpl.
        repeat (rewrite append_assoc; simpl). reflexivity.
  - intros value. destruct (EscapeFilter_literal value). auto.
Qed.

Lemma search_filters_escape_their_operand_witness :
  exists req,
    events (@userEntry Scripted.directory Scripted.exampleConnector 0
              "j*)(uid=*" Scripted.exampleWorld)
    = [EvSearch 0 req]
    /\ ldap.SearchRequest.Filter req
       = "(&(objectClass=person)(uid=j\2a\29\28uid=\2a))".
Proof.
  destruct (proj1 search_filters_escape_their_operand Scripted.directory
              Scripted.exampleConnector 0 "j*)(uid=*" Scripted.exampleWorld)
    as [req [Hev [_ Hfilter]]].
  exists req. split; [exact Hev|].
  apply Hfilter. discriminate.
Defined.

(** ** RefreshStateCodec *)

(** One ASCII byte: what the encoder writes for it is read back as it. *)
Lemma json_ascii_step (c : ascii) (X : string) :
  (byte_of c <? 0x80)%N = true ->
  json.unquoteBody
    ((if json.plain c then String c "" else json.escapeByte c) ++ X)
  = json.prepend (String c "") (json.unquoteBody X).
Proof.
  destruct c as [[] [] [] [] [] [] [] []]; intros H;
    try discriminate H; reflexivity.
Qed.

Lemma json_high_byte (c : ascii) :
  (byte_of c <? 0x80)%N = false ->
  (c =? json.quote)%char = false /\ (c =? "\")%char = false
  /\ (byte_of c <? 0x20)%N = false.
Proof.
  destruct c as [[] [] [] [] [] [] [] []]; intros H;
    try discriminate H; repeat split; reflexivity.
Qed.

Lemma unquoteBody_high (c : ascii) (r : string) :
  (byte_of c <? 0x80)%N = false ->
  json.unquoteBody (String c r)
  = match utf8.runeLen (String c r), r with
    | 2, String c1 r1 =>
        json.prepend (String c (String c1 "")) (json.unquoteBody r1)
    | 3, String c1 (String c2 r2) =>
        json.prepend (String c (String c1 (String c2 "")))
          (json.unquoteBody r2)
    | 4, String c1 (String c2 (String c3 r3)) =>
        json.prepend (String c (String c1 (String c2 (String c3 ""))))
          (json.unquoteBody r3)
    | _, _ =>
        json.prepend (utf8.EncodeRune utf8.RuneError) (json.unquoteBody r)
    end.
Proof.
  intros H. destruct (json_high_byte c H) as (Hq & Hb & Hc).
  cbn [json.unquoteBody]. rewrite Hq, Hb, Hc, H. reflexivity.
Qed.

Lemma stringBody_high (c : ascii) (r : string) :
  (byte_of c <? 0x80)%N = false ->
  json.stringBody (String c r)
  = match utf8.runeLen (String c r), r with
    | 2, String c1 r1 => String c (String c1 (json.stringBody r1))
    | 3, String c1 (String c2 r2) =>
        if json.isLineSep c c1 c2 then
          "\u202" ++ String (json.hexDigit (N.land (byte_of c2) 0xF))
                       (json.stringBody r2)
        else String c (String c1 (String c2 (json.stringBody r2)))
    | 4, String c1 (String c2 (String c3 r3)) =>
        String c (String c1 (String c2 (String c3 (json.stringBody r3))))
    | _, _ => json.replacementEscape ++ json.stringBody r
    end.
Proof. intros H. cbn [json.stringBody]. rewrite H. reflexivity. Qed.

Lemma stringBody_low (c : ascii) (r : string) :
  (byte_of c <? 0x80)%N = true ->
  json.stringBody (String c r)
  = (if json.plain c then String c "" else json.escapeByte c)
      ++ json.stringBody r.
Proof.
  intros H. cbn [json.stringBody]. rewrite H.
  destruct (json.plain c); reflexivity.
Qed.

Lemma runeLen_low (c : ascii) (r : string) :
  utf8.runeLen (String c r) = 1%nat <-> (byte_of c <? 0x80)%N = true.
Proof.
  unfold utf8.runeLen. destruct (byte_of c <? 0x80)%N; [tauto|].
  split; [|discriminate].
  repeat match goal with
         | |- context [if ?b then _ else _] => destruct b
         | |- context [match ?x with _ => _ end] => destruct x
         end; discriminate.
Qed.

Ltac rune_cases :=
  repeat match goal with
         | |- context [if ?b then _ else _] => destruct b
         | |- context [match ?x with EmptyString => _ | String _ _ => _ end] =>
             destruct x
         end;
  try (intros H; discriminate H); auto.

(** The size of a rune depends on its own bytes only. *)
Lemma runeLen_2 (c c1 : ascii) (r X : string) :
  utf8.runeLen (String c (String c1 r)) = 2%nat ->
  utf8.runeLen (String c (String c1 X)) = 2%nat.
Proof.
  unfold utf8.runeLen. rune_cases.
Qed.

Lemma runeLen_3 (c c1 c2 : ascii) (r X : string) :
  utf8.runeLen (String c (String c1 (String c2 r))) = 3%nat ->
  utf8.runeLen (String c (String c1 (String c2 X))) = 3%nat.
Proof.
  unfold utf8.runeLen. rune_cases.
Qed.

Lemma runeLen_4 (c c1 c2 c3 : ascii) (r X : string) :
  utf8.runeLen (String c (String c1 (String c2 (String c3 r)))) = 4%nat ->
  utf8.runeLen (String c (String c1 (String c2 (String c3 X)))) = 4%nat.
Proof.
  unfold utf8.runeLen. rune_cases.
Qed.

Lemma byte_of_eq (c : ascii) (n : N) :
  (byte_of c =? n)%N = true -> c = ascii_of_N n.
Proof.
  intros H. apply N.eqb_eq in H. rewrite <- H. unfold byte_of.
  symmetry. apply ascii_N_embedding.
Qed.

Lemma json_lineSep_step (c c1 c2 : ascii) (X : string) :
  json.isLineSep c c1 c2 = true ->
  json.unquoteBody
    ("\u202" ++ String (json.hexDigit (N.land (byte_of c2) 0xF)) X)
  = json.prepend (String c (String c1 (String c2 ""))) (json.unquoteBody X).
Proof.
  unfold json.isLineSep. intros H.
  apply andb_true_iff in H. destruct H as [H H2].
  apply andb_true_iff in H. destruct H as [H0 H1].
  apply byte_of_eq in H0, H1. subst c c1.
  apply orb_true_iff in H2. destruct H2 as [H2|H2];
    apply byte_of_eq in H2; subst c2; reflexivity.
Qed.

Lemma json_invalid_step (X : string) :
  json.unquoteBody (json.replacementEscape ++ X)
  = json.prepend (utf8.EncodeRune utf8.RuneError) (json.unquoteBody X).
Proof. reflexivity. Qed.

Lemma runeLen_high (c : ascii) (r : string) :
  utf8.runeLen (String c r) <> 1%nat -> (byte_of c <? 0x80)%N = false.
Proof.
  intros H. destruct (byte_of c <? 0x80)%N eqn:E; [|reflexivity].
  apply runeLen_low with (r := r) in E. contradiction.
Qed.

(** A string literal is read back as the string, with U+FFFD in the place
    of every byte that is not valid UTF-8. *)
Lemma unquoteBody_stringBody (n : nat) :
  forall s rest,
    (String.length s <= n)%nat ->
    json.unquoteBody (json.stringBody s ++ String json.quote rest)
    = Some (coerceUTF8 s, rest).
Proof.
  induction n as [|n IH]; intros s rest Hlen.
  - destruct s; [reflexivity | simpl in Hlen; lia].
  - destruct s as [|c r]; [reflexivity|].
    assert (Hfallback :
              (byte_of c <? 0x80)%N = false ->
              json.unquoteBody
                ((json.replacementEscape ++ json.stringBody r)
                   ++ String json.quote rest)
              = Some (utf8.EncodeRune utf8.RuneError ++ coerceUTF8 r, rest)).
    { intros _. rewrite append_assoc, json_invalid_step.
      rewrite IH; [reflexivity | simpl in Hlen; lia]. }
    cbn [coerceUTF8].
    destruct (utf8.runeLen (String c r)) as [|[|[|[|[|k]]]]] eqn:HL.
    + (* no rune starts here *)
      assert (Hhigh : (byte_of c <? 0x80)%N = false)
        by (apply runeLen_high with (r := r); congruence).
      rewrite (stringBody_high c _ Hhigh), HL. now apply Hfallback.
    + (* one byte *)
      apply runeLen_low in HL.
      rewrite (stringBody_low c r HL), append_assoc, (json_ascii_step c _ HL).
      rewrite IH; [reflexivity | simpl in Hlen; lia].
    + (* two bytes *)
      assert (Hhigh : (byte_of c <? 0x80)%N = false)
        by (apply runeLen_high with (r := r); congruence).
      rewrite (stringBody_high c _ Hhigh), HL.
      destruct r as [|c1 r1]; [now apply Hfallback|].
      cbn [append]. rewrite (unquoteBody_high c _ Hhigh).
      rewrite (runeLen_2 c c1 r1 _ HL).
      rewrite IH; [reflexivity | simpl in Hlen; lia].
    + (* three bytes *)
      assert (Hhigh : (byte_of c <? 0x80)%N = false)
        by (apply runeLen_high with (r := r); congruence).
      rewrite (stringBody_high c _ Hhigh), HL.
      destruct r as [|c1 [|c2 r2]]; try now apply Hfallback.
      destruct (json.isLineSep c c1 c2) eqn:Hsep.
      * rewrite append_assoc. cbn [append].
        change (String "\" (String "u" (String "2" (String "0" (String "2"
                 (String (json.hexDigit (N.land (byte_of c2) 15))
                    (json.stringBody r2 ++ String json.quote rest)))))))
          with ("\u202" ++ String (json.hexDigit (N.land (byte_of c2) 0xF))
                             (json.stringBody r2 ++ String json.quote rest)).
        rewrite (json_lineSep_step c c1 c2 _ Hsep).
        rewrite IH; [reflexivity | simpl in Hlen; lia].
      * cbn [append]. rewrite (unquoteBody_high c _ Hhigh).
        rewrite (runeLen_3 c c1 c2 r2 _ HL).
        rewrite IH; [reflexivity | simpl in Hlen; lia].
    + (* four bytes *)
      assert (Hhigh : (byte_of c <? 0x80)%N = false)
        by (apply runeLen_high with (r := r); congruence).
      rewrite (stringBody_high c _ Hhigh), HL.
      destruct r as [|c1 [|c2 [|c3 r3]]]; try now apply Hfallback.
      cbn [append]. rewrite (unquoteBody_high c _ Hhigh).
      rewrite (runeLen_4 c c1 c2 c3 r3 _ HL).
      rewrite IH; [reflexivity | simpl in Hlen; lia].
    + (* no rune is longer *)
      assert (Hhigh : (byte_of c <? 0x80)%N = false)
        by (apply runeLen_high with (r := r); congruence).
      rewrite (stringBody_high c _ Hhigh), HL. now apply Hfallback.
Qed.

Lemma length_append (a b : string) :
  String.length (a ++ b) = (String.length a + String.length b)%nat.
Proof. induction a as [|x a IH]; simpl; [reflexivity|now rewrite IH]. Qed.

Lemma coerceUTF8_length (n : nat) :
  forall s,
    (String.length s <= n)%nat ->
    (String.length s <= String.length (coerceUTF8 s))%nat.
Proof.
  induction n as [|n IH]; intros s Hlen.
  - destruct s; [simpl; lia | simpl in Hlen; lia].
  - destruct s as [|c r]; [simpl; lia|].
    assert (Hfallback :
              (String.length (String c r)
               <= String.length (utf8.EncodeRune utf8.RuneError ++ coerceUTF8 r))%nat).
    { rewrite length_append. specialize (IH r). simpl in *. lia. }
    cbn [coerceUTF8].
    destruct (utf8.runeLen (String c r)) as [|[|[|[|[|k]]]]]; try exact Hfallback.
    + specialize (IH r). simpl in *. lia.
    + destruct r as [|c1 r1]; [exact Hfallback|].
      specialize (IH r1). simpl in *. lia.
    + destruct r as [|c1 [|c2 r2]]; try exact Hfallback.
      specialize (IH r2). simpl in *. lia.
    + destruct r as [|c1 [|c2 [|c3 r3]]]; try exact Hfallback.
      specialize (IH r3). simpl in *. lia.
Qed.

(** The codec leaves a string as it is exactly when it is valid UTF-8. *)
Lemma coerceUTF8_fixed (n : nat) :
  forall s,
    (String.length s <= n)%nat ->
    (coerceUTF8 s = s <-> utf8.ValidString s = true).
Proof.
  induction n as [|n IH]; intros s Hlen.
  - destruct s; [simpl; tauto | simpl in Hlen; lia].
  - destruct s as [|c r]; [simpl; tauto|].
    assert (Hfallback :
              utf8.EncodeRune utf8.RuneError ++ coerceUTF8 r = String c r <->
              false = true).
    { split; [|discriminate]. intros H.
      apply (f_equal String.length) in H. rewrite length_append in H.
      pose proof (coerceUTF8_length (String.length r) r (le_n _)).
      simpl in H. lia. }
    cbn [coerceUTF8 utf8.ValidString].
    destruct (utf8.runeLen (String c r)) as [|[|[|[|[|k]]]]]; try exact Hfallback.
    + rewrite <- (IH r) by (simpl in Hlen; lia).
      split; [intros H; now injection H | intros ->; reflexivity].
    + destruct r as [|c1 r1]; [exact Hfallback|].
      rewrite <- (IH r1) by (simpl in Hlen; lia).
      split; [intros H; now injection H | intros ->; reflexivity].
    + destruct r as [|c1 [|c2 r2]]; try exact Hfallback.
      rewrite <- (IH r2) by (simpl in Hlen; lia).
      split; [intros H; now injection H | intros ->; reflexivity].
    + destruct r as [|c1 [|c2 [|c3 r3]]]; try exact Hfallback.
      rewrite <- (IH r3) by (simpl in Hlen; lia).
      split; [intros H; now injection H | intros ->; reflexivity].
Qed.

Lemma coerceUTF8_valid (s : string) :
  coerceUTF8 s = s <-> utf8.ValidString s = true.
Proof. apply (coerceUTF8_fixed (String.length s)). apply le_n. Qed.

Lemma expect_append (p X : string) : json.expect p (p ++ X) = Some X.
Proof.
  induction p as [|a p IH]; simpl; [now destruct X|].
  now rewrite Ascii.eqb_refl.
Qed.

Lemma expect_append2 (p q X : string) :
  json.expect (p ++ q) (p ++ q ++ X) = Some X.
Proof. rewrite <- append_assoc. apply expect_append. Qed.

Lemma decodeString_encodeString (s X : string) :
  json.decodeString (json.encodeString s ++ X) = Some (coerceUTF8 s, X).
Proof.
  unfold json.encodeString, json.decodeString. cbn [append].
  rewrite Ascii.eqb_refl, append_assoc. cbn [append].
  now apply (unquoteBody_stringBody (String.length s)).
Qed.

Section Arrays.

Variable A : Type.
Variable elem : string -> option (A * string).
Variable enc : A -> string.
(* what an element is read back as *)
Variable back : A -> A.

Lemma elements_commaSep (l : list A) :
  forall (rest : string) (fuel : nat),
    (forall a X, In a l -> elem (enc a ++ X) = Some (back a, X)) ->
    l <> [] ->
    (length l <= fuel)%nat ->
    json.elements elem fuel (json.commaSep (map enc l) ++ String "]" rest)
    = Some (map back l, rest).
Proof.
  induction l as [|a l IH]; intros rest fuel Helem Hne Hfuel; [congruence|].
  destruct fuel as [|fuel]; [simpl in Hfuel; lia|].
  destruct l as [|b l].
  - cbn [map json.commaSep json.elements].
    rewrite (Helem a _ (or_introl eq_refl)). reflexivity.
  - change (json.commaSep (map enc (a :: b :: l)))
      with (enc a ++ "," ++ json.commaSep (map enc (b :: l))).
    rewrite !append_assoc. cbn [json.elements].
    rewrite (Helem a _ (or_introl eq_refl)). cbn [append].
    change (("," =? ",")%char) with true. cbn iota.
    rewrite IH; [reflexivity | | discriminate | simpl in *; lia].
    intros a' X Hin. apply Helem. now right.
Qed.

Lemma commaSep_length (l : list A) (X : string) :
  (forall a, In a l -> enc a <> "") ->
  (length l <= String.length (json.commaSep (map enc l) ++ X))%nat.
Proof.
  induction l as [|a l IH]; intros Hne; [simpl; lia|].
  assert (Ha : (1 <= String.length (enc a))%nat).
  { specialize (Hne a (or_introl eq_refl)). destruct (enc a); [congruence|].
    simpl. lia. }
  destruct l as [|b l].
  - cbn [map json.commaSep]. rewrite length_append. simpl. lia.
  - change (json.commaSep (map enc (a :: b :: l)))
      with (enc a ++ "," ++ json.commaSep (map enc (b :: l))).
    rewrite !append_assoc, length_append.
    specialize (IH (fun a' H => Hne a' (or_intror H))).
    cbn [append String.length]. cbn [length] in *. lia.
Qed.

Lemma decodeArray_encodeArray (l : list A) (rest : string) :
  (forall a X, In a l -> elem (enc a ++ X) = Some (back a, X)) ->
  (forall a, In a l ->
             exists c r, enc a = String c r /\ (c =? "]")%char = false) ->
  json.decodeArray elem (json.encodeArray (map enc l) ++ rest)
  = Some (map back l, rest).
Proof.
  intros Helem Hhead. destruct l as [|a l]; [reflexivity|].
  assert (Hne : forall a', In a' (a :: l) -> enc a' <> "").
  { intros a' Hin. destruct (Hhead a' Hin) as (c & r & -> & _). discriminate. }
  unfold json.encodeArray.
  change (map enc (a :: l)) with (enc a :: map enc l) at 1.
  cbv iota. rewrite !append_assoc.
  unfold json.decodeArray.
  change (json.expect "null" ("[" ++ json.commaSep (map enc (a :: l)) ++ "]" ++ rest))
    with (@None string).
  assert (Hnot : json.expect "[]"
                   ("[" ++ json.commaSep (map enc (a :: l)) ++ "]" ++ rest)
                 = None).
  { destruct (Hhead a (or_introl eq_refl)) as (c & r & Hc & Hclose).
    destruct l as [|b l]; cbn [map json.commaSep]; rewrite Hc;
      cbn [append json.expect]; rewrite Ascii.eqb_refl, Ascii.eqb_sym, Hclose;
      reflexivity. }
  rewrite Hnot. cbn [append json.expect]. rewrite Ascii.eqb_refl.
  change ("]" ++ rest) with (String "]" rest).
  apply elements_commaSep; [assumption | discriminate |].
  apply (commaSep_length (a :: l) (String "]" rest) Hne).
Qed.

Lemma map_fixed (l : list A) :
  map back l = l <-> forall a, In a l -> back a = a.
Proof.
  induction l as [|a l IH]; simpl; [split; [intros _ ? [] | reflexivity]|].
  split.
  - intros H. injection H as Ha Hl. intros a' [<-|Hin]; [assumption|].
    now apply IH.
  - intros H. rewrite (H a (or_introl eq_refl)). f_equal.
    apply IH. intros a' Hin. apply H. now right.
Qed.

End Arrays.

Lemma decodeAttribute_encodeAttribute (a : ldap.EntryAttribute) (X : string) :
  json.decodeAttribute (json.encodeAttribute a ++ X)
  = Some (coerceAttribute a, X).
Proof.
  unfold json.encodeAttribute, json.decodeAttribute, coerceAttribute.
  rewrite !append_assoc, expect_append2.
  rewrite decodeString_encodeString, expect_append2.
  rewrite (decodeArray_encodeArray _ _ _ coerceUTF8), expect_append;
    [reflexivity | |].
  - intros s Y _. apply decodeString_encodeString.
  - intros s _. unfold json.encodeString. eauto.
Qed.

Lemma decodeEntry_encodeEntry (e : ldap.Entry) (X : string) :
  json.decodeEntry (json.encodeEntry e ++ X) = Some (coerceEntry e, X).
Proof.
  unfold json.encodeEntry, json.decodeEntry, coerceEntry.
  rewrite !append_assoc, expect_append2.
  rewrite decodeString_encodeString, expect_append2.
  rewrite (decodeArray_encodeArray _ _ _ coerceAttribute), expect_append;
    [reflexivity | |].
  - intros a Y _. apply decodeAttribute_encodeAttribute.
  - intros a _. unfold json.encodeAttribute. cbn [append]. eauto.
Qed.

(** Decoding the encoding of a state gives the state with its strings
    coerced to valid UTF-8. *)
Lemma Unmarshal_Marshal (d : refreshData) :
  exists b, json.Marshal d = inl b /\ json.Unmarshal b = inl (coerceState d).
Proof.
  eexists. split; [reflexivity|].
  unfold json.Unmarshal, coerceState.
  rewrite expect_append2, decodeString_encodeString, expect_append2.
  rewrite decodeEntry_encodeEntry. cbn [append json.expect].
  rewrite Ascii.eqb_refl. reflexivity.
Qed.

Lemma coerceAttribute_valid (a : ldap.EntryAttribute) :
  coerceAttribute a = a <-> validAttribute a = true.
Proof.
  unfold coerceAttribute, validAttribute. destruct a as [name values]; simpl.
  rewrite andb_true_iff, forallb_forall, <- coerceUTF8_valid.
  split.
  - intros H. injection H as Hn Hv. split; [assumption|].
    intros v Hin. apply coerceUTF8_valid. revert v Hin. now apply map_fixed.
  - intros [Hn Hv]. rewrite Hn. f_equal. apply map_fixed.
    intros v Hin. apply coerceUTF8_valid. now apply Hv.
Qed.

Lemma coerceEntry_valid (e : ldap.Entry) :
  coerceEntry e = e <-> validEntry e = true.
Proof.
  unfold coerceEntry, validEntry. destruct e as [dn attrs]; simpl.
  rewrite andb_true_iff, forallb_forall, <- coerceUTF8_valid.
  split.
  - intros H. injection H as Hn Hv. split; [assumption|].
    intros a Hin. apply coerceAttribute_valid. revert a Hin. now apply map_fixed.
  - intros [Hn Hv]. rewrite Hn. f_equal. apply map_fixed.
    intros a Hin. apply coerceAttribute_valid. now apply Hv.
Qed.

Lemma coerceState_valid (d : refreshData) :
  coerceState d = d <-> validState d = true.
Proof.
  unfold coerceState, validState. destruct d as [username entry]; simpl.
  rewrite andb_true_iff, <- coerceUTF8_valid, <- coerceEntry_valid.
  split.
  - intros H. now injection H.
  - intros [-> ->]. reflexivity.
Qed.

(** C7, as the code has it: for every user name and entry whose strings
    (the user name, the distinguished name, the names and the values of
    the attributes) are valid UTF-8, encoding the refresh state and
    decoding the resulting bytes gives back exactly that user name and that
    entry. *)
Theorem refresh_state_round_trip (d : refreshData) :
  validState d = true -> roundTrips d.
Proof.
  intros H. apply coerceState_valid in H.
  destruct (Unmarshal_Marshal d) as [b [Hm Hu]].
  exists b. split; [assumption|]. now rewrite Hu, H.
Qed.

(** A state with a string that is not valid UTF-8 never comes back as it
    was. *)
Lemma round_trip_only_valid_utf8 (d : refreshData) :
  roundTrips d -> validState d = true.
Proof.
  intros [b [Hm Hu]]. destruct (Unmarshal_Marshal d) as [b' [Hm' Hu']].
  rewrite Hm in Hm'. injection Hm' as <-. rewrite Hu in Hu'.
  injection Hu' as H. now apply coerceState_valid.
Qed.

(** C7, as the claim states it, fails: a user name that is the single byte
    0xFF is written as the escape of U+FFFD and comes back as the three
    bytes of U+FFFD. *)
Lemma refresh_state_round_trip_fails_on_invalid_utf8 :
  (exists b,
      json.Marshal (mkRefreshData byteFF ldap.zeroEntry) = inl b
      /\ json.Unmarshal b
         = inl (mkRefreshData (utf8.EncodeRune utf8.RuneError) ldap.zeroEntry))
  /\ ~ roundTrips (mkRefreshData byteFF ldap.zeroEntry).
Proof.
  split.
  - eexists. split; reflexivity.
  - intros [b [Hm Hu]]. injection Hm as <-. vm_compute in Hu. discriminate Hu.
Qed.

Lemma refresh_state_round_trip_witness :
  roundTrips (mkRefreshData "jane" Scripted.jane).
Proof.
  apply (refresh_state_round_trip (mkRefreshData "jane" Scripted.jane)).
  reflexivity.
Defined.

(** ** Connector construction: what [OpenConnector] checks and builds *)

Section ConstructionFacts.

Context {D : Directory}.

Lemma firstMissingField_none (c : Config) :
  firstMissingField
    [("host", Host c);
     ("userSearch.baseDN", UserSearch.BaseDN (userSearch c));
     ("userSearch.username", UserSearch.Username (userSearch c))] = None
  <-> requiredFieldsSet c.
Proof.
  unfold requiredFieldsSet; simpl.
  destruct (Host c =? "") eqn:E1;
    destruct (UserSearch.BaseDN (userSearch c) =? "") eqn:E2;
    destruct (UserSearch.Username (userSearch c) =? "") eqn:E3;
    rewrite ?String.eqb_eq, ?String.eqb_neq in *;
    intuition (try discriminate; try congruence).
Qed.

Lemma firstMissingField_name (c : Config) (name : string) :
  firstMissingField
    [("host", Host c);
     ("userSearch.baseDN", UserSearch.BaseDN (userSearch c));
     ("userSearch.username", UserSearch.Username (userSearch c))] = Some name ->
  In name ["host"; "userSearch.baseDN"; "userSearch.username"].
Proof.
  simpl. repeat break_match; intros H; try discriminate H;
    injection H as <-; auto.
Qed.

Lemma length_zero (s : string) : (String.length s =? 0)%nat = true <-> s = "".
Proof. destruct s; simpl; split; intros H; try reflexivity; discriminate. Qed.

Lemma eqb_cases (s : string) :
  (s =? "") = true /\ s = "" \/ (s =? "") = false /\ s <> "".
Proof.
  destruct (s =? "") eqn:E; [left|right]; split; auto;
    [now apply String.eqb_eq | now apply String.eqb_neq].
Qed.

Lemma length_cases (s : string) :
  (String.length s =? 0)%nat = true /\ s = ""
  \/ (String.length s =? 0)%nat = false /\ s <> "".
Proof.
  destruct (String.length s =? 0)%nat eqn:E; [left|right];
    split; auto; [now apply length_zero|].
  intros Hd. apply length_zero in Hd. congruence.
Qed.

Lemma parseScope_ok (s : string) :
  snd (parseScope s) = true ->
  validScope s /\ fst (parseScope s) = scopeOf s.
Proof.
  unfold parseScope, validScope, scopeOf.
  destruct (s =? "") eqn:E1; [apply String.eqb_eq in E1; subst; simpl; auto|].
  destruct (s =? "sub") eqn:E2; [apply String.eqb_eq in E2; subst; simpl; auto|].
  destruct (s =? "one") eqn:E3; [apply String.eqb_eq in E3; subst; simpl; auto|].
  simpl. discriminate.
Qed.

Lemma parseScope_cases (s : string) :
  (validScope s /\ snd (parseScope s) = true)
  \/ (~ validScope s /\ snd (parseScope s) = false).
Proof.
  destruct (snd (parseScope s)) eqn:E.
  - left. split; [|reflexivity]. now apply parseScope_ok.
  - right. split; [|reflexivity]. intros Hv.
    destruct Hv as [-> | [-> | ->]]; discriminate E.
Qed.

(** Everything a call of [OpenConnector] that returns a connector went
    through. *)
Lemma OpenConnector_success (c : Config) (w : world) (c' : Config)
  (lc : ldapConnector) (e : option error) :
  value (OpenConnector c w) = (c', Some lc, e) ->
  e = None
  /\ requiredFieldsSet c
  /\ c' = withPort c
  /\ snd (parseScope (UserSearch.Scope (userSearch c))) = true
  /\ snd (parseScope (GroupSearch.Scope (groupSearch c))) = true
  /\ exists pool,
      poolFrom c w pool
      /\ lc = mkLdapConnector (withPort c)
                (fst (parseScope (UserSearch.Scope (userSearch c))))
                (fst (parseScope (GroupSearch.Scope (groupSearch c))))
                (tls.mk (serverName c) (InsecureSkipVerify c) pool).
Proof.
  unfold OpenConnector, poolFrom, withPort, serverName, defaultPort.
  destruct (firstMissingField _) eqn:Hreq; [discriminate|].
  apply firstMissingField_none in Hreq.
  unfold bind, ret, readFile, value.
  pose proof (eqb_cases (RootCA c)) as Hca.
  pose proof (length_cases (RootCAData c)) as Hdata.
  destruct (net_SplitHostPort (Host c)) as [[h p]|err];
    [|destruct (InsecureNoSSL c) eqn:Hssl];
    cbn [withHost userSearch groupSearch RootCA RootCAData InsecureSkipVerify];
    destruct (parseScope (UserSearch.Scope (userSearch c))) as [us [|]];
    destruct (parseScope (GroupSearch.Scope (groupSearch c))) as [gs [|]];
    destruct Hca as [[Hca Hca']|[Hca Hca']];
    destruct Hdata as [[Hdata Hdata']|[Hdata Hdata']];
    rewrite Hca, Hdata; cbn [negb orb fst snd];
    repeat (break_match; cbn [negb fst snd]);
    intros H; try discriminate H; injection H as <- <- <-;
    (do 5 (split; [solve [auto]|]));
    eexists; (split; [|reflexivity]);
    repeat match goal with
           | H : negb _ = false |- _ => apply negb_false_iff in H
           end;
    first [ left; solve [auto]
          | right; left; solve [auto]
          | right; right; solve [eauto 8] ].
Qed.

Lemma OpenConnector_failure (c : Config) (w : world) (c' : Config)
  (e : option error) :
  value (OpenConnector c w) = (c', None, e) -> exists err, e = Some err.
Proof.
  unfold OpenConnector, bind, ret, readFile, value.
  repeat (break_match; cbn [fst snd]);
    intros H; try discriminate H; injection H as _ <-; eauto.
Qed.

Lemma OpenConnector_config_after (c : Config) (w : world) :
  requiredFieldsSet c ->
  fst (fst (value (OpenConnector c w))) = withPort c.
Proof.
  intros Hreq. apply firstMissingField_none in Hreq.
  unfold OpenConnector, withPort, defaultPort. rewrite Hreq.
  unfold bind, ret, readFile, value.
  destruct (net_SplitHostPort (Host c)) as [[h p]|err];
    [|destruct (InsecureNoSSL c)];
    repeat (break_match; cbn [fst snd]); reflexivity.
Qed.

Lemma OpenConnector_inline_data_no_read (c : Config) (w : world) :
  RootCAData c <> "" \/ RootCA c = "" -> events (OpenConnector c w) = [].
Proof.
  intros H. unfold OpenConnector, bind, ret, readFile, events.
  destruct (firstMissingField _); [reflexivity|].
  destruct (net_SplitHostPort (Host c)) as [[h p]|err];
    [|destruct (InsecureNoSSL c)];
    cbn [withHost userSearch groupSearch RootCA RootCAData InsecureSkipVerify];
    destruct (eqb_cases (RootCA c)) as [[Hca Hca']|[Hca Hca']];
    destruct (length_cases (RootCAData c)) as [[Hd Hd']|[Hd Hd']];
    rewrite Hca, Hd; cbn [negb orb fst snd];
    try (destruct H; congruence);
    repeat (break_match; cbn [fst snd]); reflexivity.
Qed.

Lemma OpenConnector_reads_ca_file (c : Config) (w : world) :
  requiredFieldsSet c -> RootCAData c = "" -> RootCA c <> "" ->
  events (OpenConnector c w) = [EvReadFile (RootCA c)]
  /\ (forall err w1,
        ioutil_ReadFile (RootCA c) w = (inr err, w1) ->
        exists c', value (OpenConnector c w) = (c', None, Some (caUnreadable err)))
  /\ (forall data w1,
        ioutil_ReadFile (RootCA c) w = (inl data, w1) ->
        x509_AppendCertsFromPEM data = false ->
        exists c', value (OpenConnector c w) = (c', None, Some caWithoutCerts)).
Proof.
  intros Hreq Hd Hca. apply firstMissingField_none in Hreq.
  apply String.eqb_neq in Hca.
  unfold OpenConnector, bind, ret, readFile, events, value. rewrite Hreq.
  destruct (net_SplitHostPort (Host c)) as [[h p]|err];
    [|destruct (InsecureNoSSL c)];
    cbn [withHost userSearch groupSearch RootCA RootCAData InsecureSkipVerify];
    rewrite Hca, Hd; cbn [String.length Nat.eqb negb orb fst snd];
    (destruct (ioutil_ReadFile (RootCA c) w) as [[data|rerr] w1]; cbn [fst snd];
     [destruct (x509_AppendCertsFromPEM data) eqn:Hcerts; cbn [negb fst snd]|]);
    (split; [repeat (break_match; cbn [fst snd]); reflexivity|]);
    (split; [intros err' w1' Heq; try discriminate Heq;
             injection Heq as <- <-; eauto
            |intros data' w1' Heq Hno; try discriminate Heq;
             injection Heq as <- <-; try congruence; eauto]).
Qed.

Lemma OpenConnector_inline_without_certs (c : Config) (w : world) :
  requiredFieldsSet c -> RootCAData c <> "" ->
  x509_AppendCertsFromPEM (RootCAData c) = false ->
  exists c', value (OpenConnector c w) = (c', None, Some caWithoutCerts).
Proof.
  intros Hreq Hd Hno. apply firstMissingField_none in Hreq.
  destruct (length_cases (RootCAData c)) as [[Hl Hl']|[Hl Hl']]; [congruence|].
  unfold OpenConnector, bind, ret, readFile, events, value. rewrite Hreq.
  destruct (net_SplitHostPort (Host c)) as [[h p]|err];
    [|destruct (InsecureNoSSL c)];
    cbn [withHost userSearch groupSearch RootCA RootCAData InsecureSkipVerify];
    rewrite Hl, Hno, orb_true_r; cbn [negb fst snd]; eauto.
Qed.

(** X1: [OpenConnector] checks the host, the base DN of the user search
    and its username attribute, in this order; the first one that is empty
    ends the call with the error naming it, with no connector, before the
    configuration is changed and before any file is read. *)
Theorem OpenConnector_missing_required_field (c : Config) (w : world) :
  (Host c = "" ->
   OpenConnector c w = ((c, None, Some (missingRequiredField "host")), w, []))
  /\ (Host c <> "" -> UserSearch.BaseDN (userSearch c) = "" ->
      OpenConnector c w
      = ((c, None, Some (missingRequiredField "userSearch.baseDN")), w, []))
  /\ (Host c <> "" -> UserSearch.BaseDN (userSearch c) <> "" ->
      UserSearch.Username (userSearch c) = "" ->
      OpenConnector c w
      = ((c, None, Some (missingRequiredField "userSearch.username")), w, [])).
Proof.
  unfold OpenConnector, missingRequiredField; simpl. repeat split.
  - intros ->. reflexivity.
  - intros H1 H2. apply String.eqb_neq in H1. rewrite H1, H2. reflexivity.
  - intros H1 H2 H3. apply String.eqb_neq in H1, H2. rewrite H1, H2, H3.
    reflexivity.
Qed.

(** X2: [OpenConnector] returns either a connector or an error, never
    both and never neither.  A connector it returns was built from a
    configuration whose required fields are set and whose two scope strings
    are valid; it carries the configuration as [OpenConnector] left it, and
    its two search scopes are the ones the strings stand for, single level
    for "one" and whole subtree otherwise, never the base-object scope. *)
Theorem OpenConnector_builds_only_checked_connectors
  (c : Config) (w : world) (c' : Config) (o : option ldapConnector)
  (e : option error) :
  value (OpenConnector c w) = (c', o, e) ->
  (o = None <-> e <> None)
  /\ (forall lc,
        o = Some lc ->
        requiredFieldsSet c
        /\ validScope (UserSearch.Scope (userSearch c))
        /\ validScope (GroupSearch.Scope (groupSearch c))
        /\ config lc = c'
        /\ userSearchScope lc = scopeOf (UserSearch.Scope (userSearch c))
        /\ groupSearchScope lc = scopeOf (GroupSearch.Scope (groupSearch c))
        /\ userSearchScope lc <> ldap.ScopeBaseObject
        /\ groupSearchScope lc <> ldap.ScopeBaseObject).
Proof.
  intros H. split.
  - destruct o as [lc|].
    + destruct (OpenConnector_success _ _ _ _ _ H) as (-> & _).
      split; [discriminate | congruence].
    + destruct (OpenConnector_failure _ _ _ _ H) as [err ->].
      split; [discriminate | reflexivity].
  - intros lc ->.
    destruct (OpenConnector_success _ _ _ _ _ H)
      as (_ & Hreq & -> & Hus & Hgs & pool & _ & ->).
    destruct (parseScope_ok _ Hus) as [Hvu Hu].
    destruct (parseScope_ok _ Hgs) as [Hvg Hg].
    cbn [config userSearchScope groupSearchScope]. rewrite Hu, Hg.
    do 6 (split; [solve [auto]|]).
    unfold scopeOf.
    split; match goal with |- context [if ?b then _ else _] => destruct b end;
      discriminate.
Qed.

(** X3: when the configured host has a port, [OpenConnector] leaves the
    configuration as it is and verifies the server certificate against the
    host part.  When it has none, [OpenConnector] appends ":389" if
    [InsecureNoSSL] is set and ":636" otherwise, writes the result into the
    configuration it was called on (also when the construction fails
    later), and verifies the certificate against the host as configured. *)
Theorem OpenConnector_default_port (c : Config) (w : world) :
  requiredFieldsSet c ->
  (forall h p,
      net_SplitHostPort (Host c) = inl (h, p) ->
      fst (fst (value (OpenConnector c w))) = c
      /\ forall c' lc e,
          value (OpenConnector c w) = (c', Some lc, e) ->
          Host (config lc) = Host c /\ tls.ServerName (tlsConfig lc) = h)
  /\ (forall err,
        net_SplitHostPort (Host c) = inr err ->
        fst (fst (value (OpenConnector c w)))
        = withHost c (Host c ++ (if InsecureNoSSL c then ":389" else ":636"))
        /\ forall c' lc e,
            value (OpenConnector c w) = (c', Some lc, e) ->
            Host (config lc)
            = Host c ++ (if InsecureNoSSL c then ":389" else ":636")
            /\ tls.ServerName (tlsConfig lc) = Host c).
Proof.
  intros Hreq. rewrite (OpenConnector_config_after c w Hreq).
  unfold withPort, defaultPort. split.
  - intros h p Hs. rewrite Hs. split; [reflexivity|].
    intros c' lc e H.
    destruct (OpenConnector_success _ _ _ _ _ H)
      as (_ & _ & _ & _ & _ & pool & _ & ->).
    unfold withPort, serverName. rewrite Hs. auto.
  - intros err Hs. rewrite Hs. split; [reflexivity|].
    intros c' lc e H.
    destruct (OpenConnector_success _ _ _ _ _ H)
      as (_ & _ & _ & _ & _ & pool & _ & ->).
    unfold withPort, serverName, defaultPort. rewrite Hs. auto.
Qed.

(** X4: the trusted certificates of a connector.  With inline certificate
    data, or with no certificate configured at all, [OpenConnector] reads no
    file.  A connector that is returned trusts the inline data when there is
    some, else the content of the configured file, else it has no pool of its
    own; data it trusts contained a certificate.  With a file and no inline
    data the file is read once: a failed read and a content without
    certificate each end the construction with their own error, whatever the
    scopes are; so does inline data without certificate. *)
Theorem OpenConnector_trust_material (c : Config) (w : world) :
  (RootCAData c <> "" \/ RootCA c = "" -> events (OpenConnector c w) = [])
  /\ (forall c' lc e,
        value (OpenConnector c w) = (c', Some lc, e) ->
        (RootCAData c <> "" ->
         tls.RootCAs (tlsConfig lc) = Some (RootCAData c)
         /\ x509_AppendCertsFromPEM (RootCAData c) = true)
        /\ (RootCAData c = "" -> RootCA c = "" ->
            tls.RootCAs (tlsConfig lc) = None)
        /\ (RootCAData c = "" -> RootCA c <> "" ->
            exists data w1,
              ioutil_ReadFile (RootCA c) w = (inl data, w1)
              /\ tls.RootCAs (tlsConfig lc) = Some data
              /\ x509_AppendCertsFromPEM data = true))
  /\ (requiredFieldsSet c -> RootCAData c = "" -> RootCA c <> "" ->
      events (OpenConnector c w) = [EvReadFile (RootCA c)]
      /\ (forall err w1,
            ioutil_ReadFile (RootCA c) w = (inr err, w1) ->
            exists c',
              value (OpenConnector c w) = (c', None, Some (caUnreadable err)))
      /\ (forall data w1,
            ioutil_ReadFile (RootCA c) w = (inl data, w1) ->
            x509_AppendCertsFromPEM data = false ->
            exists c',
              value (OpenConnector c w) = (c', None, Some caWithoutCerts)))
  /\ (requiredFieldsSet c -> RootCAData c <> "" ->
      x509_AppendCertsFromPEM (RootCAData c) = false ->
      exists c', value (OpenConnector c w) = (c', None, Some caWithoutCerts)).
Proof.
  split; [apply OpenConnector_inline_data_no_read|].
  split; [|split;
           [apply OpenConnector_reads_ca_file
           |apply OpenConnector_inline_without_certs]].
  intros c' lc e H.
  destruct (OpenConnector_success _ _ _ _ _ H)
    as (_ & _ & _ & _ & _ & pool & Hpool & ->).
  cbn [tlsConfig tls.RootCAs]. unfold poolFrom in Hpool.
  destruct Hpool
    as [(H1 & H2 & ->)
       | [(H1 & -> & H3) | (H1 & H2 & data & w1 & H3 & -> & H4)]];
    repeat split; intros; try congruence; eauto.
Qed.

(** X5: every error of [OpenConnector] comes without a connector and is
    one of five: a required field is missing, the certificate file cannot be
    read, the certificate data holds no certificate, the scope of the user
    search is unknown, or (the user scope being valid) the scope of the
    group search is unknown.  The last one is reported with the format of
    the user scope: its text says userSearch.Scope and quotes the group
    scope. *)
Theorem OpenConnector_errors (c : Config) (w : world) (c' : Config)
  (o : option ldapConnector) (e : error) :
  value (OpenConnector c w) = (c', o, Some e) ->
  o = None /\ constructionError c e.
Proof.
  unfold OpenConnector.
  destruct (firstMissingField _) as [name|] eqn:Hreq.
  { intros H. injection H as <- <- <-. split; [reflexivity|].
    apply CeMissingField. now apply firstMissingField_name with (c := c). }
  unfold bind, ret, readFile, value.
  destruct (parseScope_cases (UserSearch.Scope (userSearch c)))
    as [[Hvu Hu]|[Hvu Hu]];
    destruct (parseScope_cases (GroupSearch.Scope (groupSearch c)))
      as [[Hvg Hg]|[Hvg Hg]];
    destruct (net_SplitHostPort (Host c)) as [[h p]|err];
    [|destruct (InsecureNoSSL c)| |destruct (InsecureNoSSL c)
     | |destruct (InsecureNoSSL c)| |destruct (InsecureNoSSL c)];
    cbn [withHost userSearch groupSearch RootCA RootCAData InsecureSkipVerify];
    destruct (parseScope (UserSearch.Scope (userSearch c))) as [us uok];
    destruct (parseScope (GroupSearch.Scope (groupSearch c))) as [gs gok];
    cbn [snd] in Hu, Hg; subst uok gok;
    repeat (break_match; cbn [negb fst snd]);
    intros H; try discriminate H; injection H as <- <- <-;
    (split; [reflexivity|]);
    first [ apply CeUnreadable | apply CeWithoutCerts
          | apply CeUserScope; assumption
          | apply CeGroupScope; assumption ].
Qed.

End ConstructionFacts.

Lemma OpenConnector_missing_required_field_witness :
  @OpenConnector Scripted.directory (withHost Scripted.exampleConfig "")
    Scripted.exampleWorld
  = ((withHost Scripted.exampleConfig "", None,
      Some (missingRequiredField "host")), Scripted.exampleWorld, []).
Proof.
  apply (proj1 (@OpenConnector_missing_required_field Scripted.directory
                  (withHost Scripted.exampleConfig "") Scripted.exampleWorld)).
  reflexivity.
Defined.

Lemma OpenConnector_builds_only_checked_connectors_witness :
  requiredFieldsSet Scripted.exampleConfig
  /\ validScope "sub"
  /\ validScope ""
  /\ config Scripted.exampleConnector = Scripted.exampleConfig
  /\ userSearchScope Scripted.exampleConnector = scopeOf "sub"
  /\ groupSearchScope Scripted.exampleConnector = scopeOf ""
  /\ userSearchScope Scripted.exampleConnector <> ldap.ScopeBaseObject
  /\ groupSearchScope Scripted.exampleConnector <> ldap.ScopeBaseObject.
Proof.
  apply (proj2 (@OpenConnector_builds_only_checked_connectors
                  Scripted.directory Scripted.exampleConfig
                  Scripted.exampleWorld Scripted.exampleConfig
                  (Some Scripted.exampleConnector) None eq_refl)
           Scripted.exampleConnector eq_refl).
Defined.

Lemma OpenConnector_default_port_witness :
  Host (fst (fst (value (@OpenConnector Scripted.directory
                           (withHost Scripted.exampleConfig "ldap.example.com")
                           Scripted.exampleWorld))))
  = "ldap.example.com:636".
Proof.
  assert (Hreq : requiredFieldsSet
                   (withHost Scripted.exampleConfig "ldap.example.com")).
  { unfold requiredFieldsSet. split; [|split]; discriminate. }
  exact (f_equal Host
           (proj1 (proj2 (@OpenConnector_default_port Scripted.directory
                            (withHost Scripted.exampleConfig "ldap.example.com")
                            Scripted.exampleWorld Hreq)
                     (ForeignError "missing port in address") eq_refl))).
Defined.

Lemma OpenConnector_trust_material_witness :
  events (@OpenConnector Scripted.directory Scripted.exampleConfig
            Scripted.exampleWorld)
  = [EvReadFile "/etc/dex/ldap.ca"].
Proof.
  assert (Hreq : requiredFieldsSet Scripted.exampleConfig).
  { unfold requiredFieldsSet. split; [|split]; discriminate. }
  assert (Hca : RootCA Scripted.exampleConfig <> "") by discriminate.
  exact (proj1 (proj1 (proj2 (proj2
                  (@OpenConnector_trust_material Scripted.directory
                     Scripted.exampleConfig Scripted.exampleWorld)))
                  Hreq eq_refl Hca)).
Defined.

Lemma OpenConnector_errors_witness :
  @None ldapConnector = None
  /\ constructionError (Scripted.configWithScopes "sub" "base")
       (unknownScope "base").
Proof.
  exact (@OpenConnector_errors Scripted.directory
           (Scripted.configWithScopes "sub" "base") Scripted.exampleWorld
           (Scripted.configWithScopes "sub" "base") None (unknownScope "base")
           eq_refl).
Defined.

(** ** DirectorySession: the shape of every session *)

Section SessionShapeFacts.

Context {D : Directory}.

(** A session of [do] is a session of the connector when the closure only
    emits allowed operations. *)
Lemma do_session_shape {S : Type} (c : ldapConnector)
  (allowed : conn -> Event conn -> Prop)
  (f : conn -> S -> M (S * option error)) (s0 : S) (w : world) :
  (forall cn w2, Forall (allowed cn) (events (f cn s0 w2))) ->
  session c allowed (events (do c f s0 w)).
Proof.
  intros Hf.
  destruct (do_cases c w)
    as [(err & w1 & Hd) | [(cn & w1 & err & w2 & Hd & Hb) | (cn & w2 & Hopen)]].
  - rewrite (do_dial_fails _ _ _ _ _ _ Hd). constructor.
  - rewrite (do_bind_fails _ _ _ _ _ _ _ _ Hd Hb).
    apply (session_closed c allowed cn []). constructor.
  - rewrite (do_session _ _ _ _ _ _ Hopen). unfold events at 1. cbn [snd].
    apply session_closed. apply Hf.
Qed.

Lemma groups_events (c : ldapConnector) (user : ldap.Entry) (w : world) :
  session c searchesOn (events (groups c user w)).
Proof.
  unfold groups, bind.
  match goal with
  | |- context [do c ?f ?s0 w] =>
      pose proof (do_session_shape c searchesOn f s0 w) as H;
      destruct (do c f s0 w) as [[[grps err] w'] t] eqn:Hdo
  end.
  unfold events in *. cbn [snd] in *.
  assert (Ht : session c searchesOn t).
  { apply H. intros cn w2. unfold connSearch, bind, ret.
    destruct (conn_Search cn (groupSearchRequest c user) w2) as [[es|e] w3];
      simpl; repeat (constructor; simpl; auto). }
  destruct err; simpl; now rewrite app_nil_r.
Qed.

Lemma Login_closure_uses_connection (c : ldapConnector)
  (username password : string) (cn : conn) (st : bool * ldap.Entry)
  (w : world) :
  Forall (usesConnection cn) (events (Login_closure c username password cn st w)).
Proof.
  destruct st as [ip user].
  unfold Login_closure, bind, ret, connBind, events. rewrite userEntry_eq.
  destruct (conn_Search cn (userSearchRequest c username) w) as [[es|e] w3];
    [destruct es as [|e [|e' es]]|]; cbn [fst snd negb app];
    try (repeat (constructor; simpl; auto); fail).
  destruct (conn_Bind cn (ldap.DN e) password w3) as [[err|] w4];
    [destruct (isInvalidCredentials err)|]; cbn [fst snd app];
    repeat (constructor; simpl; auto).
Qed.

Lemma Refresh_closure_searches (c : ldapConnector) (data : refreshData)
  (cn : conn) (user : ldap.Entry) (w : world) :
  Forall (searchesOn cn) (events (Refresh_closure c data cn user w)).
Proof.
  rewrite Refresh_closure_eq. repeat (constructor; simpl; auto).
Qed.

(** After its own session, [Login] emits nothing, or the session of the
    group query when groups are asked for. *)
Lemma Login_events_groups (c : ldapConnector) (s : connector.Scopes.t)
  (username password : string) (w : world) :
  exists t2,
    events (Login c s username password w)
    = (events (do c (Login_closure c username password)
                 (false, ldap.zeroEntry) w) ++ t2)%list
    /\ (t2 = []
        \/ connector.Scopes.Groups s = true /\ session c searchesOn t2).
Proof.
  unfold Login, bind, ret, events.
  destruct (do c _ _ w) as [[[[ip user] err] w'] t]. cbn [snd].
  destruct err as [e|]; cbn [snd]; [exists []; auto|].
  destruct ip; cbn [snd]; [exists []; auto|].
  destruct (identityFromEntry c user) as [ident [e|]]; cbn [snd];
    [exists []; auto|].
  destruct (connector.Scopes.Groups s) eqn:Hg; cbn [snd].
  - pose proof (groups_events c user w') as Hs. unfold events in Hs.
    destruct (groups c user w') as [[[grps [ge|]] w''] t'']; cbn [snd] in *.
    + exists t''. rewrite !app_nil_r. auto.
    + exists t''.
      destruct (connector.Scopes.OfflineAccess s); cbn [snd];
        [destruct (json_Marshal _)|]; cbn [snd]; rewrite !app_nil_r; auto.
  - exists [].
    destruct (connector.Scopes.OfflineAccess s); cbn [snd];
      [destruct (json_Marshal _)|]; cbn [snd]; auto.
Qed.

(** A session of searches carries no bind but the one of the service
    account. *)
Lemma session_of_searches_binds (c : ldapConnector) (t : list (Event conn))
  (cn : conn) (dn pw : string) :
  session c searchesOn t -> In (EvBind cn dn pw) t ->
  dn = BindDN (config c) /\ pw = BindPW (config c).
Proof.
  intros Hs Hin. destruct Hs as [|cn0 ops Hops].
  - destruct Hin as [H|[]]. discriminate H.
  - destruct Hin as [H|[H|Hin]]; [discriminate H| |].
    + unfold serviceBind in H. injection H as _ <- <-. auto.
    + apply in_app_or in Hin. destruct Hin as [Hin|[H|[]]]; [|discriminate H].
      rewrite Forall_forall in Hops. apply Hops in Hin. destruct Hin.
Qed.

(** X6: every call of [do] goes one of three ways.  The dial fails: the
    closure is not run, its variables keep their values, and the error is
    the connect failure.  The dial succeeds and the bind as the service
    account fails: the closure is not run, the error names the service
    account, and the connection is closed.  Both succeed: the closure runs
    once on the new connection, its result is the result of [do], and the
    connection is closed after it, also when the closure failed. *)
Theorem do_scoped_session {S : Type} (c : ldapConnector)
  (f : conn -> S -> M (S * option error)) (s0 : S) (w : world) :
  (exists err w1,
      dialAnswer c w = (inr err, w1)
      /\ do c f s0 w = ((s0, Some (connectFailed err)), w1, [dialEvent c None]))
  \/ (exists cn w1 err w2,
        dialAnswer c w = (inl cn, w1)
        /\ conn_Bind cn (BindDN (config c)) (BindPW (config c)) w1
           = (Some err, w2)
        /\ do c f s0 w
           = ((s0, Some (serviceBindFailed c err)), conn_Close cn w2,
              [dialEvent c (Some cn); serviceBind c cn; EvClose cn]))
  \/ (exists cn w2,
        sessionOpens c w cn w2
        /\ do c f s0 w
           = (value (f cn s0 w2), conn_Close cn (after (f cn s0 w2)),
              (dialEvent c (Some cn) :: serviceBind c cn
                 :: events (f cn s0 w2) ++ [EvClose cn])%list)).
Proof.
  destruct (do_cases c w)
    as [(err & w1 & Hd) | [(cn & w1 & err & w2 & Hd & Hb) | (cn & w2 & Hopen)]].
  - left. exists err, w1. split; [assumption|].
    now apply do_dial_fails with (w1 := w1).
  - right; left. exists cn, w1, err, w2. repeat split; auto.
    now apply do_bind_fails with (w1 := w1).
  - right; right. exists cn, w2. split; [assumption|]. now apply do_session.
Qed.

(** X7: the network traffic of [Login] is one session, followed by a
    second one only when groups are asked for.  Each session is a refused
    dial, or a dial, the bind as the service account, operations on that same
    connection and its close: every connection that was opened is closed,
    nothing is sent on it afterwards, and nothing is sent before the service
    account is bound.  The second session only searches. *)
Theorem Login_sessions (c : ldapConnector) (s : connector.Scopes.t)
  (username password : string) (w : world) :
  exists t1 t2,
    events (Login c s username password w) = (t1 ++ t2)%list
    /\ session c usesConnection t1
    /\ (t2 = [] \/ connector.Scopes.Groups s = true /\ session c searchesOn t2).
Proof.
  destruct (Login_events_groups c s username password w) as (t2 & Hev & Ht2).
  eexists. exists t2. split; [exact Hev|]. split; [|exact Ht2].
  apply do_session_shape. intros cn w2. apply Login_closure_uses_connection.
Qed.

(** X8: [Refresh] with a state that does not decode touches neither the
    network nor the world.  Otherwise its traffic is one session, followed
    by a second one only when groups are asked for, and both sessions only
    search: [Refresh] binds as the service account and never with the
    credentials of a user. *)
Theorem Refresh_sessions (c : ldapConnector) (s : connector.Scopes.t)
  (ident : connector.Identity) (w : world) :
  match json_Unmarshal (connector.ConnectorData ident) with
  | inr _ => events (Refresh c s ident w) = [] /\ after (Refresh c s ident w) = w
  | inl _ =>
      exists t1 t2,
        events (Refresh c s ident w) = (t1 ++ t2)%list
        /\ session c searchesOn t1
        /\ (t2 = []
            \/ connector.Scopes.Groups s = true /\ session c searchesOn t2)
  end.
Proof.
  destruct (json_Unmarshal (connector.ConnectorData ident)) as [data|e] eqn:Hdec.
  - unfold Refresh. rewrite Hdec. unfold bind, ret, events.
    pose proof (do_session_shape c searchesOn (Refresh_closure c data)
                  ldap.zeroEntry w (fun cn w2 =>
                    Refresh_closure_searches c data cn ldap.zeroEntry w2)) as H1.
    unfold events in H1.
    destruct (do c _ _ w) as [[[user err] w'] t]. cbn [snd] in *.
    exists t.
    destruct err as [e|]; cbn [snd]; [exists []; auto|].
    destruct (negb _); cbn [snd]; [exists []; auto|].
    destruct (identityFromEntry c user) as [newIdent [e|]]; cbn [snd];
      [exists []; auto|].
    destruct (connector.Scopes.Groups s) eqn:Hg; cbn [snd]; [|exists []; auto].
    pose proof (groups_events c user w') as Hs. unfold events in Hs.
    destruct (groups c user w') as [[[grps [ge|]] w''] t'']; cbn [snd] in *;
      exists t''; rewrite !app_nil_r; auto.
  - now rewrite (Refresh_decode_fails _ _ _ _ _ Hdec).
Qed.

(** X9: the binds of [Login].  Every bind that [Login] sends is the bind
    of the service account, or carries the password that was passed in and
    the distinguished name of the one entry that the user search returned on
    that same connection.  The password goes to no other name, and is not
    sent at all when the search finds no entry or several. *)
Theorem Login_password_sent_only_to_found_entry
  (c : ldapConnector) (s : connector.Scopes.t) (username password : string)
  (w : world) (cn : conn) (dn pw : string) :
  In (EvBind cn dn pw) (events (Login c s username password w)) ->
  (dn = BindDN (config c) /\ pw = BindPW (config c))
  \/ (pw = password
      /\ exists e w3, lookupAnswers c username w cn [e] w3 /\ dn = ldap.DN e).
Proof.
  destruct (Login_events_groups c s username password w) as (t2 & -> & Ht2).
  intros Hin. apply in_app_or in Hin. destruct Hin as [Hin|Hin].
  - destruct (do_cases c w)
      as [(err & w1 & Hd) | [(cn0 & w1 & err & w2 & Hd & Hb)
                            | (cn0 & w2 & Hopen)]].
    + rewrite (do_dial_fails _ _ _ _ _ _ Hd) in Hin.
      destruct Hin as [H|[]]. discriminate H.
    + rewrite (do_bind_fails _ _ _ _ _ _ _ _ Hd Hb) in Hin.
      destruct Hin as [H|[H|[H|[]]]]; try discriminate H.
      unfold serviceBind in H. injection H as _ <- <-. auto.
    + rewrite (do_session _ _ _ _ _ _ Hopen) in Hin.
      unfold events at 1 in Hin. cbn [snd] in Hin.
      destruct Hin as [H|[H|Hin]]; [discriminate H| |].
      { unfold serviceBind in H. injection H as _ <- <-. auto. }
      apply in_app_or in Hin. destruct Hin as [Hin|[H|[]]]; [|discriminate H].
      destruct (conn_Search cn0 (userSearchRequest c username) w2)
        as [[es|err] w3] eqn:Hs.
      * destruct es as [|e [|e' es]].
        -- rewrite (Login_closure_not_found _ _ _ _ _ _ _ Hs) in Hin.
           destruct Hin as [H|[]]. discriminate H.
        -- rewrite (Login_closure_found _ _ _ _ _ _ _ _ Hs) in Hin.
           destruct Hin as [H|[H|[]]]; [discriminate H|].
           unfold userBind in H. injection H as -> <- <-.
           right. split; [reflexivity|]. exists e, w3.
           split; [exists w2; auto | reflexivity].
        -- destruct (Login_closure_ambiguous c username password cn0
                       (false, ldap.zeroEntry) _ _ _ Hs) as [e0 He0];
             [simpl; lia|].
           rewrite He0 in Hin. destruct Hin as [H|[]]. discriminate H.
      * destruct (Login_closure_search_fails c username password cn0
                    (false, ldap.zeroEntry) _ _ _ Hs) as [e0 He0].
        rewrite He0 in Hin. destruct Hin as [H|[]]. discriminate H.
  - destruct Ht2 as [->|[_ Hs]]; [destruct Hin|].
    left. exact (session_of_searches_binds c t2 cn dn pw Hs Hin).
Qed.

End SessionShapeFacts.

Lemma Login_password_sent_only_to_found_entry_witness :
  (ldap.DN Scripted.jane = Scripted.serviceDN /\ "foo" = "password")
  \/ ("foo" = "foo"
      /\ exists e w3,
          @lookupAnswers Scripted.directory Scripted.exampleConnector "jane"
            Scripted.exampleWorld 0 [e] w3
          /\ ldap.DN Scripted.jane = ldap.DN e).
Proof.
  apply (@Login_password_sent_only_to_found_entry Scripted.directory
           Scripted.exampleConnector (connector.Scopes.mk true true)
           "jane" "foo" Scripted.exampleWorld 0 (ldap.DN Scripted.jane) "foo").
  vm_compute. do 3 right. left. reflexivity.
Defined.

(** ** Login: the successful path *)

Section LoginFacts.

Context {D : Directory}.

Lemma Login_session_binds (c : ldapConnector) (s : connector.Scopes.t)
  (username password : string) (w w' : world) (user : ldap.Entry)
  (t : list (Event conn)) :
  do c (Login_closure c username password) (false, ldap.zeroEntry) w
  = ((false, user, None), w', t) ->
  value (Login c s username password w) = Login_found c s username user w'.
Proof.
  intros Hdo. unfold Login, Login_found, bind, ret, value. rewrite Hdo.
  cbn [fst snd].
  destruct (identityFromEntry c user) as [ident [e|]]; [reflexivity|].
  destruct (connector.Scopes.Groups s); cbn [fst snd].
  - destruct (groups c user w') as [[[grps [ge|]] w''] t'']; cbn [fst snd];
      [reflexivity|].
    destruct (connector.Scopes.OfflineAccess s); [|reflexivity].
    destruct (json_Marshal _); reflexivity.
  - destruct (connector.Scopes.OfflineAccess s); [|reflexivity].
    destruct (json_Marshal _); reflexivity.
Qed.

Lemma Login_accepted_bind (c : ldapConnector) (s : connector.Scopes.t)
  (username password : string) (w w3 w4 : world) (cn : conn) (e : ldap.Entry) :
  lookupAnswers c username w cn [e] w3 ->
  conn_Bind cn (ldap.DN e) password w3 = (None, w4) ->
  value (Login c s username password w)
  = Login_found c s username e (conn_Close cn w4).
Proof.
  intros (w2 & Hopen & Hsearch) Hbind.
  apply Login_session_binds
    with (t := [dialEvent c (Some cn); serviceBind c cn;
                EvSearch cn (userSearchRequest c username);
                userBind cn e password; EvClose cn]).
  rewrite (do_session _ _ _ _ _ _ Hopen).
  rewrite (Login_closure_found _ _ _ _ _ _ _ _ Hsearch), Hbind. reflexivity.
Qed.

(** Every way a session of [Login] can end. *)
Lemma Login_session_outcome (c : ldapConnector) (username password : string)
  (w : world) :
  (exists user e,
      value (do c (Login_closure c username password) (false, ldap.zeroEntry) w)
      = (false, user, Some e))
  \/ (exists user,
        value (do c (Login_closure c username password)
                 (false, ldap.zeroEntry) w)
        = (true, user, None))
  \/ (exists cn e w3 w4,
        lookupAnswers c username w cn [e] w3
        /\ conn_Bind cn (ldap.DN e) password w3 = (None, w4)).
Proof.
  destruct (do_cases c w)
    as [(err & w1 & Hd) | [(cn & w1 & err & w2 & Hd & Hb) | (cn & w2 & Hopen)]].
  - left. rewrite (do_dial_fails _ _ _ _ _ _ Hd). unfold value; cbn [fst snd].
    eauto.
  - left. rewrite (do_bind_fails _ _ _ _ _ _ _ _ Hd Hb).
    unfold value; cbn [fst snd]. eauto.
  - rewrite (Login_session_value c username password w w2 cn Hopen).
    destruct (conn_Search cn (userSearchRequest c username) w2)
      as [[es|err] w3] eqn:Hs.
    + destruct es as [|e [|e' es]].
      * right; left. rewrite (Login_closure_not_found _ _ _ _ _ _ _ Hs).
        unfold value; cbn [fst snd]. eauto.
      * rewrite (Login_closure_found _ _ _ _ _ _ _ _ Hs).
        destruct (conn_Bind cn (ldap.DN e) password w3) as [[err|] w4] eqn:Hb.
        -- unfold value; cbn [fst snd].
           destruct (isInvalidCredentials err); [right; left | left]; eauto.
        -- right; right. exists cn, e, w3, w4. split; [exists w2|]; auto.
      * left.
        destruct (Login_closure_ambiguous c username password cn
                    (false, ldap.zeroEntry) _ _ _ Hs) as [e0 ->];
          [simpl; lia|]. unfold value; cbn [fst snd]. eauto.
    + left.
      destruct (Login_closure_search_fails c username password cn
                  (false, ldap.zeroEntry) _ _ _ Hs) as [e0 ->].
      unfold value; cbn [fst snd]. eauto.
Qed.

Lemma Login_found_shape (c : ldapConnector) (s : connector.Scopes.t)
  (username : string) (user : ldap.Entry) (w' : world) :
  (exists e, Login_found c s username user w'
             = (connector.zeroIdentity, false, Some e))
  \/ (exists ident,
        Login_found c s username user w' = (ident, true, None)
        /\ missingAttrs c user = []
        /\ connector.UserID ident = connector.UserID (mappedIdentity c user)
        /\ connector.Username ident = connector.Username (mappedIdentity c user)
        /\ connector.Email ident = connector.Email (mappedIdentity c user)
        /\ (if connector.Scopes.Groups s
            then value (groups c user w') = (connector.Groups ident, None)
            else connector.Groups ident = [])
        /\ (if connector.Scopes.OfflineAccess s
            then json_Marshal (mkRefreshData username user)
                 = inl (connector.ConnectorData ident)
            else connector.ConnectorData ident = "")).
Proof.
  unfold Login_found. rewrite identityFromEntry_eq.
  destruct (missingAttrs c user) as [|a l] eqn:Hm; [|left; eauto].
  destruct (connector.Scopes.Groups s).
  - destruct (value (groups c user w')) as [grps [ge|]] eqn:Hg; [left; eauto|].
    destruct (connector.Scopes.OfflineAccess s).
    + destruct (json_Marshal _) as [data|e] eqn:Hj; [|left; eauto].
      right. eexists. split; [reflexivity|]. simpl. auto 10.
    + right. eexists. split; [reflexivity|]. simpl. auto 10.
  - destruct (connector.Scopes.OfflineAccess s).
    + destruct (json_Marshal _) as [data|e] eqn:Hj; [|left; eauto].
      right. eexists. split; [reflexivity|]. simpl. auto 10.
    + right. eexists. split; [reflexivity|]. simpl. auto 10.
Qed.
Lemma mapped_nonempty (c : ldapConnector) (e : ldap.Entry) :
  missingAttrs c e = [] ->
  connector.UserID (mappedIdentity c e) <> ""
  /\ connector.Email (mappedIdentity c e) <> ""
  /\ (UserSearch.NameAttr (userSearch (config c)) <> "" ->
      connector.Username (mappedIdentity c e) <> "").
Proof.
  intros Hm. rewrite missingAttrs_nil in Hm. unfold mappedIdentity. simpl.
  unfold requiredAttrs in Hm.
  repeat split.
  - apply Hm. simpl. auto.
  - apply Hm. simpl. auto.
  - intros Hn. destruct (UserSearch.NameAttr (userSearch (config c)) =? "") eqn:E.
    + apply String.eqb_eq in E. contradiction.
    + apply Hm. simpl. auto.
Qed.

(** X10: [Login] reports a valid password only with a nil error, and only
    after the user search returned exactly one entry and the directory
    accepted the bind as that entry's distinguished name with the password
    that was passed in.  The identity it then returns has its id and email
    read from that entry, both non-empty, and its name when a name attribute
    is configured; it carries groups only when groups are asked for, namely
    the result of the group query, and refresh state only when offline access
    is asked for, namely the encoding of the username and the entry. *)
Theorem Login_valid_only_after_accepted_bind
  (c : ldapConnector) (s : connector.Scopes.t) (username password : string)
  (w : world) (ident : connector.Identity) (err : option error) :
  value (Login c s username password w) = (ident, true, err) ->
  err = None
  /\ exists cn e w3 w4,
      lookupAnswers c username w cn [e] w3
      /\ conn_Bind cn (ldap.DN e) password w3 = (None, w4)
      /\ missingAttrs c e = []
      /\ connector.UserID ident
         = getAttr e (UserSearch.IDAttr (userSearch (config c)))
      /\ connector.UserID ident <> ""
      /\ connector.Email ident
         = getAttr e (UserSearch.EmailAttr (userSearch (config c)))
      /\ connector.Email ident <> ""
      /\ connector.Username ident
         = (if UserSearch.NameAttr (userSearch (config c)) =? "" then ""
            else getAttr e (UserSearch.NameAttr (userSearch (config c))))
      /\ (if connector.Scopes.Groups s
          then value (groups c e (conn_Close cn w4))
               = (connector.Groups ident, None)
          else connector.Groups ident = [])
      /\ (if connector.Scopes.OfflineAccess s
          then json_Marshal (mkRefreshData username e)
               = inl (connector.ConnectorData ident)
          else connector.ConnectorData ident = "").
Proof.
  intros H.
  destruct (Login_session_outcome c username password w)
    as [(user & e & Hd) | [(user & Hd) | (cn & e & w3 & w4 & Hl & Hb)]].
  - rewrite (Login_session_error c s _ _ _ _ _ _ Hd) in H. discriminate H.
  - rewrite (Login_session_incorrect c s _ _ _ _ Hd) in H. discriminate H.
  - rewrite (Login_accepted_bind c s _ _ _ _ _ _ _ Hl Hb) in H.
    destruct (Login_found_shape c s username e (conn_Close cn w4))
      as [(e0 & He) | (i & Hi & Hm & Hu & Hn & Hem & Hg & Ho)].
    + rewrite He in H. discriminate H.
    + rewrite Hi in H. injection H as <- <-. split; [reflexivity|].
      destruct (mapped_nonempty c e Hm) as (N1 & N2 & _).
      exists cn, e, w3, w4. rewrite Hu, Hem, Hn. repeat split; auto.
Qed.

(** X11: the three results of [Login] never disagree: whenever the
    password is not reported valid the identity is the zero identity, a
    valid password comes with a nil error, and an error comes with false. *)
Theorem Login_result_invariant
  (c : ldapConnector) (s : connector.Scopes.t) (username password : string)
  (w : world) (ident : connector.Identity) (validPass : bool)
  (err : option error) :
  value (Login c s username password w) = (ident, validPass, err) ->
  (validPass = false -> ident = connector.zeroIdentity)
  /\ (validPass = true -> err = None)
  /\ (err <> None -> validPass = false).
Proof.
  intros H.
  destruct (Login_session_outcome c username password w)
    as [(user & e & Hd) | [(user & Hd) | (cn & e & w3 & w4 & Hl & Hb)]].
  - rewrite (Login_session_error c s _ _ _ _ _ _ Hd) in H.
    injection H as <- <- <-. repeat split; auto; discriminate.
  - rewrite (Login_session_incorrect c s _ _ _ _ Hd) in H.
    injection H as <- <- <-. repeat split; auto; discriminate.
  - rewrite (Login_accepted_bind c s _ _ _ _ _ _ _ Hl Hb) in H.
    destruct (Login_found_shape c s username e (conn_Close cn w4))
      as [(e0 & He) | (i & Hi & _)].
    + rewrite He in H. injection H as <- <- <-.
      repeat split; auto; discriminate.
    + rewrite Hi in H. injection H as <- <- <-.
      repeat split; auto; try discriminate. intros F; now destruct F.
Qed.

(** X12: what [Login] does once the directory accepted the password.
    An entry that lacks a required attribute fails the login with the
    error naming the attributes, although the password was right.  With
    groups asked for, a failing group query fails the login with the
    group-query error.  With offline access asked for, a failing encoding of
    the state fails the login with the marshal error.  Otherwise the result
    is the identity mapped from the entry, with the groups and the state that
    were asked for, true and a nil error. *)
Theorem Login_after_accepted_bind
  (c : ldapConnector) (s : connector.Scopes.t) (username password : string)
  (w w3 w4 : world) (cn : conn) (e : ldap.Entry) :
  lookupAnswers c username w cn [e] w3 ->
  conn_Bind cn (ldap.DN e) password w3 = (None, w4) ->
  (missingAttrs c e <> [] ->
   value (Login c s username password w)
   = (connector.zeroIdentity, false,
      Some (incompleteEntry e (missingAttrs c e))))
  /\ (missingAttrs c e = [] ->
      (forall grps ge,
          connector.Scopes.Groups s = true ->
          value (groups c e (conn_Close cn w4)) = (grps, Some ge) ->
          value (Login c s username password w)
          = (connector.zeroIdentity, false, Some (groupsFailed ge)))
      /\ (forall grps,
            (if connector.Scopes.Groups s
             then value (groups c e (conn_Close cn w4)) = (grps, None)
             else grps = []) ->
            (connector.Scopes.OfflineAccess s = false ->
             value (Login c s username password w)
             = (withGroups (mappedIdentity c e) grps, true, None))
            /\ (forall data,
                  connector.Scopes.OfflineAccess s = true ->
                  json_Marshal (mkRefreshData username e) = inl data ->
                  value (Login c s username password w)
                  = (withConnectorData (withGroups (mappedIdentity c e) grps)
                       data, true, None))
            /\ (forall me,
                  connector.Scopes.OfflineAccess s = true ->
                  json_Marshal (mkRefreshData username e) = inr me ->
                  value (Login c s username password w)
                  = (connector.zeroIdentity, false, Some (marshalFailed me))))).
Proof.
  intros Hl Hb. rewrite (Login_accepted_bind c s _ _ _ _ _ _ _ Hl Hb).
  unfold Login_found. rewrite identityFromEntry_eq.
  split.
  - intros Hm. destruct (missingAttrs c e); [now destruct Hm | reflexivity].
  - intros ->. split.
    + intros grps ge -> ->. reflexivity.
    + intros grps Hg.
      assert (Hi : (if connector.Scopes.Groups s
                    then match value (groups c e (conn_Close cn w4)) with
                         | (_, Some ge) => inr (groupsFailed ge)
                         | (g, None) => inl (withGroups (mappedIdentity c e) g)
                         end
                    else inl (mappedIdentity c e))
                   = inl (withGroups (mappedIdentity c e) grps)).
      { destruct (connector.Scopes.Groups s).
        - rewrite Hg. reflexivity.
        - subst grps. reflexivity. }
      rewrite Hi. repeat split.
      * intros ->. reflexivity.
      * intros data -> ->. reflexivity.
      * intros me -> ->. reflexivity.
Qed.

End LoginFacts.

Lemma Login_valid_only_after_accepted_bind_witness :
  snd (value (@Login Scripted.directory Scripted.exampleConnector
                (connector.Scopes.mk true true) "jane" "foo"
                Scripted.exampleWorld)) = None.
Proof.
  exact (proj1 (@Login_valid_only_after_accepted_bind Scripted.directory
                  Scripted.exampleConnector (connector.Scopes.mk true true)
                  "jane" "foo" Scripted.exampleWorld
                  (fst (fst (value (@Login Scripted.directory
                                      Scripted.exampleConnector
                                      (connector.Scopes.mk true true)
                                      "jane" "foo" Scripted.exampleWorld))))
                  (snd (value (@Login Scripted.directory
                                 Scripted.exampleConnector
                                 (connector.Scopes.mk true true)
                                 "jane" "foo" Scripted.exampleWorld)))
                  eq_refl)).
Defined.

Lemma Login_result_invariant_witness :
  fst (fst (value (@Login Scripted.directory Scripted.exampleConnector
                     (connector.Scopes.mk true true) "jane" "wrong"
                     Scripted.exampleWorld)))
  = connector.zeroIdentity.
Proof.
  apply (proj1 (@Login_result_invariant Scripted.directory
                  Scripted.exampleConnector (connector.Scopes.mk true true)
                  "jane" "wrong" Scripted.exampleWorld
                  (fst (fst (value (@Login Scripted.directory
                                      Scripted.exampleConnector
                                      (connector.Scopes.mk true true)
                                      "jane" "wrong" Scripted.exampleWorld))))
                  false None eq_refl)).
  reflexivity.
Defined.

Lemma Login_after_accepted_bind_witness :
  value (@Login Scripted.directory Scripted.exampleConnector
           (connector.Scopes.mk true true) "jane" "foo" Scripted.exampleWorld)
  = (withConnectorData
       (withGroups (mappedIdentity Scripted.exampleConnector Scripted.jane)
          ["admins"; "developers"])
       (Scripted.stateOf (mkRefreshData "jane" Scripted.jane)),
     true, None).
Proof.
  assert (Hlook : @lookupAnswers Scripted.directory Scripted.exampleConnector
                    "jane" Scripted.exampleWorld 0 [Scripted.jane]
                    (Scripted.connected Scripted.exampleWorld)).
  { exists (Scripted.connected Scripted.exampleWorld).
    split; [|reflexivity].
    exists (Scripted.connected Scripted.exampleWorld). split; reflexivity. }
  apply (proj1 (proj2 (proj2 (proj2
                  (@Login_after_accepted_bind Scripted.directory
                     Scripted.exampleConnector (connector.Scopes.mk true true)
                     "jane" "foo" Scripted.exampleWorld
                     (Scripted.connected Scripted.exampleWorld)
                     (Scripted.connected Scripted.exampleWorld) 0
                     Scripted.jane Hlook eq_refl)
                  eq_refl)
                  ["admins"; "developers"] eq_refl))
           (Scripted.stateOf (mkRefreshData "jane" Scripted.jane)));
    reflexivity.
Defined.

(** ** Refresh: the successful path, and Login followed by Refresh *)

Section RefreshSuccessFacts.

Context {D : Directory}.

Lemma Refresh_found_success (c : ldapConnector) (s : connector.Scopes.t)
  (ident : connector.Identity) (data : refreshData) (e : ldap.Entry)
  (w' : world) (r : connector.Identity) :
  Refresh_found c s ident data e w' = (r, None) ->
  ldap.DN e = ldap.DN (rdEntry data)
  /\ missingAttrs c e = []
  /\ r = withGroups
           (withConnectorData (mappedIdentity c e)
              (connector.ConnectorData ident))
           (connector.Groups r)
  /\ (if connector.Scopes.Groups s
      then value (groups c e w') = (connector.Groups r, None)
      else connector.Groups r = []).
Proof.
  unfold Refresh_found. rewrite identityFromEntry_eq.
  destruct (ldap.DN e =? ldap.DN (rdEntry data)) eqn:Hdn; cbn [negb];
    [|discriminate].
  apply String.eqb_eq in Hdn.
  destruct (missingAttrs c e) as [|a l]; [|discriminate].
  destruct (connector.Scopes.Groups s).
  - destruct (value (groups c e w')) as [grps [ge|]]; [discriminate|].
    intros H. injection H as <-. auto.
  - intros H. injection H as <-. auto.
Qed.

(** X13: [Refresh] returns a nil error only when the state decoded, the
    lookup of the stored username returned exactly one entry, and that entry
    has the distinguished name of the stored one and all required
    attributes.  The identity it returns is read from the entry found now,
    not from the stored one; it carries the state of the identity that was
    passed in, unchanged; and its groups are the result of a new group query
    when groups are asked for and empty otherwise: the groups of the identity
    that was passed in are not kept. *)
Theorem Refresh_success_from_fresh_entry
  (c : ldapConnector) (s : connector.Scopes.t) (ident : connector.Identity)
  (w : world) (r : connector.Identity) :
  value (Refresh c s ident w) = (r, None) ->
  exists data cn e w3,
    json_Unmarshal (connector.ConnectorData ident) = inl data
    /\ lookupAnswers c (rdUsername data) w cn [e] w3
    /\ ldap.DN e = ldap.DN (rdEntry data)
    /\ missingAttrs c e = []
    /\ connector.UserID r
       = getAttr e (UserSearch.IDAttr (userSearch (config c)))
    /\ connector.Email r
       = getAttr e (UserSearch.EmailAttr (userSearch (config c)))
    /\ connector.Username r
       = (if UserSearch.NameAttr (userSearch (config c)) =? "" then ""
          else getAttr e (UserSearch.NameAttr (userSearch (config c))))
    /\ connector.ConnectorData r = connector.ConnectorData ident
    /\ (if connector.Scopes.Groups s
        then value (groups c e (conn_Close cn w3)) = (connector.Groups r, None)
        else connector.Groups r = []).
Proof.
  intros H.
  destruct (json_Unmarshal (connector.ConnectorData ident)) as [data|de] eqn:Hj.
  - destruct (Refresh_session_outcome c data w)
      as [(user & e & Hd & _) | (cn & e & w3 & Hl & Hd)].
    + rewrite (Refresh_session_fails c s ident w data user e Hj Hd) in H.
      discriminate H.
    + rewrite (Refresh_user_found c s ident data w w3 cn e Hj Hl) in H.
      apply Refresh_found_success in H. destruct H as (Hdn & Hm & Hr & Hg).
      exists data, cn, e, w3. rewrite Hr. simpl. repeat split; auto.
  - rewrite (Refresh_decode_fails c s ident w de Hj) in H. discriminate H.
Qed.

(** X14: [Login] then [Refresh].  When the state that [Login] issued
    decodes to the username and the entry it was made from, and at the time
    of the refresh the directory answers the user lookup with the same entry
    and (when groups are asked for) the group query with the same groups,
    [Refresh] under the same scopes returns exactly the identity that [Login]
    issued, with a nil error. *)
Theorem Refresh_after_Login
  (c : ldapConnector) (s : connector.Scopes.t) (username password : string)
  (w w3 w4 : world) (cn : conn) (e : ldap.Entry) (ident : connector.Identity)
  (w' w3' : world) (cn' : conn) :
  lookupAnswers c username w cn [e] w3 ->
  conn_Bind cn (ldap.DN e) password w3 = (None, w4) ->
  value (Login c s username password w) = (ident, true, None) ->
  json_Unmarshal (connector.ConnectorData ident)
  = inl (mkRefreshData username e) ->
  lookupAnswers c username w' cn' [e] w3' ->
  (connector.Scopes.Groups s = true ->
   value (groups c e (conn_Close cn' w3'))
   = value (groups c e (conn_Close cn w4))) ->
  value (Refresh c s ident w') = (ident, None).
Proof.
  intros Hl Hb Hlogin Hj Hl' Hsame.
  rewrite (Login_accepted_bind c s _ _ _ _ _ _ _ Hl Hb) in Hlogin.
  destruct (Login_found_shape c s username e (conn_Close cn w4))
    as [(e0 & He) | (i & Hi & Hm & Hu & Hn & Hem & Hg & _)].
  { rewrite He in Hlogin. discriminate Hlogin. }
  rewrite Hi in Hlogin. injection Hlogin as ->.
  rewrite (Refresh_user_found c s ident (mkRefreshData username e) w' w3' cn' e
             Hj Hl').
  unfold Refresh_found. cbn [rdEntry rdUsername].
  rewrite String.eqb_refl. cbn [negb].
  rewrite identityFromEntry_eq, Hm.
  destruct ident as [uid uname email grps data]. simpl in *. subst.
  destruct (connector.Scopes.Groups s).
  - rewrite (Hsame eq_refl), Hg. reflexivity.
  - subst grps. reflexivity.
Qed.

End RefreshSuccessFacts.

(** ** GroupResolver: every outcome *)

Section GroupOutcomeFacts.

Context {D : Directory}.

Lemma groupNames_loop_outcome (c : ldapConnector) (es : list ldap.Entry) :
  forall acc names err,
    groupNames_loop c es acc = (names, err) ->
    match err with
    | Some e => names = [] /\ exists g, In g es /\ groupName c g = ""
                                        /\ e = missingGroupName c g
    | None => names = (acc ++ map (groupName c) es)%list
              /\ Forall (fun g => groupName c g <> "") es
    end.
Proof.
  induction es as [|g es IH]; intros acc names err; simpl.
  - intros H. injection H as <- <-. rewrite app_nil_r. auto.
  - fold (groupName c g).
    destruct (groupName c g =? "") eqn:E.
    + apply String.eqb_eq in E. intros H. injection H as <- <-.
      split; [reflexivity|]. exists g. auto.
    + apply String.eqb_neq in E. intros H. apply IH in H.
      destruct err as [e|].
      * destruct H as (-> & g' & Hin & Hn & ->). split; [reflexivity|].
        exists g'. auto.
      * destruct H as (-> & Hall). rewrite <- app_assoc. simpl. auto.
Qed.

(** X15: every outcome of [groups].  An error comes with no group name at
    all and is the connect failure, the failed bind of the service account,
    the failed search, or the error for a returned group entry that has no
    name.  A nil error means that the session opened and the search
    answered; the names are then those of the returned entries, one per
    entry and in the order of the answer, and none of them is empty. *)
Theorem groups_outcome
  (c : ldapConnector) (user : ldap.Entry) (w : world) (names : list string)
  (err : option error) :
  value (groups c user w) = (names, err) ->
  match err with
  | Some e =>
      names = []
      /\ ((exists d, e = connectFailed d)
          \/ (exists d, e = serviceBindFailed c d)
          \/ (exists d, e = groupSearchFailed d)
          \/ (exists cn w2 es w3 g,
                sessionOpens c w cn w2
                /\ conn_Search cn (groupSearchRequest c user) w2 = (inl es, w3)
                /\ In g es /\ groupName c g = ""
                /\ e = missingGroupName c g))
  | None =>
      exists cn w2 es w3,
        sessionOpens c w cn w2
        /\ conn_Search cn (groupSearchRequest c user) w2 = (inl es, w3)
        /\ names = map (groupName c) es
        /\ Forall (fun n => n <> "") names
  end.
Proof.
  destruct (do_cases c w)
    as [(d & w1 & Hd) | [(cn & w1 & d & w2 & Hd & Hb) | (cn & w2 & Hopen)]].
  - unfold groups, bind, ret, value.
    rewrite (do_dial_fails _ _ _ _ _ _ Hd). cbn [fst snd].
    intros H. injection H as <- <-. split; [reflexivity|]. left. exists d. reflexivity.
  - unfold groups, bind, ret, value.
    rewrite (do_bind_fails _ _ _ _ _ _ _ _ Hd Hb). cbn [fst snd].
    intros H. injection H as <- <-. split; [reflexivity|]. right; left. exists d. reflexivity.
  - destruct (conn_Search cn (groupSearchRequest c user) w2)
      as [[es|d] w3] eqn:Hs.
    + rewrite (groups_session c user w w2 w3 cn es Hopen Hs).
      unfold value; cbn [fst snd]. intros H.
      apply groupNames_loop_outcome in H. destruct err as [e|].
      * destruct H as (-> & g & Hin & Hn & ->). split; [reflexivity|].
        right; right; right. exists cn, w2, es, w3, g. auto.
      * destruct H as (-> & Hall). exists cn, w2, es, w3.
        repeat split; auto. simpl.
        rewrite Forall_map. exact Hall.
    + unfold groups, bind, ret, value.
      rewrite (do_session _ _ _ _ _ _ Hopen).
      unfold connSearch, bind, ret, value. rewrite Hs. cbn [fst snd].
      intros H. injection H as <- <-. split; [reflexivity|].
      right; right; left. exists d. reflexivity.
Qed.

End GroupOutcomeFacts.

(** ** The attributes that the user search asks for *)

(** X16: the user search asks for everything that is read later.  Two
    entries with the same distinguished name that agree on the attributes
    listed in the request of [userEntry] give the same result of
    [identityFromEntry] and the same group search request: an attribute that
    was not asked for never influences the identity or the group query. *)
Theorem lookup_reads_only_requested_attributes
  (c : ldapConnector) (username : string) (e1 e2 : ldap.Entry) :
  ldap.DN e1 = ldap.DN e2 ->
  (forall a, In a (ldap.SearchRequest.Attributes (userSearchRequest c username)) ->
             getAttr e1 a = getAttr e2 a) ->
  identityFromEntry c e1 = identityFromEntry c e2
  /\ groupSearchRequest c e1 = groupSearchRequest c e2.
Proof.
  intros Hdn Hattrs.
  assert (Hid : getAttr e1 (UserSearch.IDAttr (userSearch (config c)))
                = getAttr e2 (UserSearch.IDAttr (userSearch (config c)))).
  { apply Hattrs. unfold userSearchRequest. simpl.
    destruct (negb _); simpl; auto. }
  assert (Hem : getAttr e1 (UserSearch.EmailAttr (userSearch (config c)))
                = getAttr e2 (UserSearch.EmailAttr (userSearch (config c)))).
  { apply Hattrs. unfold userSearchRequest. simpl.
    destruct (negb _); simpl; auto. }
  assert (Hua : getAttr e1 (GroupSearch.UserAttr (groupSearch (config c)))
                = getAttr e2 (GroupSearch.UserAttr (groupSearch (config c)))).
  { apply Hattrs. unfold userSearchRequest. simpl.
    destruct (negb _); simpl; auto. }
  split.
  - unfold identityFromEntry. rewrite Hid, Hem, Hdn.
    destruct (UserSearch.NameAttr (userSearch (config c)) =? "") eqn:E;
      cbn [negb]; [reflexivity|].
    assert (Hn : getAttr e1 (UserSearch.NameAttr (userSearch (config c)))
                 = getAttr e2 (UserSearch.NameAttr (userSearch (config c)))).
    { apply Hattrs. unfold userSearchRequest. simpl. rewrite E. simpl. auto. }
    rewrite Hn. reflexivity.
  - unfold groupSearchRequest, groupFilter. rewrite Hua. reflexivity.
Qed.

Lemma Refresh_success_from_fresh_entry_witness :
  exists data cn e w3,
    json.Unmarshal
      (connector.ConnectorData (Scripted.janeIdentity Scripted.jane))
    = inl data
    /\ @lookupAnswers Scripted.directory Scripted.exampleConnector
         (rdUsername data) Scripted.exampleWorld cn [e] w3
    /\ ldap.DN e = ldap.DN (rdEntry data)
    /\ connector.Groups
         (fst (value (@Refresh Scripted.directory Scripted.exampleConnector
                        (connector.Scopes.mk false false)
                        (Scripted.janeIdentity Scripted.jane)
                        Scripted.exampleWorld)))
       = [].
Proof.
  destruct (@Refresh_success_from_fresh_entry Scripted.directory
              Scripted.exampleConnector (connector.Scopes.mk false false)
              (Scripted.janeIdentity Scripted.jane) Scripted.exampleWorld
              (fst (value (@Refresh Scripted.directory
                             Scripted.exampleConnector
                             (connector.Scopes.mk false false)
                             (Scripted.janeIdentity Scripted.jane)
                             Scripted.exampleWorld)))
              eq_refl)
    as (data & cn & e & w3 & H1 & H2 & H3 & _ & _ & _ & _ & _ & H9).
  exists data, cn, e, w3. repeat split; assumption.
Defined.

Lemma Refresh_after_Login_witness :
  value (@Refresh Scripted.directory Scripted.exampleConnector
           (connector.Scopes.mk true true)
           (fst (fst (value (@Login Scripted.directory
                               Scripted.exampleConnector
                               (connector.Scopes.mk true true) "jane" "foo"
                               Scripted.exampleWorld))))
           Scripted.exampleWorld)
  = (fst (fst (value (@Login Scripted.directory Scripted.exampleConnector
                        (connector.Scopes.mk true true) "jane" "foo"
                        Scripted.exampleWorld))),
     None).
Proof.
  assert (Hlook : @lookupAnswers Scripted.directory Scripted.exampleConnector
                    "jane" Scripted.exampleWorld 0 [Scripted.jane]
                    (Scripted.connected Scripted.exampleWorld)).
  { exists (Scripted.connected Scripted.exampleWorld).
    split; [|reflexivity].
    exists (Scripted.connected Scripted.exampleWorld). split; reflexivity. }
  apply (@Refresh_after_Login Scripted.directory Scripted.exampleConnector
           (connector.Scopes.mk true true) "jane" "foo"
           Scripted.exampleWorld (Scripted.connected Scripted.exampleWorld)
           (Scripted.connected Scripted.exampleWorld) 0 Scripted.jane
           (fst (fst (value (@Login Scripted.directory
                               Scripted.exampleConnector
                               (connector.Scopes.mk true true) "jane" "foo"
                               Scripted.exampleWorld))))
           Scripted.exampleWorld (Scripted.connected Scripted.exampleWorld) 0
           Hlook eq_refl eq_refl);
    [vm_compute; reflexivity | exact Hlook | intros _; reflexivity].
Defined.

Lemma groups_outcome_witness :
  exists cn w2 es w3,
    @sessionOpens Scripted.directory Scripted.exampleConnector
      Scripted.exampleWorld cn w2
    /\ Scripted.answerSearch
         (groupSearchRequest Scripted.exampleConnector Scripted.jane) w2
       = (inl es, w3)
    /\ ["admins"; "developers"] = map (groupName Scripted.exampleConnector) es
    /\ Forall (fun n => n <> "") ["admins"; "developers"].
Proof.
  exact (@groups_outcome Scripted.directory Scripted.exampleConnector
           Scripted.jane Scripted.exampleWorld ["admins"; "developers"] None
           eq_refl).
Defined.

Lemma lookup_reads_only_requested_attributes_witness :
  identityFromEntry Scripted.exampleConnector Scripted.jane
  = identityFromEntry Scripted.exampleConnector
      (ldap.mkEntry (ldap.DN Scripted.jane)
         (ldap.mkEntryAttribute "telephoneNumber" ["555-0100"]
            :: ldap.Attributes Scripted.jane))
  /\ groupSearchRequest Scripted.exampleConnector Scripted.jane
     = groupSearchRequest Scripted.exampleConnector
         (ldap.mkEntry (ldap.DN Scripted.jane)
            (ldap.mkEntryAttribute "telephoneNumber" ["555-0100"]
               :: ldap.Attributes Scripted.jane)).
Proof.
  apply (lookup_reads_only_requested_attributes Scripted.exampleConnector
           "jane" Scripted.jane
           (ldap.mkEntry (ldap.DN Scripted.jane)
              (ldap.mkEntryAttribute "telephoneNumber" ["555-0100"]
                 :: ldap.Attributes Scripted.jane))).
  - reflexivity.
  - simpl. intros a [<-|[<-|[<-|[<-|[]]]]]; reflexivity.
Defined.

(** ** Open *)

(** X17: [Open] and [OpenConnector] agree: they return the same connector
    or the same error, leave the same configuration, and read the same
    file.  [Open] adds no check of its own and drops none. *)
Theorem Open_agrees_with_OpenConnector {D : Directory} (c : Config) (w : world) :
  Open c w = OpenConnector c w.
Proof.
  unfold Open, bind, ret.
  destruct (OpenConnector c w) as [[[[c' o] e] w'] t] eqn:H.
  cbn [fst snd].
  destruct e as [e|]; cbn [fst snd]; rewrite ?app_nil_r; [|reflexivity].
  assert (Hv : value (OpenConnector c w) = (c', o, Some e))
    by (rewrite H; reflexivity).
  destruct o as [lc|]; [|reflexivity].
  destruct (OpenConnector_success _ _ _ _ _ Hv) as [Hn _]. discriminate Hn.
Qed.
